(* ===== verification/_CoqProject ===== *)
-Q . S2P
Prelude.v
Dom.v
Runtime.v
Page.v
Submenu.v
Layout.v
Dropdown.v
Hover.v
Polos.v
Controller.v
Invariants.v
Refresh.v
Spec.v
Interleavings.v
