(* ===== verification/Prelude.v ===== *)
(** * Admin Polos: a verification development of src/aset/js/admin-polos.js

    ** The program

    One class, [AdminPolos] (src/aset/js/admin-polos.js, lines 8-289),
    drives the sidebar of an admin dashboard.  A single instance is built
    on [DOMContentLoaded] (lines 291-294).  Its state is spread over:
    - the class lists of a few elements: the sidebar's layout class
      ([layout-full|compact|icons|hidden]), its [open] class on mobile,
      [layout-full-temp] during hover expansion, the overlay's [active],
      the layout buttons' [active], the submenus' ([.has-sub]) [open], and
      the user dropdown's [show];
    - three fields: [currentLayout], [hoverTimeout] and
      [isHoveringSidebar];
    - [localStorage.adminPolosLayout];
    - pending [setTimeout] timers and registered event listeners.
    [init] (lines 24-31) registers the listeners (clicks on the toggle,
    overlay, user menu and layout buttons, document clicks, window resize,
    mouse enter/leave on the sidebar), applies the layout, and hooks into
    the optional [Polos] framework.  The components call one another:
    [setLayout] and the hover collapse call [closeAllSubmenus]; the toggle
    calls [setLayout] on the desktop; [refresh] rebinds the submenu handler
    and re-enhances interactive elements.

    ** Files

    - [Prelude] (this file): notations [===] and [!==] for JavaScript
      strict equality in [polos_scope], the hint databases [polos] and
      [polos_rw], the [decide_prop] tactic, and list lemmas shared below.
    - [Dom]: the document as a list of elements in document order (index
      = identity) with id, tag, parent, class set ([gset string]) and
      attributes; [classList.add/remove/toggle/contains], [parentElement],
      [contains] (parent chain with fuel), [getElementById],
      [querySelectorAll] for the selectors the code uses.  [shape_eq] is
      the equivalence "equal up to class lists", with [Proper] instances
      for every tree query; [fold_update] is a [forEach] of class updates.
    - [Runtime]: the browser world ([World]: document, storage, width,
      clock, timers, listeners, the optional Polos object, output, the
      controller's fields [Ctl], the current event's flags) and the monad
      [M] in which code runs: state plus exceptions that keep the world as
      it was when thrown.  Dereferencing a [null] element field throws a
      [TypeError].  Primitives: [setTimeout]/[clearTimeout] (fresh ids),
      [addEventListener] (deduplicated by function identity, fresh for
      each evaluated arrow function), [localStorage], console output, and
      the [DOMTokenList] methods, which validate each token first (an
      empty token throws [SyntaxError], one with ASCII whitespace
      [InvalidCharacterError], both as [DOMException]).  The window's
      global names ([w_globals]) record [window.AdminPolos] and
      [window.adminPolos]; the Polos subscriptions are tags [PolosCb].
      [preserves P m] and its lemmas are the frame library.
    - [Page]: a concrete page with the expected element ids, on which the
      witnesses evaluate.
    - [Submenu], [Layout], [Dropdown], [Hover], [Polos]: one file per
      component, one definition per method or closure, named as in the
      source ([setLayout], [toggleSidebar], [handleSubmenuClick],
      [onMouseEnter] for the arrow function of line 119, ...), each
      followed by its closed form ([..._run]) and its theorems.
    - [Controller]: [script] (line 297, [window.AdminPolos]),
      [onDOMContentLoaded] (lines 292-294, [window.adminPolos = new
      AdminPolos()]), [page_load] (the script, then the load listener with
      its exception reported), [page_call] (a page script calling
      [adminPolos.refresh()] or [setLayoutManually], a [TypeError] when the
      instance was never created), [construct], [init],
      [setupEventListeners], the
      dispatch of an event along its path (bubbling, [stopPropagation]
      honoured after the current target, an exception of one listener
      reported and the others still run), timers firing earliest first,
      Polos notifications, the inputs a page receives and the [reachable]
      worlds.
    - [Invariants]: a frame theorem: a property that survives each
      primitive update holds in every reachable world ([reachable_frame]);
      the conditions are a class [FrameConds], whose instances are the
      properties; the listeners registered may be restricted, a
      submenu listener carries the controller's [handleSubmenuClick]
      object, controller writes keep that object, and the hover
      listeners, which write [hoverTimeout] and schedule hover timers, are
      hypotheses of [reachable_after_load].
    - [Refresh]: [refresh()] on any page, by Hoare triples over [M]
      ([hoare P m Q]: from [P], [m] returns in [Q]): the submenu links it
      binds and the interactive listeners it stacks.
    - [Interleavings]: handlers and timers as explicit sequences of
      steps in [M] ([m1;; m2;; fire_timer]), the dispatch of a click
      along its path, on any page whose listeners are given, and the
      draining of the timer queue ([fire_n]).
    - [Spec]: the abstract shell of spec.md §3 ([Shell]: layout mode,
      mobile sidebar, dropdown, open submenus), its operations
      ([spec_setLayout], ...), the abstraction [abs] of a world, and the
      refinement theorems; and the operations that touch the mobile
      sidebar and its overlay ([MobileOp]: toggle, overlay click, resize,
      [setLayoutManually]) run in any order ([run_mobile_ops]).

    ** Theorems (claim ids of the manifest)

    - Layout: C1 a saved layout is never restored, because
      [setupLayoutSystem] stores [full] before it reads storage; C2 a mode
      becomes current, stored, and the only layout class; C3 leaving
      [full] closes every submenu; C4 the active layout button; C5 unknown
      values are accepted and leave no layout class; C6/C7 the toggle on
      desktop and on mobile; C8 resize closes the mobile sidebar; C28 a
      value holding whitespace makes [classList.add] throw after the
      layout classes were removed (a half-done update).
    - Submenus: C9 a top-level click is exclusive; C10 the guard of line
      157 suppresses clicks on narrow icons layouts.
    - Hover: C11 both listeners keep the single-slot timer discipline; C12
      leaving cancels a pending expansion.
    - Page load and [refresh()]: C14 load binds no submenu handler; C15
      [refresh()] binds it on every submenu link of any page; C16 each
      [refresh()] adds one more anonymous listener to every
      [.js-interactive] element; C30 the submenu handler, one function
      object, is never stacked on any reachable page.
    - Invariants of every reachable page: C13 every pending hover timer is
      the one [hoverTimeout] names, so at most one is pending; C17 a
      loading indicator set on an element is never cleared on it (line 226
      reads [e.currentTarget] after dispatch); C22 auto-hover is decided
      once at load: a page loaded at most 768px wide never has hover
      listeners, even after widening.
    - Refinement (C18-C21, C23): [setLayout], [toggleSidebar],
      [handleResize], the two dropdown listeners and [handleSubmenuClick]
      move [abs] as the spec's operations do, on pages where the sidebar
      and the dropdown are not submenus.
    - Interleavings: C24 the expand callback still fires after a layout
      change; C25 entering then leaving quickly never expands; C26/C27 a
      click inside the user menu toggles the dropdown and stops before the
      document listener, a click outside hides it; C29 the timer queue
      drains: no callback schedules another timer.
    - The mobile sidebar: C31 the overlay's [active] equals the sidebar's
      [open] after any sequence of toggles, overlay clicks, resizes and
      layout changes.
    - Missing elements: C32 a page without [#overlay] throws out of the
      constructor after the toggle listener was bound, so
      [window.adminPolos] is never set and page calls throw, while the
      toggle stays live; C33 that toggle then opens the sidebar and throws
      before the overlay (the mirror of C31 breaks).

    ** Bounds and fuel

    Recursion is structural everywhere ([forEach] over lists, [propagate]
    over the event path, [earliest] over the timer list) except the parent
    chain, which uses fuel [length d]; [Dom.ancestors_fuel_enough] and
    [Dom.contains_spec] show it suffices on a document whose parents
    precede their children, and [fire_n] fires as many timers as are
    pending, which C29 shows is enough to empty the queue.  The window
    width and times are [Z] (no wrap-around is involved); timer and
    function ids are [nat] counters.

    ** Modelling choices and what is left out

    [undefined] layouts are [None] ([jsstring]); [null] element fields
    are [None] and throw on use.  The Polos framework is not modelled: its
    presence is a field, [Polos.on] records a subscription, and
    [Polos.setLoading] is an output.  CSS, layout, the capture phase and
    [mouseenter] on descendants are not modelled; [window.AdminPolos] is
    a global name only, and the [console] banner an output.

    ** Plan for later sittings

    The sidebar/overlay agreement over all inputs of [reachable] (C31
    proves it for the operations that write these classes; the other
    handlers would need a frame class restricted by class name); the
    dispatch of a submenu-link click on any page; [layout-full-temp]
    surviving [setLayout].
*)

From stdpp Require Export base gmap strings list.
From Stdlib Require Export ZArith.

Declare Scope polos_scope.
Delimit Scope polos_scope with polos.

(** JavaScript strict equality on strings and numbers, as a boolean. *)
Notation "a === b" := (bool_decide (a = b)) (at level 70, no associativity) : polos_scope.
Notation "a !== b" := (negb (bool_decide (a = b))) (at level 70, no associativity) : polos_scope.

Open Scope polos_scope.

Create HintDb polos discriminated.
Create Rewrite HintDb polos_rw.

(** ** Class sets *)

Section gset_lemmas.
Context `{Countable A}.

Lemma elem_of_remove_list (x : A) (l : list A) (s : gset A) :
  x ∈ s ∖ list_to_set l ↔ x ∈ s ∧ x ∉ l.
Proof. rewrite elem_of_difference, elem_of_list_to_set. done. Qed.
End gset_lemmas.

Ltac invc H := inversion H; subst; clear H.

(** Close a decidable proposition about concrete data by evaluation. *)
Ltac decide_prop := apply (bool_decide_eq_true_1 _); vm_compute; reflexivity.

(** ** Lists *)

Section list_lemmas.
Context {A B : Type} (f : A → B).

Lemma NoDup_fmap_filter (P : A → Prop) `{∀ x, Decision (P x)} (l : list A) :
  NoDup (f <$> l) → NoDup (f <$> filter P l).
Proof.
  induction l as [|x l IH]; [done|]. rewrite filter_cons. simpl.
  rewrite !NoDup_cons. intros [Hx Hl]. case_decide; simpl; [|by apply IH].
  rewrite NoDup_cons. split; [|by apply IH].
  intros Hin. apply Hx. apply list_elem_of_fmap in Hin as (y&->&Hy).
  apply list_elem_of_fmap. exists y. split; [done|]. by apply list_elem_of_filter in Hy as [_ ?].
Qed.

(** A duplicate-free projection that is constant on a list leaves at most
    one element. *)
Lemma NoDup_fmap_const_length (l : list A) (c : B) :
  NoDup (f <$> l) → (∀ x, x ∈ l → f x = c) → length l ≤ 1.
Proof.
  intros Hnd Hc. rewrite <-(length_fmap f l).
  apply (NoDup_incl_length (l := f <$> l) (l' := [c])); [by apply NoDup_ListNoDup|].
  intros y Hy. rewrite <-list_elem_of_In in Hy.
  apply list_elem_of_fmap in Hy as (x&->&Hx). rewrite Hc by done. by left.
Qed.
End list_lemmas.
