(* ===== verification/Dom.v ===== *)
(** * The document: element store, class lists, selectors and [contains]

    The page's DOM as the controller sees it: a list of elements in
    document order, each with its [id] attribute, tag name, parent,
    [classList] (a set of class names) and attributes.  An element is named
    by its index in the list.  The controller never inserts or removes
    nodes; it only changes class lists, so every operation here other than
    the class-list updates is a query. *)

From S2P Require Import Prelude.

#[local] Set Warnings "-clear-no-such-hyp".

Record Elem := mkElem {
  el_id : option string;
  el_tag : string;
  el_parent : option nat;
  el_classes : gset string;
  el_attrs : gmap string string
}.

Abbreviation Dom := (list Elem).

Definition set_classes (cs : gset string) (e : Elem) : Elem :=
  mkElem (el_id e) (el_tag e) (el_parent e) cs (el_attrs e).

(** ** [element.classList] (DOMTokenList) *)

Definition classList_update (f : gset string → gset string) (n : nat) (d : Dom) : Dom :=
  alter (λ e, set_classes (f (el_classes e)) e) n d.

(** [el.classList.add(c)] *)
Definition classList_add (c : string) : nat → Dom → Dom :=
  classList_update (λ cs, {[c]} ∪ cs).

(** [el.classList.remove(c1, c2, ...)] *)
Definition classList_remove (l : list string) : nat → Dom → Dom :=
  classList_update (λ cs, cs ∖ list_to_set l).

(** [el.classList.toggle(c)] *)
Definition classList_toggle (c : string) : nat → Dom → Dom :=
  classList_update (λ cs, if decide (c ∈ cs) then cs ∖ {[c]} else {[c]} ∪ cs).

(** [el.classList.toggle(c, force)] *)
Definition classList_toggle_force (c : string) (force : bool) : nat → Dom → Dom :=
  classList_update (λ cs, if force then {[c]} ∪ cs else cs ∖ {[c]}).

(** [el.classList.contains(c)] *)
Definition classList_contains (c : string) (n : nat) (d : Dom) : bool :=
  match d !! n with
  | Some e => bool_decide (c ∈ el_classes e)
  | None => false
  end.

(** ** Tree queries *)

(** [el.parentElement] *)
Definition parentElement (d : Dom) (n : nat) : option nat :=
  d !! n ≫= el_parent.

(** [n] and its ancestors, innermost first, following at most [fuel]
    parent links. *)
Fixpoint ancestors (fuel : nat) (d : Dom) (n : nat) : list nat :=
  match fuel with
  | 0 => []
  | S f => n :: match parentElement d n with
                | Some p => ancestors f d p
                | None => []
                end
  end.

(** [a.contains(b)]: [b] is [a] or one of its descendants; [contains(null)]
    is false.  The chain is followed for [length d] links, which covers every
    chain of a well-formed document ([dom_wf]: a parent precedes its child). *)
Definition contains (d : Dom) (a : nat) (b : option nat) : bool :=
  match b with
  | Some b => bool_decide (a ∈ ancestors (length d) d b)
  | None => false
  end.

(** [document.getElementById(s)]: the first element in document order. *)
Definition getElementById (d : Dom) (s : string) : option nat :=
  fst <$> list_find (λ e, el_id e = Some s) d.

(** ** Selectors used by the controller *)

Inductive selector :=
| SClass (c : string)              (** [.c] *)
| STag (t : string)                (** [a] *)
| SAttr (a : string)               (** [[data-x]] *)
| SChild (p : selector) (s : selector).  (** [p > s] *)

Fixpoint matches (d : Dom) (s : selector) (n : nat) : bool :=
  match s with
  | SClass c => classList_contains c n d
  | STag t => match d !! n with Some e => el_tag e === t | None => false end
  | SAttr a => match d !! n with Some e => bool_decide (is_Some (el_attrs e !! a)) | None => false end
  | SChild p s' =>
      matches d s' n &&
      match parentElement d n with Some q => matches d p q | None => false end
  end.

(** [document.querySelectorAll(s)], in document order. *)
Definition querySelectorAll (d : Dom) (s : selector) : list nat :=
  filter (λ n, matches d s n = true) (seq 0 (length d)).

(** [el.getAttribute(a)] and [el.dataset.x] ([undefined] is [None]). *)
Definition getAttribute (d : Dom) (n : nat) (a : string) : option string :=
  d !! n ≫= λ e, el_attrs e !! a.

(** ** Well-formedness: a parent precedes its child in document order *)

Definition dom_wf (d : Dom) : Prop :=
  ∀ i e p, d !! i = Some e → el_parent e = Some p → p < i.

(** ** Shape: the document up to class lists

    Class-list updates change nothing but classes; [shape_eq] is the
    equivalence that forgets classes, and every query other than class
    membership respects it. *)

Definition shape_of (e : Elem) : option string * string * option nat * gmap string string :=
  (el_id e, el_tag e, el_parent e, el_attrs e).

Definition shape_eq (d1 d2 : Dom) : Prop := shape_of <$> d1 = shape_of <$> d2.

#[export] Instance shape_eq_equiv : Equivalence shape_eq.
Proof. unfold shape_eq. split; repeat intro; congruence. Qed.

Lemma shape_eq_lookup d1 d2 n :
  shape_eq d1 d2 → shape_of <$> d1 !! n = shape_of <$> d2 !! n.
Proof. unfold shape_eq. intros H. by rewrite <-!list_lookup_fmap, H. Qed.

Lemma shape_eq_length d1 d2 : shape_eq d1 d2 → length d1 = length d2.
Proof. unfold shape_eq. intros H. by rewrite <-(length_fmap shape_of d1), H, length_fmap. Qed.

Lemma shape_eq_lookup_Some d1 d2 n e1 :
  shape_eq d1 d2 → d1 !! n = Some e1 →
  ∃ e2, d2 !! n = Some e2 ∧ shape_of e1 = shape_of e2.
Proof.
  intros H E. pose proof (shape_eq_lookup _ _ n H) as L. rewrite E in L.
  destruct (d2 !! n) as [e2|]; simpl in L; [|done].
  injection L; intros. exists e2. unfold shape_of. split; [done|congruence].
Qed.

Lemma shape_eq_lookup_None d1 d2 n :
  shape_eq d1 d2 → d1 !! n = None → d2 !! n = None.
Proof.
  intros H E. pose proof (shape_eq_lookup _ _ n H) as L. rewrite E in L.
  by destruct (d2 !! n).
Qed.

(** Every tree query reads the shape only. *)

#[export] Instance parentElement_proper : Proper (shape_eq ==> eq ==> eq) parentElement.
Proof.
  intros d1 d2 H n ? <-. unfold parentElement.
  destruct (d1 !! n) as [e1|] eqn:E.
  - destruct (shape_eq_lookup_Some _ _ _ _ H E) as (e2&->&He).
    injection He; intros; simpl; congruence.
  - by rewrite (shape_eq_lookup_None _ _ _ H E).
Qed.

#[export] Instance ancestors_proper : Proper (eq ==> shape_eq ==> eq ==> eq) ancestors.
Proof.
  intros f ? <- d1 d2 H n ? <-. revert n.
  induction f as [|f IH]; intros n; [done|]. simpl.
  rewrite (parentElement_proper d1 d2 H n n eq_refl).
  destruct (parentElement d2 n); [by rewrite IH|done].
Qed.

#[export] Instance contains_proper : Proper (shape_eq ==> eq ==> eq ==> eq) contains.
Proof.
  intros d1 d2 H a ? <- b ? <-. destruct b as [b|]; [|done]. simpl.
  by rewrite (shape_eq_length _ _ H), (ancestors_proper _ _ eq_refl _ _ H b b eq_refl).
Qed.

#[export] Instance getElementById_proper : Proper (shape_eq ==> eq ==> eq) getElementById.
Proof.
  intros d1 d2 H s ? <-. unfold getElementById.
  (* the search only reads [el_id], the first component of the shape *)
  assert (∀ d, fst <$> list_find (λ e, el_id e = Some s) d =
               fst <$> list_find (λ sh : option string * string * option nat * gmap string string,
                                   sh.1.1.1 = Some s) (shape_of <$> d)) as Hf.
  { intros d. rewrite list_find_fmap. destruct (list_find _ d) as [[]|]; done. }
  rewrite !Hf. unfold shape_eq in H. by rewrite H.
Qed.

#[export] Instance getAttribute_proper : Proper (shape_eq ==> eq ==> eq ==> eq) getAttribute.
Proof.
  intros d1 d2 H n ? <- a ? <-. unfold getAttribute.
  destruct (d1 !! n) as [e1|] eqn:E.
  - destruct (shape_eq_lookup_Some _ _ _ _ H E) as (e2&->&He).
    injection He; intros; simpl; congruence.
  - by rewrite (shape_eq_lookup_None _ _ _ H E).
Qed.

(** ** Class-list updates *)

Section classList_update.
Context (f : gset string → gset string) (n : nat) (d : Dom).

Lemma classList_update_shape : shape_eq (classList_update f n d) d.
Proof.
  unfold shape_eq, classList_update. apply list_eq. intros i.
  rewrite !list_lookup_fmap, list_lookup_alter. case_decide; subst; [|done].
  by destruct (d !! i).
Qed.

Lemma classList_update_length : length (classList_update f n d) = length d.
Proof. apply length_alter. Qed.

Lemma classList_contains_update c m :
  classList_contains c m (classList_update f n d) =
    if decide (n = m) then
      match d !! m with Some e => bool_decide (c ∈ f (el_classes e)) | None => false end
    else classList_contains c m d.
Proof.
  unfold classList_contains, classList_update. rewrite list_lookup_alter.
  case_decide; subst; [|done]. by destruct (d !! m).
Qed.
End classList_update.

#[export] Hint Resolve classList_update_shape : polos.
#[export] Hint Rewrite classList_update_length : polos_rw.

Lemma classList_update_lookup f n d m :
  classList_update f n d !! m =
    if decide (n = m) then (λ e, set_classes (f (el_classes e)) e) <$> d !! m else d !! m.
Proof.
  unfold classList_update. rewrite list_lookup_alter. case_decide; subst; done.
Qed.

(** ** [forEach] over elements, updating each one's class list

    [F x d] is the class-list update applied to element [x] when the
    document is [d]; it may read the document, but only its shape. *)

Section fold_update.
Context (F : nat → Dom → gset string → gset string).
Context (F_shape : ∀ x d1 d2, shape_eq d1 d2 → F x d1 = F x d2).
Context (F_idem : ∀ x d s, F x d (F x d s) = F x d s).

Definition fold_update (l : list nat) (d : Dom) : Dom :=
  foldl (λ d' x, classList_update (F x d') x d') d l.

Lemma fold_update_shape l d : shape_eq (fold_update l d) d.
Proof.
  revert d. induction l as [|x l IH]; intros d; simpl; [done|].
  etrans; [apply IH|]. apply classList_update_shape.
Qed.

Lemma fold_update_lookup l d m :
  fold_update l d !! m =
    if decide (m ∈ l) then (λ e, set_classes (F m d (el_classes e)) e) <$> d !! m
    else d !! m.
Proof.
  revert d. induction l as [|x l IH]; intros d.
  { rewrite decide_False; [done|]. apply not_elem_of_nil. }
  unfold fold_update in *; simpl. rewrite IH, !classList_update_lookup.
  rewrite (F_shape m (classList_update _ x d) d) by apply classList_update_shape.
  repeat case_decide; subst; try done; try set_solver.
  destruct (d !! m); simpl; [|done]. by rewrite F_idem.
Qed.

Lemma fold_update_contains l d c m :
  classList_contains c m (fold_update l d) =
    if decide (m ∈ l) then
      match d !! m with Some e => bool_decide (c ∈ F m d (el_classes e)) | None => false end
    else classList_contains c m d.
Proof.
  unfold classList_contains at 1. rewrite fold_update_lookup.
  case_decide; [by destruct (d !! m)|done].
Qed.

(** An update that does not touch class [c] leaves [c] where it was. *)
Lemma fold_update_contains_other l d c m :
  (∀ x d' s, c ∈ F x d' s ↔ c ∈ s) →
  classList_contains c m (fold_update l d) = classList_contains c m d.
Proof.
  intros Hc. rewrite fold_update_contains. unfold classList_contains.
  case_decide; [|done]. destruct (d !! m); [|done]. apply bool_decide_ext, Hc.
Qed.
End fold_update.

Lemma classList_update_id n d : classList_update (λ cs, cs) n d = d.
Proof.
  apply list_eq. intros m. rewrite classList_update_lookup.
  case_decide; subst; [|done]. by destruct (d !! m) as [[]|].
Qed.

Lemma elem_of_querySelectorAll d s m :
  m ∈ querySelectorAll d s ↔ m < length d ∧ matches d s m = true.
Proof.
  unfold querySelectorAll. rewrite list_elem_of_filter, elem_of_seq.
  split; intros; split_and!; try lia; naive_solver.
Qed.

Lemma matches_out_of_range d s m : length d ≤ m → matches d s m = false.
Proof.
  intros Hm. assert (d !! m = None) as E by (by apply lookup_ge_None_2).
  destruct s; simpl; unfold classList_contains, parentElement; rewrite ?E; simpl;
    rewrite ?andb_false_r; done.
Qed.

(** Membership of [m] in a query, as a boolean. *)
Lemma decide_querySelectorAll d s m :
  bool_decide (m ∈ querySelectorAll d s) = matches d s m.
Proof.
  destruct (decide (m < length d)).
  - destruct (matches d s m) eqn:E.
    + apply bool_decide_eq_true. by apply elem_of_querySelectorAll.
    + apply bool_decide_eq_false. rewrite elem_of_querySelectorAll. intros [_ ?]; congruence.
  - rewrite matches_out_of_range by lia.
    apply bool_decide_eq_false. rewrite elem_of_querySelectorAll. lia.
Qed.

Lemma classList_contains_add c c' n m d :
  classList_contains c m (classList_add c' n d) =
    classList_contains c m d || bool_decide (c = c' ∧ n = m ∧ m < length d).
Proof.
  unfold classList_add. rewrite classList_contains_update. unfold classList_contains.
  case_decide; subst.
  - destruct (d !! m) eqn:E.
    + pose proof (lookup_lt_Some _ _ _ E). repeat case_bool_decide; simpl; set_solver.
    + apply lookup_ge_None in E. repeat case_bool_decide; simpl; naive_solver lia.
  - destruct (d !! m); repeat case_bool_decide; simpl; naive_solver.
Qed.

Lemma classList_contains_remove c l n m d :
  classList_contains c m (classList_remove l n d) =
    classList_contains c m d && negb (bool_decide (c ∈ l ∧ n = m)).
Proof.
  unfold classList_remove. rewrite classList_contains_update. unfold classList_contains.
  case_decide; subst; destruct (d !! _); repeat case_bool_decide; simpl;
    rewrite ?elem_of_remove_list in *; set_solver.
Qed.

#[export] Hint Rewrite classList_contains_add classList_contains_remove : polos_rw.

Lemma classList_add_length c n d : length (classList_add c n d) = length d.
Proof. apply length_alter. Qed.
Lemma classList_remove_length l n d : length (classList_remove l n d) = length d.
Proof. apply length_alter. Qed.
Lemma classList_toggle_length c n d : length (classList_toggle c n d) = length d.
Proof. apply length_alter. Qed.

#[export] Hint Rewrite classList_add_length classList_remove_length classList_toggle_length : polos_rw.

Lemma classList_contains_toggle c c' n m d :
  classList_contains c m (classList_toggle c' n d) =
    xorb (classList_contains c m d) (bool_decide (c = c' ∧ n = m ∧ m < length d)).
Proof.
  unfold classList_toggle. rewrite classList_contains_update. unfold classList_contains.
  case_decide; subst.
  - destruct (d !! m) eqn:E.
    + pose proof (lookup_lt_Some _ _ _ E).
      case_decide; repeat case_bool_decide; simpl; set_solver.
    + apply lookup_ge_None in E. repeat case_bool_decide; simpl; naive_solver lia.
  - destruct (d !! m); repeat case_bool_decide; simpl; naive_solver.
Qed.

#[export] Hint Rewrite classList_contains_toggle : polos_rw.

(** ** Fuel of [ancestors]

    In a well-formed document a parent precedes its child, so the chain
    from [n] has at most [S n] elements: any fuel of at least [S n] gives
    the same chain, and [length d] is such a fuel for every element. *)

Lemma dom_wf_parent d n p : dom_wf d → parentElement d n = Some p → p < n.
Proof.
  intros Hwf. unfold parentElement. destruct (d !! n) as [e|] eqn:E; [|done].
  simpl. intros Hp. by apply (Hwf n e p).
Qed.

(** Enough fuel: in a well-formed document the ancestor chain of
    element [n] does not depend on the fuel once the fuel exceeds [n]; in
    particular [contains], which uses [length d], sees the whole chain. *)
Theorem ancestors_fuel_enough (d : Dom) (n f1 f2 : nat) :
  dom_wf d → n < f1 → n < f2 → ancestors f1 d n = ancestors f2 d n.
Proof.
  intros Hwf. revert f1 f2. induction n as [n IH] using lt_wf_ind.
  intros [|f1] [|f2] H1 H2; try lia. simpl. f_equal.
  destruct (parentElement d n) as [p|] eqn:Hp; [|done].
  pose proof (dom_wf_parent d n p Hwf Hp). apply IH; lia.
Qed.

(** ** [contains] against the tree

    [parent_step d b p]: [p] is the parent of [b].  An element [a]
    contains [b] (inclusively) when [a] is reached from [b] by parent
    steps. *)
Definition parent_step (d : Dom) (b p : nat) : Prop := parentElement d b = Some p.

Lemma elem_of_ancestors f d a b :
  dom_wf d → b < f → a ∈ ancestors f d b ↔ rtc (parent_step d) b a.
Proof.
  intros Hwf. revert f. induction b as [b IH] using lt_wf_ind. intros [|f] Hf; [lia|].
  simpl. rewrite elem_of_cons. split.
  - intros [->|Hin]; [constructor|].
    destruct (parentElement d b) as [p|] eqn:Hp; [|by apply not_elem_of_nil in Hin].
    pose proof (dom_wf_parent d b p Hwf Hp).
    eapply rtc_l; [exact Hp|]. apply (IH p H f); [lia|done].
  - intros Hr. inversion Hr as [|? p ? Hp Hr']; subst; [by left|]. right.
    unfold parent_step in Hp. rewrite Hp. pose proof (dom_wf_parent d b p Hwf Hp).
    apply (IH p H f); [lia|done].
Qed.

(** [node.contains(other)] as the code's model computes it, by the
    parent chain with fuel [length d], is the inclusive-descendant
    relation of the tree: on a well-formed document, [a] contains an
    element [b] exactly when [a] is [b] or one of its ancestors. *)
Theorem contains_spec (d : Dom) (a b : nat) :
  dom_wf d → b < length d →
  contains d a (Some b) = true ↔ rtc (parent_step d) b a.
Proof. intros Hwf Hb. unfold contains. rewrite bool_decide_eq_true. by apply elem_of_ancestors. Qed.

(** A boolean check of [dom_wf] for concrete documents. *)
Fixpoint parents_before (i : nat) (d : Dom) : bool :=
  match d with
  | [] => true
  | e :: d' =>
      match el_parent e with Some p => Nat.ltb p i | None => true end && parents_before (S i) d'
  end.

Lemma parents_before_wf d : parents_before 0 d = true → dom_wf d.
Proof.
  assert (∀ k, parents_before k d = true →
            ∀ i e p, d !! i = Some e → el_parent e = Some p → p < k + i) as Hk.
  { induction d as [|e0 d IH]; intros k Hk i e p Hi Hp; [done|].
    simpl in Hk. apply andb_prop in Hk as [H0 Hk]. destruct i as [|i]; simpl in Hi.
    - simplify_eq. rewrite Hp in H0. apply Nat.ltb_lt in H0. lia.
    - specialize (IH (S k) Hk i e p Hi Hp). lia. }
  intros H i e p Hi Hp. apply (Hk 0 H i e p Hi Hp).
Qed.

Lemma classList_contains_toggle_other c c' n m d :
  c ≠ c' → classList_contains c m (classList_toggle c' n d) = classList_contains c m d.
Proof.
  intros Hc. rewrite classList_contains_toggle, bool_decide_eq_false_2 by naive_solver.
  apply xorb_false_r.
Qed.

Lemma classList_contains_remove_other c l n m d :
  c ∉ l → classList_contains c m (classList_remove l n d) = classList_contains c m d.
Proof.
  intros Hc. rewrite classList_contains_remove, bool_decide_eq_false_2 by naive_solver.
  apply andb_true_r.
Qed.
