(* ===== verification/Runtime.v ===== *)
(** * The browser runtime the controller runs in

    The state of one page ([World]): the document, [localStorage],
    [window.innerWidth], the clock and the pending [setTimeout] timers, the
    registered event listeners, the optional [Polos] framework object, the
    observable output (console, alerts, loading indicators) and the fields
    of the [AdminPolos] instance.  The closures the program creates are
    named by the inductive types [Handler] and [Callback]; each anonymous
    function value also gets a fresh identity, because
    [addEventListener] deduplicates listeners by function identity.

    Code runs in [M], a state monad over [World] whose result is either a
    value or a thrown exception together with the world as it was when the
    exception was thrown (JavaScript does not roll back side effects). *)

From S2P Require Import Prelude Dom.
From Stdlib Require Import Ascii.

Inductive EvTarget := TDocument | TWindow | TNode (n : nat).

#[export] Instance EvTarget_eq_dec : EqDecision EvTarget.
Proof. solve_decision. Defined.

(** The closures registered as event listeners or [Polos.on] callbacks,
    by the source line that creates them. *)
Inductive Handler :=
| HSidebarToggle      (** line 35 *)
| HOverlayClick       (** line 38 *)
| HUserMenuClick      (** line 41 *)
| HDocumentClick      (** line 44 *)
| HWindowResize       (** line 47 *)
| HLayoutButton       (** line 51 *)
| HMouseEnter         (** line 119 *)
| HMouseLeave         (** line 132 *)
| HSubmenuClick       (** line 156, the arrow-function class field *)
| HInteractiveClick   (** line 223 *)
| HStatsClick         (** line 233 *)
| HExportClick        (** line 242 *)
| HPeriodClick.       (** line 255 *)

#[export] Instance Handler_eq_dec : EqDecision Handler.
Proof. solve_decision. Defined.

Record Listener := mkListener {
  l_target : EvTarget;
  l_type : string;
  l_fn : nat;          (** identity of the function object *)
  l_handler : Handler
}.

(** The callbacks passed to [Polos.on]; the framework calls them with
    its event's payload. *)
Inductive PolosCb :=
| PInitialized        (** line 208 *)
| PScreenChange.      (** line 270, called with [data.from] and [data.to] *)

#[export] Instance PolosCb_eq_dec : EqDecision PolosCb.
Proof. solve_decision. Defined.

(** Targets of [Polos.setLoading]: an element ([None] is [null]) or a
    selector string. *)
Inductive LoadingTarget := LNode (n : option nat) | LSelector (s : string).

(** The closures passed to [setTimeout]. *)
Inductive Callback :=
| CbHoverExpand                 (** line 125 *)
| CbHoverCollapse               (** line 138 *)
| CbFallbackEnhance             (** line 214 *)
| CbInteractiveDone             (** line 226 *)
| CbExportDone                  (** line 245 *)
| CbPeriodDone (period : string). (** line 259 *)

(** A [TypeError] is what the engine throws on a property access through
    [null]: here, a class-list or tree operation on an element reference
    that [getElementById] returned as [null]. *)
Inductive exn :=
| TypeError (what : string)
(** what [DOMTokenList] methods throw for an empty token ([SyntaxError])
    or a token containing ASCII whitespace ([InvalidCharacterError]) *)
| DOMException (name : string).

Record Timer := mkTimer { tm_id : nat; tm_due : Z; tm_cb : Callback }.

Inductive Output :=
| OError (e : exn)          (** an exception a listener or callback did not catch *)
| OConsole (msg : string)
| OAlert (msg : string)
| OSetLoading (t : LoadingTarget) (on : bool) (text : option string).

#[export] Instance exn_eq_dec : EqDecision exn.
Proof. solve_decision. Defined.
#[export] Instance LoadingTarget_eq_dec : EqDecision LoadingTarget.
Proof. solve_decision. Defined.
#[export] Instance Output_eq_dec : EqDecision Output.
Proof. solve_decision. Defined.
#[export] Instance Callback_eq_dec : EqDecision Callback.
Proof. solve_decision. Defined.

(** The fields of the [AdminPolos] instance: those the constructor sets
    (lines 10-19) and the function object of the class field
    [handleSubmenuClick] (line 156). *)
Record Ctl := mkCtl {
  c_sidebar : option nat;
  c_sidebarToggle : option nat;
  c_overlay : option nat;
  c_userMenu : option nat;
  c_userDropdown : option nat;
  c_layoutButtons : list nat;
  c_hoverTimeout : option nat;
  c_isHoveringSidebar : bool;
  c_currentLayout : option string;  (** a string, or [undefined] *)
  c_submenuFn : nat     (** identity of [this.handleSubmenuClick] *)
}.

Record World := mkWorld {
  w_dom : Dom;
  w_storage : gmap string string;
  w_innerWidth : Z;
  w_now : Z;
  w_timers : list Timer;
  w_nextTimer : nat;
  w_listeners : list Listener;
  w_nextFn : nat;
  w_polos : option (list (string * PolosCb));  (** [Polos], with its [on] subscriptions *)
  w_out : list Output;
  w_ctl : Ctl;
  w_stopped : bool;     (** the event being dispatched had [stopPropagation()] called *)
  w_prevented : bool;   (** ... and [preventDefault()] *)
  w_globals : gset string  (** the properties the script sets on [window] *)
}.

(** Field updates. *)
Definition set_dom d w :=
  mkWorld d (w_storage w) (w_innerWidth w) (w_now w) (w_timers w) (w_nextTimer w) (w_listeners w) (w_nextFn w) (w_polos w) (w_out w) (w_ctl w) (w_stopped w) (w_prevented w) (w_globals w).
Definition set_storage s w :=
  mkWorld (w_dom w) s (w_innerWidth w) (w_now w) (w_timers w) (w_nextTimer w) (w_listeners w) (w_nextFn w) (w_polos w) (w_out w) (w_ctl w) (w_stopped w) (w_prevented w) (w_globals w).
Definition set_timers ts nt w :=
  mkWorld (w_dom w) (w_storage w) (w_innerWidth w) (w_now w) ts nt (w_listeners w) (w_nextFn w) (w_polos w) (w_out w) (w_ctl w) (w_stopped w) (w_prevented w) (w_globals w).
Definition set_listeners ls nf w :=
  mkWorld (w_dom w) (w_storage w) (w_innerWidth w) (w_now w) (w_timers w) (w_nextTimer w) ls nf (w_polos w) (w_out w) (w_ctl w) (w_stopped w) (w_prevented w) (w_globals w).
Definition set_polos p w :=
  mkWorld (w_dom w) (w_storage w) (w_innerWidth w) (w_now w) (w_timers w) (w_nextTimer w) (w_listeners w) (w_nextFn w) p (w_out w) (w_ctl w) (w_stopped w) (w_prevented w) (w_globals w).
Definition set_out o w :=
  mkWorld (w_dom w) (w_storage w) (w_innerWidth w) (w_now w) (w_timers w) (w_nextTimer w) (w_listeners w) (w_nextFn w) (w_polos w) o (w_ctl w) (w_stopped w) (w_prevented w) (w_globals w).
Definition set_ctl c w :=
  mkWorld (w_dom w) (w_storage w) (w_innerWidth w) (w_now w) (w_timers w) (w_nextTimer w) (w_listeners w) (w_nextFn w) (w_polos w) (w_out w) c (w_stopped w) (w_prevented w) (w_globals w).
Definition set_now t w :=
  mkWorld (w_dom w) (w_storage w) (w_innerWidth w) t (w_timers w) (w_nextTimer w) (w_listeners w) (w_nextFn w) (w_polos w) (w_out w) (w_ctl w) (w_stopped w) (w_prevented w) (w_globals w).
Definition set_innerWidth x w :=
  mkWorld (w_dom w) (w_storage w) x (w_now w) (w_timers w) (w_nextTimer w) (w_listeners w) (w_nextFn w) (w_polos w) (w_out w) (w_ctl w) (w_stopped w) (w_prevented w) (w_globals w).
Definition set_evflags st pr w :=
  mkWorld (w_dom w) (w_storage w) (w_innerWidth w) (w_now w) (w_timers w) (w_nextTimer w) (w_listeners w) (w_nextFn w) (w_polos w) (w_out w) (w_ctl w) st pr (w_globals w).
Definition set_globals g w :=
  mkWorld (w_dom w) (w_storage w) (w_innerWidth w) (w_now w) (w_timers w) (w_nextTimer w) (w_listeners w) (w_nextFn w) (w_polos w) (w_out w) (w_ctl w) (w_stopped w) (w_prevented w) g.

Definition set_currentLayout l c := mkCtl (c_sidebar c) (c_sidebarToggle c) (c_overlay c)
  (c_userMenu c) (c_userDropdown c) (c_layoutButtons c) (c_hoverTimeout c)
  (c_isHoveringSidebar c) l (c_submenuFn c).
Definition set_hoverTimeout t c := mkCtl (c_sidebar c) (c_sidebarToggle c) (c_overlay c)
  (c_userMenu c) (c_userDropdown c) (c_layoutButtons c) t
  (c_isHoveringSidebar c) (c_currentLayout c) (c_submenuFn c).
Definition set_isHoveringSidebar b c := mkCtl (c_sidebar c) (c_sidebarToggle c) (c_overlay c)
  (c_userMenu c) (c_userDropdown c) (c_layoutButtons c) (c_hoverTimeout c)
  b (c_currentLayout c) (c_submenuFn c).

(** ** The monad: state over [World], with exceptions *)


Inductive res (A : Type) :=
| Ok (a : A) (w : World)
| Throw (e : exn) (w : World).
Arguments Ok {A}. Arguments Throw {A}.

Definition M (A : Type) : Type := World → res A.

Definition ret {A} (a : A) : M A := λ w, Ok a w.
Definition bind {A B} (m : M A) (k : A → M B) : M B :=
  λ w, match m w with Ok a w' => k a w' | Throw e w' => Throw e w' end.
Definition throw {A} (e : exn) : M A := λ w, Throw e w.

Notation "x <- m ;; k" := (bind m (λ x, k))
  (at level 100, m at next level, k at level 200) : polos_scope.
Notation "m ;; k" := (bind m (λ _ : unit, k))
  (at level 100, k at level 200) : polos_scope.

Definition gets {A} (f : World → A) : M A := λ w, Ok (f w) w.
Definition modify (f : World → World) : M unit := λ w, Ok tt (f w).

(** Final world of a run, whether it returned or threw. *)
Definition final {A} (r : res A) : World :=
  match r with Ok _ w => w | Throw _ w => w end.

(** [list.forEach(f)] *)
Fixpoint forEach {A} (l : list A) (f : A → M unit) : M unit :=
  match l with
  | [] => ret tt
  | x :: l' => f x ;; forEach l' f
  end.

(** ** Primitives *)

(** Dereference an element reference held in a field: [null] throws. *)
Definition deref (r : option nat) (what : string) : M nat :=
  match r with Some n => ret n | None => throw (TypeError what) end.

Definition modify_dom (f : Dom → Dom) : M unit := modify (λ w, set_dom (f (w_dom w)) w).
Definition modify_ctl (f : Ctl → Ctl) : M unit := modify (λ w, set_ctl (f (w_ctl w)) w).

(** The ASCII whitespace of the DOM standard: tab, line feed, form feed,
    carriage return and space. *)
Definition is_ascii_ws (a : Ascii.ascii) : bool :=
  existsb (Ascii.eqb a) ["009"; "010"; "012"; "013"; " "]%char.

Fixpoint has_ws (s : string) : bool :=
  match s with
  | EmptyString => false
  | String a s' => is_ascii_ws a || has_ws s'
  end.

(** The validation step of [DOMTokenList.add/remove/toggle]: every token
    is checked, in order, before the class list changes. *)
Definition validate_token (c : string) : M unit :=
  if c === "" then throw (DOMException "SyntaxError")
  else if has_ws c then throw (DOMException "InvalidCharacterError")
  else ret tt.

Definition token_ok (c : string) : bool := (c !== "") && negb (has_ws c).

Lemma has_ws_app s1 s2 : has_ws (s1 +:+ s2) = has_ws s1 || has_ws s2.
Proof. induction s1 as [|a s1 IH]; [done|]. simpl. by rewrite IH, orb_assoc. Qed.

Definition cl_add (r : option nat) (c : string) : M unit :=
  n <- deref r "classList";; validate_token c;; modify_dom (classList_add c n).
Definition cl_remove (r : option nat) (cs : list string) : M unit :=
  n <- deref r "classList";; forEach cs validate_token;; modify_dom (classList_remove cs n).
Definition cl_toggle (r : option nat) (c : string) : M unit :=
  n <- deref r "classList";; validate_token c;; modify_dom (classList_toggle c n).
Definition cl_contains (r : option nat) (c : string) : M bool :=
  n <- deref r "classList";; gets (λ w, classList_contains c n (w_dom w)).

(** [localStorage.getItem] / [setItem] *)
Definition getItem (k : string) : M (option string) := gets (λ w, w_storage w !! k).
Definition setItem (k v : string) : M unit :=
  modify (λ w, set_storage (<[k := v]> (w_storage w)) w).

Definition emit (o : Output) : M unit := modify (λ w, set_out (w_out w ++ [o]) w).
Definition console_log (s : string) : M unit := emit (OConsole s).

(** [setTimeout(cb, delay)]: the id is fresh; the callback is due at
    [now + delay]. *)
Definition setTimeout (cb : Callback) (delay : Z) : M nat :=
  λ w, let id := w_nextTimer w in
       Ok id (set_timers (w_timers w ++ [mkTimer id (w_now w + delay) cb]) (S id) w).

(** [clearTimeout(id)]; [clearTimeout(null)] does nothing. *)
Definition clearTimeout (id : option nat) : M unit :=
  match id with
  | Some i => modify (λ w, set_timers (filter (λ t, tm_id t ≠ i) (w_timers w)) (w_nextTimer w) w)
  | None => ret tt
  end.

(** A fresh function object (evaluating an arrow-function expression). *)
Definition new_closure : M nat :=
  λ w, Ok (w_nextFn w) (set_listeners (w_listeners w) (S (w_nextFn w)) w).

Definition same_listener (t : EvTarget) (ty : string) (fn : nat) (l : Listener) : Prop :=
  l_target l = t ∧ l_type l = ty ∧ l_fn l = fn.

(** [target.addEventListener(type, fn)]: a listener already registered
    with the same target, type and function object is not added again. *)
Definition addEventListener (t : EvTarget) (ty : string) (fn : nat) (h : Handler) : M unit :=
  modify (λ w,
    if decide (Exists (same_listener t ty fn) (w_listeners w)) then w
    else set_listeners (w_listeners w ++ [mkListener t ty fn h]) (w_nextFn w) w).

(** [target.removeEventListener(type, fn)] *)
Definition removeEventListener (t : EvTarget) (ty : string) (fn : nat) : M unit :=
  modify (λ w, set_listeners (filter (λ l, ¬ same_listener t ty fn l) (w_listeners w))
                             (w_nextFn w) w).

(** Register a fresh anonymous closure as a listener. *)
Definition listen (t : EvTarget) (ty : string) (h : Handler) : M unit :=
  fn <- new_closure;; addEventListener t ty fn h.

(** [Polos.on(name, cb)] *)
Definition polos_on (name : string) (cb : PolosCb) : M unit :=
  modify (λ w, match w_polos w with
               | Some subs => set_polos (Some (subs ++ [(name, cb)])) w
               | None => w
               end).

(** [Polos.setLoading(target, on, options)] as seen from outside. *)
Definition setLoading (t : LoadingTarget) (on : bool) (text : option string) : M unit :=
  emit (OSetLoading t on text).

(** An exception escaping a listener or a timer callback is reported and
    does not stop the event loop. *)
Definition catch_report (m : M unit) : M unit :=
  λ w, match m w with
       | Ok _ w' => Ok tt w'
       | Throw ex w' => Ok tt (set_out (w_out w' ++ [OError ex]) w')
       end.

Definition polos_present : M bool := gets (λ w, bool_decide (is_Some (w_polos w))).

(** ** Events *)

(** The fields of a DOM event the handlers read.  The two flags the
    handlers set live in the world ([w_stopped], [w_prevented]): the event
    object is shared by all listeners of one dispatch, and a flag set
    before a handler throws stays set. *)
Record Event := mkEvent {
  ev_type : string;
  ev_target : EvTarget;
  ev_currentTarget : EvTarget;
  ev_relatedTarget : option nat
}.

Definition stopPropagation : M unit := modify (λ w, set_evflags true (w_prevented w) w).
Definition preventDefault : M unit := modify (λ w, set_evflags (w_stopped w) true w).

Definition node_of (t : EvTarget) : option nat :=
  match t with TNode n => Some n | _ => None end.

(** JavaScript strings that may be [undefined] ([None]), as the layout
    values read from [dataset] or passed by callers are. *)
Abbreviation jsstring := (option string).
Definition js_to_string (v : jsstring) : string :=
  match v with Some s => s | None => "undefined" end.

Definition getCtl {A} (f : Ctl → A) : M A := gets (λ w, f (w_ctl w)).

(** ** Running the monad *)

Lemma set_dom_set_dom d1 d2 w : set_dom d1 (set_dom d2 w) = set_dom d1 w.
Proof. done. Qed.

Lemma set_dom_id w : set_dom (w_dom w) w = w.
Proof. by destruct w. Qed.

(** A [forEach] whose body only updates the document runs to the fold of
    the updates. *)
Lemma forEach_dom {A} (l : list A) (f : A → M unit) (g : A → Dom → Dom) w :
  (∀ x w', f x w' = Ok tt (set_dom (g x (w_dom w')) w')) →
  forEach l f w = Ok tt (set_dom (foldl (λ d x, g x d) (w_dom w) l) w).
Proof.
  intros Hf. revert w. induction l as [|x l IH]; intros w; simpl.
  - by rewrite set_dom_id.
  - unfold bind. rewrite Hf, IH. done.
Qed.

Lemma bind_Ok {A B} (m : M A) (k : A → M B) w a w' :
  m w = Ok a w' → bind m k w = k a w'.
Proof. unfold bind. by intros ->. Qed.

Lemma bind_Throw {A B} (m : M A) (k : A → M B) w e w' :
  m w = Throw e w' → bind m k w = Throw e w'.
Proof. unfold bind. by intros ->. Qed.

Lemma bind_assoc {A B C} (m : M A) (k1 : A → M B) (k2 : B → M C) w :
  bind (bind m k1) k2 w = bind m (λ a, bind (k1 a) k2) w.
Proof. unfold bind. by destruct (m w). Qed.



(** ** Timers *)

Lemma setTimeout_run cb delay w :
  setTimeout cb delay w =
    Ok (w_nextTimer w)
       (set_timers (w_timers w ++ [mkTimer (w_nextTimer w) (w_now w + delay) cb])
                   (S (w_nextTimer w)) w).
Proof. done. Qed.

Lemma clearTimeout_run i w :
  clearTimeout (Some i) w =
    Ok tt (set_timers (filter (λ t, tm_id t ≠ i) (w_timers w)) (w_nextTimer w) w).
Proof. done. Qed.

(** Timer ids are distinct and below the next id to hand out. *)
Definition timers_wf (w : World) : Prop :=
  NoDup (tm_id <$> w_timers w) ∧ ∀ t, t ∈ w_timers w → tm_id t < w_nextTimer w.

(** Reduce the monadic glue of a definition applied to a world. *)
Ltac run :=
  repeat (unfold bind, ret, gets, modify, modify_dom, modify_ctl, getCtl, throw,
          deref, cl_add, cl_remove, cl_toggle, cl_contains, validate_token, getItem, setItem,
          emit, console_log, stopPropagation, preventDefault, setTimeout, clearTimeout, new_closure, listen,
          addEventListener, removeEventListener, final in *; simpl in *).

(** ** Frame reasoning: properties of the world a computation keeps *)

(** [m] keeps [P]: from a world satisfying [P], it ends (returning or
    throwing) in a world satisfying [P]. *)
Definition preserves (P : World → Prop) {A} (m : M A) : Prop :=
  ∀ w, P w → P (final (m w)).

Section preserves.
Context (P : World → Prop).

Lemma preserves_ret {A} (a : A) : preserves P (ret a).
Proof. by intros w. Qed.

Lemma preserves_throw {A} ex : preserves P (@throw A ex).
Proof. by intros w. Qed.

Lemma preserves_gets {A} (f : World → A) : preserves P (gets f).
Proof. by intros w. Qed.

Lemma preserves_modify f : (∀ w, P w → P (f w)) → preserves P (modify f).
Proof. intros Hf w. apply Hf. Qed.

Lemma preserves_bind {A B} (m : M A) (k : A → M B) :
  preserves P m → (∀ a, preserves P (k a)) → preserves P (bind m k).
Proof.
  intros Hm Hk w Hw. unfold bind. specialize (Hm w Hw).
  destruct (m w) as [a w'|ex w']; simpl in *; [by apply Hk|done].
Qed.

Lemma preserves_forEach {A} (l : list A) (f : A → M unit) :
  (∀ x, preserves P (f x)) → preserves P (forEach l f).
Proof.
  intros Hf. induction l as [|x l IH]; simpl; [apply preserves_ret|].
  apply preserves_bind; [apply Hf|intros; apply IH].
Qed.

Lemma preserves_deref r what : preserves P (deref r what).
Proof. destruct r; [apply preserves_ret|apply preserves_throw]. Qed.

Lemma preserves_validate_token c : preserves P (validate_token c).
Proof.
  unfold validate_token. destruct (c === ""); [apply preserves_throw|].
  destruct (has_ws c); [apply preserves_throw|apply preserves_ret].
Qed.

Lemma preserves_catch_report m :
  preserves P m → (∀ w ex, P w → P (set_out (w_out w ++ [OError ex]) w)) →
  preserves P (catch_report m).
Proof.
  intros Hm Ho w Hw. unfold catch_report. specialize (Hm w Hw).
  destruct (m w); simpl in *; [done|by apply Ho].
Qed.
End preserves.

#[export] Hint Resolve preserves_ret preserves_throw preserves_gets preserves_deref
  preserves_validate_token : polos.

(** Split a [preserves] goal along the structure of the computation;
    what is left are the primitive updates. *)
Ltac preserves_split :=
  repeat match goal with
  | |- preserves _ (bind _ _) => apply preserves_bind; [|intros ?]
  | |- preserves _ (forEach _ _) => apply preserves_forEach; intros ?
  | |- preserves _ (ret _) => apply preserves_ret
  | |- preserves _ (gets _) => apply preserves_gets
  | |- preserves _ (deref _ _) => apply preserves_deref
  | |- preserves _ (validate_token _) => apply preserves_validate_token
  | |- preserves _ (throw _) => apply preserves_throw
  | |- preserves _ (if ?b then _ else _) => destruct b
  | |- preserves _ (match ?o with _ => _ end) => destruct o
  end.
