(* ===== verification/Page.v ===== *)
(** * A concrete dashboard page

    The page layout the stylesheet and the controller expect (spec §6):
    the sidebar with a [.menu] list of submenus (one of them with a nested
    submenu), the toggle button, the overlay, the user menu with its
    dropdown, the four layout buttons and a content element outside all of
    them.  The theorems' witnesses evaluate the model on this page. *)

From S2P Require Import Prelude Dom Runtime.

Definition el (id : option string) (tag : string) (parent : option nat)
    (cls : list string) (attrs : list (string * string)) : Elem :=
  mkElem id tag parent (list_to_set cls) (list_to_map attrs).

(** Element indices, in document order. *)
Definition sample_dom : Dom := [
  (* 0 *) el None "body" None [] [];
  (* 1 *) el (Some "sidebar") "aside" (Some 0) ["sidebar"] [];
  (* 2 *) el None "ul" (Some 1) ["menu"] [];
  (* 3 *) el None "li" (Some 2) ["has-sub"] [];
  (* 4 *) el None "a" (Some 3) [] [];
  (* 5 *) el None "ul" (Some 3) ["submenu"] [];
  (* 6 *) el None "li" (Some 5) ["has-sub"] [];
  (* 7 *) el None "a" (Some 6) [] [];
  (* 8 *) el None "li" (Some 2) ["has-sub"; "open"] [];
  (* 9 *) el None "a" (Some 8) [] [];
  (* 10 *) el (Some "sidebarToggle") "button" (Some 0) [] [];
  (* 11 *) el (Some "overlay") "div" (Some 0) ["overlay"] [];
  (* 12 *) el (Some "userMenu") "div" (Some 0) ["user-menu"] [];
  (* 13 *) el (Some "userDropdown") "div" (Some 12) ["dropdown"] [];
  (* 14 *) el None "button" (Some 0) ["layout-btn"] [("data-layout", "full")];
  (* 15 *) el None "button" (Some 0) ["layout-btn"] [("data-layout", "compact")];
  (* 16 *) el None "button" (Some 0) ["layout-btn"] [("data-layout", "icons")];
  (* 17 *) el None "button" (Some 0) ["layout-btn"] [("data-layout", "hidden")];
  (* 18 *) el None "div" (Some 0) ["js-interactive"] []
].

Definition sample_ctl : Ctl :=
  mkCtl (Some 1) (Some 10) (Some 11) (Some 12) (Some 13) [14; 15; 16; 17]
        None false (Some "full") 0.

(** A page of the given width whose [localStorage] holds [storage]. *)
Definition sample_world (width : Z) (storage : gmap string string) : World :=
  mkWorld sample_dom storage width 0 [] 1 [] 1 None [] sample_ctl false false ∅.

Lemma sample_dom_wf : dom_wf sample_dom.
Proof. apply parents_before_wf. reflexivity. Qed.

