(* ===== verification/Submenu.v ===== *)
(** * Submenus: [closeAllSubmenus], [closeOtherSubmenus], [handleSubmenuClick]
    and [setupSubmenuToggle] (admin-polos.js, lines 149-186)

    A submenu is an element with class [has-sub]; it is open when it also
    has class [open].  Top-level submenus are the [has-sub] children of an
    element with class [menu]. *)

From S2P Require Import Prelude Dom Runtime Page.

#[local] Set Warnings "-clear-no-such-hyp".

Definition sel_has_sub : selector := SClass "has-sub".
Definition sel_has_sub_link : selector := SChild (SClass "has-sub") (STag "a").
Definition sel_menu_has_sub : selector := SChild (SClass "menu") (SClass "has-sub").

(** Lines 173-177. *)
Definition closeAllSubmenus : M unit :=
  els <- gets (λ w, querySelectorAll (w_dom w) sel_has_sub);;
  forEach els (λ el, modify_dom (classList_remove ["open"] el)).

(** Lines 179-186. *)
Definition closeOtherSubmenus (clickedElement : nat) : M unit :=
  mainMenuItems <- gets (λ w, querySelectorAll (w_dom w) sel_menu_has_sub);;
  forEach mainMenuItems (λ el,
    d <- gets w_dom;;
    if (el !== clickedElement) && negb (contains d clickedElement (Some el))
    then modify_dom (classList_remove ["open"] el)
    else ret tt).

(** Line 157: [window.innerWidth > 768 || !this.sidebar.classList.contains('layout-icons')],
    evaluated left to right. *)
Definition submenu_guard : M bool :=
  width <- gets w_innerWidth;;
  if Z.gtb width 768 then ret true
  else sb <- getCtl c_sidebar;;
       icons <- cl_contains sb "layout-icons";;
       ret (negb icons).

(** Lines 156-171: the click handler of a submenu link. *)
Definition handleSubmenuClick (e : Event) : M unit :=
  go <- submenu_guard;;
  if go then
    preventDefault;;
    stopPropagation;;
    cur <- deref (node_of (ev_currentTarget e)) "currentTarget";;
    par <- gets (λ w, parentElement (w_dom w) cur);;
    parent <- deref par "parentElement";;
    gpar <- gets (λ w, parentElement (w_dom w) parent);;
    grand <- deref gpar "parentElement.parentElement";;
    isTop <- gets (λ w, classList_contains "menu" grand (w_dom w));;
    (if isTop then closeOtherSubmenus parent else ret tt);;
    modify_dom (classList_toggle "open" parent)
  else ret tt.

(** Lines 149-154: (re)bind the handler on every submenu link; the
    handler is one function object per instance, so rebinding does not
    duplicate it. *)
Definition setupSubmenuToggle : M unit :=
  links <- gets (λ w, querySelectorAll (w_dom w) sel_has_sub_link);;
  fn <- getCtl c_submenuFn;;
  forEach links (λ link,
    removeEventListener (TNode link) "click" fn;;
    addEventListener (TNode link) "click" fn HSubmenuClick).

(** ** Closed forms *)

Definition close_F (_ : nat) (_ : Dom) (cs : gset string) : gset string :=
  cs ∖ list_to_set ["open"].

(** The document after [closeAllSubmenus]. *)
Definition closeAll_dom (d : Dom) : Dom :=
  fold_update close_F (querySelectorAll d sel_has_sub) d.

(** The update [closeOtherSubmenus clicked] applies to a top-level item. *)
Definition closeOther_F (clicked x : nat) (d : Dom) (cs : gset string) : gset string :=
  if (x !== clicked) && negb (contains d clicked (Some x))
  then cs ∖ list_to_set ["open"] else cs.

Definition closeOther_dom (clicked : nat) (d : Dom) : Dom :=
  fold_update (closeOther_F clicked) (querySelectorAll d sel_menu_has_sub) d.

Lemma close_F_shape x d1 d2 : shape_eq d1 d2 → close_F x d1 = close_F x d2.
Proof. done. Qed.
Lemma close_F_idem x d s : close_F x d (close_F x d s) = close_F x d s.
Proof. unfold close_F. set_solver. Qed.
Lemma closeOther_F_shape c x d1 d2 : shape_eq d1 d2 → closeOther_F c x d1 = closeOther_F c x d2.
Proof. intros H. unfold closeOther_F. by rewrite (contains_proper d1 d2 H c c eq_refl (Some x) _ eq_refl). Qed.
Lemma closeOther_F_idem c x d s : closeOther_F c x d (closeOther_F c x d s) = closeOther_F c x d s.
Proof. unfold closeOther_F. destruct (_ && _); set_solver. Qed.

#[export] Hint Resolve close_F_shape close_F_idem closeOther_F_shape closeOther_F_idem : polos.

Lemma closeAllSubmenus_run w :
  closeAllSubmenus w = Ok tt (set_dom (closeAll_dom (w_dom w)) w).
Proof.
  unfold closeAllSubmenus. run.
  by apply (forEach_dom _ _ (λ x d, classList_update (close_F x d) x d)).
Qed.

Lemma closeOtherSubmenus_run c w :
  closeOtherSubmenus c w = Ok tt (set_dom (closeOther_dom c (w_dom w)) w).
Proof.
  unfold closeOtherSubmenus. run.
  apply (forEach_dom _ _ (λ x d, classList_update (closeOther_F c x d) x d)).
  intros x w'. unfold closeOther_F. destruct (_ && _); [done|].
  by rewrite classList_update_id, set_dom_id.
Qed.

Lemma closeAll_dom_shape d : shape_eq (closeAll_dom d) d.
Proof. apply fold_update_shape; auto with polos. Qed.

Lemma closeOther_dom_shape c d : shape_eq (closeOther_dom c d) d.
Proof. apply fold_update_shape; auto with polos. Qed.

#[export] Hint Resolve closeAll_dom_shape closeOther_dom_shape : polos.

(** After [closeAllSubmenus], exactly the [has-sub] elements lost [open];
    every other class of every element is unchanged. *)
Lemma closeAll_dom_contains d c m :
  classList_contains c m (closeAll_dom d) =
    classList_contains c m d && negb (bool_decide (c = "open") && matches d sel_has_sub m).
Proof.
  unfold closeAll_dom. rewrite fold_update_contains by auto with polos.
  rewrite <-decide_querySelectorAll. unfold classList_contains, close_F.
  destruct (d !! m) as [e|]; [|by case_decide].
  repeat case_decide; simpl; subst; try set_solver;
    rewrite ?andb_true_r, ?andb_false_r; try done;
    apply bool_decide_ext; set_solver.
Qed.

(** After [closeOtherSubmenus k], exactly the top-level submenus other
    than [k] and not inside [k] lost [open]. *)
Lemma closeOther_dom_contains k d c m :
  classList_contains c m (closeOther_dom k d) =
    classList_contains c m d &&
    negb (bool_decide (c = "open") && matches d sel_menu_has_sub m &&
          (m !== k) && negb (contains d k (Some m))).
Proof.
  unfold closeOther_dom. rewrite fold_update_contains by auto with polos.
  rewrite <-decide_querySelectorAll. unfold classList_contains, closeOther_F.
  destruct (d !! m) as [e|]; [|by case_decide].
  destruct (m !== k), (contains d k (Some m)); simpl;
    repeat case_decide; simpl; subst; try set_solver;
    rewrite ?andb_true_r, ?andb_false_r; try done;
    apply bool_decide_ext; set_solver.
Qed.

(** ** [handleSubmenuClick] *)

(** The guard on line 157: a wide viewport, or a sidebar without
    [layout-icons]. *)
Definition submenu_enabled (w : World) : Prop :=
  (768 < w_innerWidth w)%Z ∨
  ∃ sb, c_sidebar (w_ctl w) = Some sb ∧ classList_contains "layout-icons" sb (w_dom w) = false.

Lemma submenu_guard_true w : submenu_enabled w → submenu_guard w = Ok true w.
Proof.
  unfold submenu_guard. run. intros [Hw|(sb&Hsb&Hi)].
  - by rewrite (proj2 (Z.gtb_lt _ _) Hw).
  - destruct (Z.gtb _ _); [done|]. run. rewrite Hsb. run. by rewrite Hi.
Qed.

(** A narrow viewport with the sidebar in [layout-icons]: the guard fails. *)
Lemma submenu_guard_false w sb :
  (w_innerWidth w <= 768)%Z → c_sidebar (w_ctl w) = Some sb →
  classList_contains "layout-icons" sb (w_dom w) = true →
  submenu_guard w = Ok false w.
Proof.
  intros Hw Hsb Hi. unfold submenu_guard. run.
  rewrite Z.gtb_ltb, (proj2 (Z.ltb_ge _ _) Hw). run. rewrite Hsb. run. by rewrite Hi.
Qed.

Section handleSubmenuClick_run.
Context (w : World) (e : Event) (a p g : nat).
Hypothesis Hcur : ev_currentTarget e = TNode a.
Hypothesis Hpar : parentElement (w_dom w) a = Some p.
Hypothesis Hgpar : parentElement (w_dom w) p = Some g.

Lemma handleSubmenuClick_run :
  submenu_enabled w →
  handleSubmenuClick e w =
    Ok tt (set_dom (classList_toggle "open" p
                     (if classList_contains "menu" g (w_dom w)
                      then closeOther_dom p (w_dom w) else w_dom w))
                   (set_evflags true true w)).
Proof.
  intros Hen. unfold handleSubmenuClick. rewrite (bind_Ok _ _ _ true w) by by apply submenu_guard_true.
  run. rewrite Hcur. run. rewrite Hpar. run. rewrite Hgpar. run.
  destruct (classList_contains "menu" g (w_dom w)); [|done].
  run. rewrite closeOtherSubmenus_run. done.
Qed.
End handleSubmenuClick_run.

(** C9. Clicking the link of a top-level submenu [p] (a [has-sub] whose
    parent has class [menu]) when submenus are enabled prevents the
    navigation, stops propagation, flips [p]'s [open] class and closes
    every other top-level submenu that is not inside [p]. *)
Theorem submenu_click_exclusive (w : World) (e : Event) (a p g : nat) :
  ev_currentTarget e = TNode a →
  parentElement (w_dom w) a = Some p →
  parentElement (w_dom w) p = Some g →
  classList_contains "menu" g (w_dom w) = true →
  submenu_enabled w →
  p < length (w_dom w) →
  ∃ w', handleSubmenuClick e w = Ok tt w' ∧
    w_prevented w' = true ∧ w_stopped w' = true ∧
    classList_contains "open" p (w_dom w') = negb (classList_contains "open" p (w_dom w)) ∧
    (∀ q, q ≠ p → matches (w_dom w) sel_menu_has_sub q = true →
          contains (w_dom w) p (Some q) = false →
          classList_contains "open" q (w_dom w') = false).
Proof.
  intros Hcur Hpar Hgpar Hmenu Hen Hp. eexists.
  split; [by apply (handleSubmenuClick_run w e a p g)|].
  rewrite Hmenu. cbn [w_dom set_dom set_evflags w_prevented w_stopped].
  split_and!; [done|done| |].
  - rewrite classList_contains_toggle, closeOther_dom_contains.
    rewrite (shape_eq_length _ _ (closeOther_dom_shape _ _)).
    rewrite (bool_decide_eq_true_2 (p = p)) by done.
    rewrite (bool_decide_eq_true_2 ("open" = "open" ∧ p = p ∧ _)) by naive_solver.
    cbn [negb]. rewrite andb_false_r. simpl. by rewrite andb_true_r, xorb_true_r.
  - intros q Hq Hm Hc.
    rewrite classList_contains_toggle, closeOther_dom_contains, Hm, Hc.
    rewrite (bool_decide_eq_false_2 (q = p)), (bool_decide_eq_true_2 ("open" = "open"))
      by done.
    rewrite (bool_decide_eq_false_2 ("open" = "open" ∧ p = q ∧ _)) by naive_solver.
    simpl. by rewrite andb_false_r.
Qed.

(** C10. On a narrow viewport with the sidebar in [layout-icons] the
    handler does nothing: the event keeps its default action (the link
    navigates) and no class changes.  (The spec places the suppression on
    the desktop icons layout instead.) *)
Theorem submenu_click_suppressed (w : World) (e : Event) (sb : nat) :
  (w_innerWidth w <= 768)%Z →
  c_sidebar (w_ctl w) = Some sb →
  classList_contains "layout-icons" sb (w_dom w) = true →
  handleSubmenuClick e w = Ok tt w.
Proof.
  intros Hw Hsb Hi. unfold handleSubmenuClick.
  by rewrite (bind_Ok _ _ _ false w) by by apply (submenu_guard_false w sb).
Qed.

(** ** Witnesses on the sample page *)

(** A click on the link (4) of the first top-level submenu (3). *)
Definition sample_click (n : nat) : Event := mkEvent "click" (TNode n) (TNode n) None.

Lemma submenu_click_exclusive_witness :
  ∃ w', handleSubmenuClick (sample_click 4) (sample_world 1024 ∅) = Ok tt w' ∧
    classList_contains "open" 3 (w_dom w') = true ∧
    classList_contains "open" 8 (w_dom w') = false.
Proof.
  destruct (submenu_click_exclusive (sample_world 1024 ∅) (sample_click 4) 4 3 2
              eq_refl eq_refl eq_refl eq_refl (or_introl eq_refl) ltac:(vm_compute; lia))
    as (w' & H1 & _ & _ & H2 & H3).
  exists w'. split_and!; [assumption| |].
  - rewrite H2. reflexivity.
  - apply H3; [lia|reflexivity|reflexivity].
Defined.

Lemma submenu_click_suppressed_witness :
  handleSubmenuClick (sample_click 4)
    (set_dom (classList_add "layout-icons" 1 sample_dom) (sample_world 500 ∅)) =
  Ok tt (set_dom (classList_add "layout-icons" 1 sample_dom) (sample_world 500 ∅)).
Proof.
  apply (submenu_click_suppressed _ _ 1); [vm_compute; congruence|reflexivity|reflexivity].
Defined.
