(* ===== verification/Layout.v ===== *)
(** * Layouts and the mobile sidebar: [setLayout], [changeLayout],
    [toggleSidebar], [closeMobileSidebar], [setupLayoutSystem],
    [handleResize] and the public accessors (admin-polos.js, lines 55-113,
    199-203 and 282-288)

    The layout is the value of [this.currentLayout]; the sidebar shows it
    as one of the classes [layout-full], [layout-compact], [layout-icons],
    [layout-hidden], and it is persisted in [localStorage] under
    [adminPolosLayout].  The source accepts any value: a [data-layout]
    attribute that is missing gives [undefined]. *)

From S2P Require Import Prelude Dom Runtime Page Submenu.

#[local] Set Warnings "-clear-no-such-hyp".

Definition layout_classes : list string :=
  ["layout-full"; "layout-compact"; "layout-icons"; "layout-hidden"].

(** The four modes the stylesheet and the buttons know. *)
Definition layout_modes : list string := ["full"; "compact"; "icons"; "hidden"].

Definition storageKey : string := "adminPolosLayout".

(** Lines 66-88. *)
Definition setLayout (layout : jsstring) : M unit :=
  sb <- getCtl c_sidebar;;
  cl_remove sb layout_classes;;
  cl_add sb ("layout-" +:+ js_to_string layout);;
  modify_ctl (set_currentLayout layout);;
  btns <- getCtl c_layoutButtons;;
  forEach btns (λ btn, modify_dom (λ d,
    classList_toggle_force "active" (getAttribute d btn "data-layout" === layout) btn d));;
  (if layout !== Some "full" then closeAllSubmenus else ret tt);;
  setItem storageKey (js_to_string layout);;
  console_log ("Layout changed to: " +:+ js_to_string layout).

(** Lines 90-93. *)
Definition changeLayout (e : Event) : M unit :=
  cur <- deref (node_of (ev_currentTarget e)) "currentTarget";;
  layout <- gets (λ w, getAttribute (w_dom w) cur "data-layout");;
  setLayout layout.

(** Lines 95-108. *)
Definition toggleSidebar : M unit :=
  width <- gets w_innerWidth;;
  if Z.leb width 768 then
    sb <- getCtl c_sidebar;; cl_toggle sb "open";;
    ov <- getCtl c_overlay;; cl_toggle ov "active"
  else
    cur <- getCtl c_currentLayout;;
    if cur === Some "full" then setLayout (Some "icons") else setLayout (Some "full").

(** Lines 110-113. *)
Definition closeMobileSidebar : M unit :=
  sb <- getCtl c_sidebar;; cl_remove sb ["open"];;
  ov <- getCtl c_overlay;; cl_remove ov ["active"].

(** Lines 199-203. *)
Definition handleResize : M unit :=
  width <- gets w_innerWidth;;
  if Z.gtb width 768 then closeMobileSidebar else ret tt.

(** Lines 55-64: the saved layout is applied when it is a non-empty
    string. *)
Definition setupLayoutSystem : M unit :=
  setLayout (Some "full");;
  savedLayout <- getItem storageKey;;
  match savedLayout with
  | Some s => if s !== "" then setLayout (Some s) else ret tt
  | None => ret tt
  end.


(** Lines 282-288. *)
Definition getCurrentLayout : M jsstring := getCtl c_currentLayout.
Definition setLayoutManually (layout : jsstring) : M unit := setLayout layout.

(** ** Closed forms *)

(** The update [setLayout v] applies to a layout button's classes. *)
Definition buttons_F (v : jsstring) (btn : nat) (d : Dom) (cs : gset string) : gset string :=
  if getAttribute d btn "data-layout" === v then {[ "active" ]} ∪ cs else cs ∖ {[ "active" ]}.

(** The document after the sidebar's and the buttons' updates (lines 68-77). *)
Definition setLayout_pre_dom (sb : nat) (btns : list nat) (v : jsstring) (d : Dom) : Dom :=
  fold_update (buttons_F v) btns
    (classList_add ("layout-" +:+ js_to_string v) sb (classList_remove layout_classes sb d)).

Definition setLayout_dom (sb : nat) (btns : list nat) (v : jsstring) (d : Dom) : Dom :=
  let d2 := setLayout_pre_dom sb btns v d in
  if v !== Some "full" then closeAll_dom d2 else d2.

Definition setLayout_world (sb : nat) (v : jsstring) (w : World) : World :=
  set_out (w_out w ++ [OConsole ("Layout changed to: " +:+ js_to_string v)])
    (set_storage (<[storageKey := js_to_string v]> (w_storage w))
      (set_dom (setLayout_dom sb (c_layoutButtons (w_ctl w)) v (w_dom w))
        (set_ctl (set_currentLayout v (w_ctl w)) w))).

Lemma buttons_F_shape v x d1 d2 : shape_eq d1 d2 → buttons_F v x d1 = buttons_F v x d2.
Proof. intros H. unfold buttons_F. by rewrite (getAttribute_proper d1 d2 H x x eq_refl _ _ eq_refl). Qed.
Lemma buttons_F_idem v x d s : buttons_F v x d (buttons_F v x d s) = buttons_F v x d s.
Proof. unfold buttons_F. case_bool_decide; set_solver. Qed.

#[export] Hint Resolve buttons_F_shape buttons_F_idem : polos.

Lemma setLayout_run v w sb :
  c_sidebar (w_ctl w) = Some sb → has_ws (js_to_string v) = false →
  setLayout v w = Ok tt (setLayout_world sb v w).
Proof.
  intros Hsb Hws. unfold setLayout. run. rewrite Hsb. run. rewrite has_ws_app, Hws. run.
  rewrite (forEach_dom _ _ (λ x d, classList_update (buttons_F v x d) x d)) by done.
  unfold setLayout_world, setLayout_dom, setLayout_pre_dom. simpl.
  destruct (negb _); [|done]. rewrite closeAllSubmenus_run. done.
Qed.

Lemma setLayout_world_dom sb v w :
  w_dom (setLayout_world sb v w) = setLayout_dom sb (c_layoutButtons (w_ctl w)) v (w_dom w).
Proof. done. Qed.

Lemma setLayout_world_ctl sb v w :
  w_ctl (setLayout_world sb v w) = set_currentLayout v (w_ctl w).
Proof. done. Qed.

Lemma setLayout_world_storage sb v w :
  w_storage (setLayout_world sb v w) = <[storageKey := js_to_string v]> (w_storage w).
Proof. done. Qed.

Lemma setLayout_null v w :
  c_sidebar (w_ctl w) = None → setLayout v w = Throw (TypeError "classList") w.
Proof. intros Hsb. unfold setLayout. run. by rewrite Hsb. Qed.

Lemma layout_class_of_mode s : "layout-" +:+ s ∈ layout_classes ↔ s ∈ layout_modes.
Proof.
  unfold layout_classes, layout_modes. rewrite !elem_of_cons, !elem_of_nil.
  split; intros H; repeat destruct H as [H|H]; cbn in H; try injection H as H;
    subst; eauto 10; done.
Qed.

Lemma setLayout_pre_contains sb btns v d c m :
  c ≠ "active" →
  classList_contains c m (setLayout_pre_dom sb btns v d) =
    (classList_contains c m d && negb (bool_decide (c ∈ layout_classes ∧ sb = m)))
    || bool_decide (c = "layout-" +:+ js_to_string v ∧ sb = m ∧ m < length d).
Proof.
  intros Ha. unfold setLayout_pre_dom.
  rewrite fold_update_contains_other by
    (auto with polos; intros; unfold buttons_F; case_bool_decide; set_solver).
  by rewrite classList_contains_add, classList_contains_remove, classList_remove_length.
Qed.

Lemma setLayout_pre_shape sb btns v d : shape_eq (setLayout_pre_dom sb btns v d) d.
Proof.
  unfold setLayout_pre_dom. etrans; [apply fold_update_shape; auto with polos|].
  etrans; apply classList_update_shape.
Qed.

Lemma setLayout_pre_length sb btns v d : length (setLayout_pre_dom sb btns v d) = length d.
Proof. apply shape_eq_length, setLayout_pre_shape. Qed.

Lemma setLayout_dom_shape sb btns v d : shape_eq (setLayout_dom sb btns v d) d.
Proof.
  unfold setLayout_dom. destruct (v !== Some "full"); [etrans; [apply closeAll_dom_shape|]|];
    apply setLayout_pre_shape.
Qed.

Lemma setLayout_dom_length sb btns v d : length (setLayout_dom sb btns v d) = length d.
Proof. apply shape_eq_length, setLayout_dom_shape. Qed.

Lemma mode_no_ws m : m ∈ layout_modes → has_ws m = false.
Proof. unfold layout_modes. rewrite !elem_of_cons, elem_of_nil. by intros [->|[->|[->|[->|[]]]]]. Qed.

(** Classes other than [active] and [open]: only the sidebar's layout
    class changes. *)
Lemma setLayout_dom_contains sb btns v d c m :
  c ≠ "active" → c ≠ "open" →
  classList_contains c m (setLayout_dom sb btns v d) =
    (classList_contains c m d && negb (bool_decide (c ∈ layout_classes ∧ sb = m)))
    || bool_decide (c = "layout-" +:+ js_to_string v ∧ sb = m ∧ m < length d).
Proof.
  intros Ha Ho. unfold setLayout_dom.
  destruct (v !== Some "full"); rewrite ?closeAll_dom_contains, setLayout_pre_contains by done;
    rewrite ?(bool_decide_eq_false_2 (c = "open")), ?andb_true_r by done; done.
Qed.

(** Class names of the page that are not of the form [layout-...]. *)
Lemma not_layout_class s c :
  c ∈ ["has-sub"; "menu"; "active"; "open"; "show"] → c ≠ "layout-" +:+ s.
Proof. rewrite !elem_of_cons, elem_of_nil. intros H. repeat destruct H as [->|H]; done. Qed.

(** ** Properties of [setLayout] *)

Section setLayout_props.
Context (w : World) (sb : nat).
Hypothesis Hsb : c_sidebar (w_ctl w) = Some sb.
Hypothesis Hsb_in : sb < length (w_dom w).

(** The layout classes of the sidebar after [setLayout v]. *)
Lemma setLayout_sidebar_class v c :
  c ∈ layout_classes →
  classList_contains c sb (w_dom (setLayout_world sb v w)) =
    bool_decide (c = "layout-" +:+ js_to_string v).
Proof.
  intros Hc. rewrite setLayout_world_dom, setLayout_dom_contains.
  2,3: intros ->; unfold layout_classes in Hc; set_solver.
  rewrite (bool_decide_eq_true_2 (c ∈ layout_classes ∧ sb = sb)) by done.
  rewrite andb_false_r. simpl. apply bool_decide_ext. naive_solver.
Qed.

(** C2. [setLayout m] for one of the four modes makes [m] the current
    layout, persists it under [adminPolosLayout], and leaves exactly the
    class [layout-m] among the four layout classes on the sidebar. *)
Theorem setLayout_mode_exclusive (m : string) :
  m ∈ layout_modes →
  ∃ w', setLayout (Some m) w = Ok tt w' ∧
        c_currentLayout (w_ctl w') = Some m ∧
        w_storage w' !! storageKey = Some m ∧
        (∀ c, c ∈ layout_classes →
              classList_contains c sb (w_dom w') = bool_decide (c = "layout-" +:+ m)) ∧
        "layout-" +:+ m ∈ layout_classes.
Proof.
  intros Hm. eexists. split; [apply setLayout_run; [done|by apply mode_no_ws]|].
  split_and!; [done|by simpl; rewrite lookup_insert_eq| |by apply layout_class_of_mode].
  intros c Hc. by rewrite setLayout_sidebar_class.
Qed.

(** C5. No validation: [setLayout s] for a string that is not one of the
    four modes (and has no whitespace, which the class list refuses) is
    accepted, becomes the current and the persisted layout, and leaves
    the sidebar with none of the four layout classes. *)
Theorem setLayout_accepts_unknown (s : string) :
  s ∉ layout_modes → has_ws s = false →
  ∃ w', setLayout (Some s) w = Ok tt w' ∧
        c_currentLayout (w_ctl w') = Some s ∧
        w_storage w' !! storageKey = Some s ∧
        (∀ c, c ∈ layout_classes → classList_contains c sb (w_dom w') = false).
Proof.
  intros Hs Hws. eexists. split; [by apply setLayout_run|].
  split_and!; [done|by simpl; rewrite lookup_insert_eq|].
  intros c Hc. rewrite setLayout_sidebar_class by done.
  apply bool_decide_eq_false. intros ->. by apply Hs, layout_class_of_mode.
Qed.

Lemma setLayout_world_closes (v : jsstring) (n : nat) :
  v ≠ Some "full" →
  classList_contains "has-sub" n (w_dom w) = true →
  classList_contains "open" n (w_dom (setLayout_world sb v w)) = false.
Proof.
  intros Hv Hn. rewrite setLayout_world_dom. unfold setLayout_dom.
  rewrite (bool_decide_eq_false_2 (v = Some "full")) by done. cbn [negb].
  rewrite closeAll_dom_contains. unfold sel_has_sub. cbn [matches].
  rewrite (setLayout_pre_contains _ _ _ _ "has-sub"), Hn by done.
  rewrite (bool_decide_eq_false_2 ("has-sub" ∈ layout_classes ∧ _)) by
    (unfold layout_classes; set_solver).
  rewrite (bool_decide_eq_false_2 ("has-sub" = _ ∧ _)) by
    (intros [E _]; by apply (not_layout_class (js_to_string v) "has-sub") in E; [|set_solver]).
  rewrite (bool_decide_eq_true_2 ("open" = "open")) by done. simpl.
  by rewrite andb_false_r.
Qed.

(** With [full], no submenu is closed: [open] is unchanged everywhere. *)
Lemma setLayout_full_keeps_open (n : nat) :
  classList_contains "open" n (w_dom (setLayout_world sb (Some "full") w)) =
    classList_contains "open" n (w_dom w).
Proof.
  rewrite setLayout_world_dom. unfold setLayout_dom.
  rewrite (bool_decide_eq_true_2 (Some "full" = Some "full")) by done. cbn [negb].
  rewrite setLayout_pre_contains by done.
  rewrite (bool_decide_eq_false_2 ("open" ∈ layout_classes ∧ _)) by
    (unfold layout_classes; set_solver).
  rewrite (bool_decide_eq_false_2 ("open" = _ ∧ _)) by (intros [E _]; discriminate E).
  by rewrite andb_true_r, orb_false_r.
Qed.

Lemma setLayout_world_buttons (v : jsstring) (btn : nat) :
  btn ∈ c_layoutButtons (w_ctl w) → btn < length (w_dom w) →
  classList_contains "active" btn (w_dom (setLayout_world sb v w)) =
    (getAttribute (w_dom w) btn "data-layout" === v).
Proof.
  intros Hb Hlt. rewrite setLayout_world_dom. unfold setLayout_dom.
  assert (classList_contains "active" btn
            (setLayout_pre_dom sb (c_layoutButtons (w_ctl w)) v (w_dom w)) =
          (getAttribute (w_dom w) btn "data-layout" === v)) as Hpre.
  { unfold setLayout_pre_dom. rewrite fold_update_contains by auto with polos.
    rewrite decide_True by done.
    set (d1 := classList_add _ _ _).
    assert (shape_eq d1 (w_dom w)) as Hs by (etrans; apply classList_update_shape).
    destruct (lookup_lt_is_Some_2 d1 btn) as [e ->]; [by rewrite (shape_eq_length _ _ Hs)|].
    unfold buttons_F. rewrite (getAttribute_proper _ _ Hs btn btn eq_refl _ _ eq_refl).
    destruct (decide (getAttribute (w_dom w) btn "data-layout" = v)) as [Hq|Hq].
    - rewrite (bool_decide_eq_true_2 _ Hq). apply bool_decide_eq_true. set_solver.
    - rewrite (bool_decide_eq_false_2 _ Hq). apply bool_decide_eq_false. set_solver. }
  destruct (v !== Some "full"); [|done].
  rewrite closeAll_dom_contains, Hpre.
  rewrite (bool_decide_eq_false_2 ("active" = "open")) by done. simpl.
  by rewrite andb_true_r.
Qed.

(** C3. Any layout value other than [full] (that the class list accepts)
    closes every submenu: no [has-sub] element is [open] afterwards. *)
Theorem setLayout_closes_submenus (v : jsstring) :
  v ≠ Some "full" → has_ws (js_to_string v) = false →
  ∃ w', setLayout v w = Ok tt w' ∧
        ∀ n, classList_contains "has-sub" n (w_dom w) = true →
             classList_contains "open" n (w_dom w') = false.
Proof.
  intros Hv Hws. eexists. split; [by apply setLayout_run|]. intros n Hn.
  by apply setLayout_world_closes.
Qed.

(** C4. After [setLayout v], a layout button is [active] exactly when its
    [data-layout] attribute equals [v]. *)
Theorem setLayout_buttons_active (v : jsstring) :
  has_ws (js_to_string v) = false →
  ∃ w', setLayout v w = Ok tt w' ∧
        ∀ btn, btn ∈ c_layoutButtons (w_ctl w) → btn < length (w_dom w) →
               classList_contains "active" btn (w_dom w') =
                 (getAttribute (w_dom w) btn "data-layout" === v).
Proof.
  intros Hws. eexists. split; [by apply setLayout_run|]. intros btn Hb Hlt.
  by apply setLayout_world_buttons.
Qed.

(** C28. A layout value containing whitespace (a [data-layout] attribute
    or a [setLayoutManually] argument such as ["full "]) makes
    [classList.add] throw [InvalidCharacterError] on line 71, after line
    68 removed the four layout classes: the exception propagates, and the
    sidebar is left with no layout class while [currentLayout], the
    stored layout and the buttons are unchanged. *)
Theorem setLayout_whitespace_throws (v : jsstring) :
  has_ws (js_to_string v) = true →
  ∃ w', setLayout v w = Throw (DOMException "InvalidCharacterError") w' ∧
        w_ctl w' = w_ctl w ∧ w_storage w' = w_storage w ∧
        (∀ c, c ∈ layout_classes → classList_contains c sb (w_dom w') = false).
Proof.
  intros Hws. eexists. split.
  - unfold setLayout. run. rewrite Hsb. run. rewrite has_ws_app, Hws. run. reflexivity.
  - split_and!; [done|done|]. intros c Hc. simpl.
    rewrite classList_contains_remove, bool_decide_eq_true_2 by done. apply andb_false_r.
Qed.
End setLayout_props.

(** ** [setupLayoutSystem]: the saved layout is overwritten before it is read *)


(** [setLayout('full')] on line 57 stores ["full"] under the key that line
    60 then reads, so the second [setLayout] always re-applies [full]. *)
Lemma setupLayoutSystem_run w sb :
  c_sidebar (w_ctl w) = Some sb →
  setupLayoutSystem w =
    Ok tt (setLayout_world sb (Some "full") (setLayout_world sb (Some "full") w)).
Proof.
  intros Hsb. unfold setupLayoutSystem. unfold bind at 1.
  rewrite (setLayout_run (Some "full") _ _ Hsb eq_refl). unfold bind, getItem, gets.
  rewrite setLayout_world_storage, lookup_insert_eq. cbn -[setLayout].
  by apply setLayout_run.
Qed.

(** C1. The persisted layout is never restored: when
    [localStorage.adminPolosLayout] holds a layout other than [full] at
    start-up (for instance one saved by [setLayout] on an earlier visit),
    [setupLayoutSystem] does not apply it; it ends with [full] as the
    current layout and overwrites the stored value with [full]. *)
Theorem setupLayoutSystem_ignores_saved (w : World) (sb : nat) (saved : string) :
  c_sidebar (w_ctl w) = Some sb →
  w_storage w !! storageKey = Some saved →
  saved ≠ "full" →
  ∃ w', setupLayoutSystem w = Ok tt w' ∧
        c_currentLayout (w_ctl w') = Some "full" ∧
        c_currentLayout (w_ctl w') ≠ Some saved ∧
        w_storage w' !! storageKey = Some "full".
Proof.
  intros Hsb Hsaved Hne. eexists. split; [by apply setupLayoutSystem_run|].
  rewrite setLayout_world_storage, lookup_insert_eq. split_and!; [done| |done]. cbn. congruence.
Qed.

(** ** The sidebar toggle and the mobile sidebar *)

Lemma toggleSidebar_mobile_run w sb ov :
  (w_innerWidth w <= 768)%Z →
  c_sidebar (w_ctl w) = Some sb → c_overlay (w_ctl w) = Some ov →
  toggleSidebar w =
    Ok tt (set_dom (classList_toggle "active" ov (classList_toggle "open" sb (w_dom w))) w).
Proof.
  intros Hw Hsb Hov. unfold toggleSidebar. run.
  rewrite (proj2 (Z.leb_le _ _) Hw). run. rewrite Hsb. run. by rewrite Hov.
Qed.

Lemma toggleSidebar_desktop_run w sb :
  (768 < w_innerWidth w)%Z →
  c_sidebar (w_ctl w) = Some sb →
  toggleSidebar w =
    Ok tt (setLayout_world sb
             (if c_currentLayout (w_ctl w) === Some "full" then Some "icons" else Some "full") w).
Proof.
  intros Hw Hsb. unfold toggleSidebar, bind at 1, gets.
  rewrite (proj2 (Z.leb_gt _ _) Hw). unfold bind, getCtl, gets.
  destruct (c_currentLayout (w_ctl w) === Some "full"); by apply setLayout_run.
Qed.

Lemma closeMobileSidebar_run w sb ov :
  c_sidebar (w_ctl w) = Some sb → c_overlay (w_ctl w) = Some ov →
  closeMobileSidebar w =
    Ok tt (set_dom (classList_remove ["active"] ov (classList_remove ["open"] sb (w_dom w))) w).
Proof. intros Hsb Hov. unfold closeMobileSidebar. run. rewrite Hsb. run. by rewrite Hov. Qed.

(** C6. On a wide viewport the toggle switches between [full] and
    [icons]: from [full] it goes to [icons], from any other layout
    ([icons], [compact], [hidden] or anything else) to [full]. *)
Theorem toggleSidebar_desktop (w : World) (sb : nat) :
  (768 < w_innerWidth w)%Z →
  c_sidebar (w_ctl w) = Some sb →
  ∃ w', toggleSidebar w = Ok tt w' ∧
        c_currentLayout (w_ctl w') =
          (if decide (c_currentLayout (w_ctl w) = Some "full") then Some "icons" else Some "full").
Proof.
  intros Hw Hsb. eexists. split; [by apply toggleSidebar_desktop_run|].
  rewrite setLayout_world_ctl. cbn. by case_bool_decide; case_decide.
Qed.

(** C7. On a narrow viewport the toggle never changes the layout or the
    stored preference; it flips the sidebar's [open] class and the
    overlay's [active] class. *)
Theorem toggleSidebar_mobile (w : World) (sb ov : nat) :
  (w_innerWidth w <= 768)%Z →
  c_sidebar (w_ctl w) = Some sb → c_overlay (w_ctl w) = Some ov →
  sb < length (w_dom w) → ov < length (w_dom w) →
  ∃ w', toggleSidebar w = Ok tt w' ∧
        w_ctl w' = w_ctl w ∧ w_storage w' = w_storage w ∧
        classList_contains "open" sb (w_dom w') = negb (classList_contains "open" sb (w_dom w)) ∧
        classList_contains "active" ov (w_dom w') = negb (classList_contains "active" ov (w_dom w)).
Proof.
  intros Hw Hsb Hov Hs Ho. eexists. split; [by apply toggleSidebar_mobile_run|].
  cbn [w_ctl w_storage w_dom set_dom].
  split_and!; [done|done| |]; rewrite !classList_contains_toggle, ?classList_toggle_length.
  - rewrite (bool_decide_eq_true_2 ("open" = "open" ∧ _)),
      (bool_decide_eq_false_2 ("open" = "active" ∧ _)) by naive_solver.
    by destruct (classList_contains _ _ _).
  - rewrite (bool_decide_eq_false_2 ("active" = "open" ∧ _)),
      (bool_decide_eq_true_2 ("active" = "active" ∧ _)) by naive_solver.
    by destruct (classList_contains _ _ _).
Qed.

(** C8. A resize to a width above the breakpoint closes the mobile
    sidebar and its overlay, whatever their state. *)
Theorem handleResize_closes (w : World) (sb ov : nat) :
  (768 < w_innerWidth w)%Z →
  c_sidebar (w_ctl w) = Some sb → c_overlay (w_ctl w) = Some ov →
  ∃ w', handleResize w = Ok tt w' ∧
        classList_contains "open" sb (w_dom w') = false ∧
        classList_contains "active" ov (w_dom w') = false.
Proof.
  intros Hw Hsb Hov. eexists. split.
  - unfold handleResize, bind at 1, gets. rewrite (proj2 (Z.gtb_lt _ _) Hw).
    by apply closeMobileSidebar_run.
  - cbn [w_dom set_dom]. rewrite !classList_contains_remove.
    split.
    + rewrite (bool_decide_eq_true_2 ("open" ∈ ["open"] ∧ sb = sb)) by set_solver.
      cbn [negb]. by rewrite andb_false_r.
    + rewrite (bool_decide_eq_true_2 ("active" ∈ ["active"] ∧ ov = ov)) by set_solver.
      cbn [negb]. by rewrite andb_false_r.
Qed.

(** ** Witnesses on the sample page *)

Ltac close_side := first [reflexivity | (vm_compute; lia) | decide_prop | discriminate].

(** C33. On a narrow viewport without an overlay element (the
    constructor's [getElementById('overlay')] returned [null]), the
    toggle flips the sidebar's [open] class and then throws a [TypeError]
    from [this.overlay.classList] (line 99): the sidebar is left open with
    no backdrop, the layout and the stored preference are unchanged, and
    no other class changes. *)
Theorem toggleSidebar_no_overlay (w : World) (sb : nat) :
  (w_innerWidth w <= 768)%Z →
  c_sidebar (w_ctl w) = Some sb → c_overlay (w_ctl w) = None → sb < length (w_dom w) →
  ∃ w', toggleSidebar w = Throw (TypeError "classList") w' ∧
        w_ctl w' = w_ctl w ∧ w_storage w' = w_storage w ∧
        classList_contains "open" sb (w_dom w') = negb (classList_contains "open" sb (w_dom w)) ∧
        ∀ c n, c ≠ "open" ∨ n ≠ sb → classList_contains c n (w_dom w') = classList_contains c n (w_dom w).
Proof.
  intros Hw Hsb Hov Hs. eexists. split.
  - unfold toggleSidebar. run. rewrite (proj2 (Z.leb_le _ _) Hw). run. rewrite Hsb. run.
    rewrite Hov. reflexivity.
  - cbn [w_ctl w_storage w_dom set_dom]. split_and!; [done|done| |].
    + rewrite classList_contains_toggle, bool_decide_eq_true_2 by done.
      by destruct (classList_contains _ _ _).
    + intros c n Hcn. rewrite classList_contains_toggle, bool_decide_eq_false_2 by naive_solver.
      apply xorb_false_r.
Qed.

Lemma setupLayoutSystem_ignores_saved_witness :
  ∃ w', setupLayoutSystem (sample_world 1024 {[storageKey := "icons"]}) = Ok tt w' ∧
        c_currentLayout (w_ctl w') = Some "full".
Proof.
  edestruct (setupLayoutSystem_ignores_saved (sample_world 1024 {[storageKey := "icons"]}) 1 "icons")
    as (w' & H1 & H2 & _); try close_side.
  exists w'. split; assumption.
Defined.

Lemma setLayout_mode_exclusive_witness :
  ∃ w', setLayout (Some "icons") (sample_world 1024 ∅) = Ok tt w' ∧
        c_currentLayout (w_ctl w') = Some "icons".
Proof.
  destruct (setLayout_mode_exclusive (sample_world 1024 ∅) 1 eq_refl ltac:(vm_compute; lia)
             "icons" ltac:(decide_prop)) as (w' & H1 & H2 & _).
  exists w'. split; assumption.
Defined.

Lemma setLayout_closes_submenus_witness :
  ∃ w', setLayout (Some "compact") (sample_world 1024 ∅) = Ok tt w' ∧
        classList_contains "open" 8 (w_dom w') = false.
Proof.
  destruct (setLayout_closes_submenus (sample_world 1024 ∅) 1 eq_refl ltac:(vm_compute; lia)
             (Some "compact") ltac:(discriminate) eq_refl) as (w' & H1 & H2).
  exists w'. split; [assumption|]. apply H2. reflexivity.
Defined.

Lemma setLayout_accepts_unknown_witness :
  ∃ w', setLayout (Some "wide") (sample_world 1024 ∅) = Ok tt w' ∧
        c_currentLayout (w_ctl w') = Some "wide".
Proof.
  destruct (setLayout_accepts_unknown (sample_world 1024 ∅) 1 eq_refl ltac:(vm_compute; lia)
             "wide" ltac:(decide_prop) eq_refl) as (w' & H1 & H2 & _).
  exists w'. split; assumption.
Defined.

Lemma toggleSidebar_desktop_witness :
  ∃ w', toggleSidebar (sample_world 1024 ∅) = Ok tt w' ∧
        c_currentLayout (w_ctl w') = Some "icons".
Proof.
  edestruct (toggleSidebar_desktop (sample_world 1024 ∅) 1) as (w' & H1 & H2); try close_side.
  exists w'. split; [assumption|]. rewrite H2. reflexivity.
Defined.

Lemma toggleSidebar_mobile_witness :
  ∃ w', toggleSidebar (sample_world 500 ∅) = Ok tt w' ∧
        classList_contains "open" 1 (w_dom w') = true.
Proof.
  edestruct (toggleSidebar_mobile (sample_world 500 ∅) 1 11) as (w' & H1 & _ & _ & H2 & _);
    try close_side.
  exists w'. split; [assumption|]. rewrite H2. reflexivity.
Defined.

Lemma handleResize_closes_witness :
  ∃ w', handleResize (sample_world 1024 ∅) = Ok tt w' ∧
        classList_contains "active" 11 (w_dom w') = false.
Proof.
  edestruct (handleResize_closes (sample_world 1024 ∅) 1 11) as (w' & H1 & _ & H2);
    try close_side.
  exists w'. split; assumption.
Defined.

Lemma setLayout_buttons_active_witness :
  ∃ w', setLayout (Some "icons") (sample_world 1024 ∅) = Ok tt w' ∧
        classList_contains "active" 16 (w_dom w') = true ∧
        classList_contains "active" 14 (w_dom w') = false.
Proof.
  destruct (setLayout_buttons_active (sample_world 1024 ∅) 1 eq_refl ltac:(vm_compute; lia)
             (Some "icons") eq_refl) as (w' & H1 & H2).
  exists w'. split; [assumption|].
  rewrite !H2 by first [decide_prop | (vm_compute; lia)]. split; reflexivity.
Defined.

Lemma setLayout_whitespace_throws_witness :
  ∃ w', setLayout (Some "full ") (sample_world 1024 ∅) = Throw (DOMException "InvalidCharacterError") w' ∧
        classList_contains "layout-full" 1 (w_dom w') = false.
Proof.
  destruct (setLayout_whitespace_throws (sample_world 1024 ∅) 1 eq_refl (Some "full ") eq_refl)
    as (w' & H1 & _ & _ & H2).
  exists w'. split; [assumption|]. apply H2. decide_prop.
Defined.

(** The sample page on a phone whose controller found no overlay. *)
Lemma toggleSidebar_no_overlay_witness :
  ∃ w', toggleSidebar (set_ctl (mkCtl (Some 1) (Some 10) None (Some 12) (Some 13) [14; 15; 16; 17]
                                     None false (Some "full") 0) (sample_world 500 ∅))
          = Throw (TypeError "classList") w' ∧
        classList_contains "open" 1 (w_dom w') = true.
Proof.
  destruct (toggleSidebar_no_overlay (set_ctl (mkCtl (Some 1) (Some 10) None (Some 12) (Some 13)
              [14; 15; 16; 17] None false (Some "full") 0) (sample_world 500 ∅)) 1)
    as (w' & E & _ & _ & Ho & _); [vm_compute; congruence|reflexivity|reflexivity|vm_compute; lia|].
  exists w'. split; [exact E|]. rewrite Ho. reflexivity.
Defined.
