(* ===== verification/Dropdown.v ===== *)
(** * The user dropdown: [toggleUserDropdown] and [handleOutsideClick]
    (admin-polos.js, lines 188-197)

    The dropdown is shown when [#userDropdown] has class [show].  Clicks on
    [#userMenu] toggle it and stop propagation; a click listener on the
    document hides it when the click lands outside [#userMenu].  How the
    two interact on one click is a matter of event dispatch, proved in
    [Controller]. *)

From S2P Require Import Prelude Dom Runtime Page.

(** Lines 188-191. *)
Definition toggleUserDropdown (e : Event) : M unit :=
  stopPropagation;;
  dd <- getCtl c_userDropdown;;
  cl_toggle dd "show".

(** Lines 193-197. *)
Definition handleOutsideClick (e : Event) : M unit :=
  um <- getCtl c_userMenu;;
  n <- deref um "contains";;
  inside <- gets (λ w, contains (w_dom w) n (node_of (ev_target e)));;
  if negb inside then dd <- getCtl c_userDropdown;; cl_remove dd ["show"] else ret tt.

Lemma toggleUserDropdown_run e w dd :
  c_userDropdown (w_ctl w) = Some dd →
  toggleUserDropdown e w =
    Ok tt (set_dom (classList_toggle "show" dd (w_dom w)) (set_evflags true (w_prevented w) w)).
Proof. intros Hdd. unfold toggleUserDropdown. run. by rewrite Hdd. Qed.

Lemma handleOutsideClick_run e w um dd :
  c_userMenu (w_ctl w) = Some um → c_userDropdown (w_ctl w) = Some dd →
  handleOutsideClick e w =
    Ok tt (if contains (w_dom w) um (node_of (ev_target e)) then w
          else set_dom (classList_remove ["show"] dd (w_dom w)) w).
Proof.
  intros Hum Hdd. unfold handleOutsideClick. run. rewrite Hum. run.
  destruct (contains _ _ _); run; [done|]. by rewrite Hdd.
Qed.

(** The document listener dereferences [this.userDropdown] on every click
    outside the user menu: a page without [#userDropdown] throws there. *)
Lemma handleOutsideClick_no_dropdown e w um :
  c_userMenu (w_ctl w) = Some um → c_userDropdown (w_ctl w) = None →
  contains (w_dom w) um (node_of (ev_target e)) = false →
  handleOutsideClick e w = Throw (TypeError "classList") w.
Proof.
  intros Hum Hdd Hc. unfold handleOutsideClick. run. rewrite Hum. run. rewrite Hc. run.
  by rewrite Hdd.
Qed.
