(* ===== verification/Hover.v ===== *)
(** * Auto-hover expansion of the icons layout: [setupAutoHover] and its
    two listeners and two timer callbacks (admin-polos.js, lines 115-147)

    In the [icons] layout, entering the sidebar schedules (150 ms) the
    temporary class [layout-full-temp]; leaving it for an element outside
    the sidebar schedules (300 ms) its removal, which also closes every
    submenu.  Both listeners first cancel [this.hoverTimeout]: the two
    callbacks share that one timer slot. *)

From S2P Require Import Prelude Dom Runtime Page Submenu.

Definition expandDelay : Z := 150.
Definition collapseDelay : Z := 300.

(** Lines 119-129. *)
Definition onMouseEnter (e : Event) : M unit :=
  modify_ctl (set_isHoveringSidebar true);;
  t <- getCtl c_hoverTimeout;;
  clearTimeout t;;
  cur <- getCtl c_currentLayout;;
  (if cur === Some "icons" then
     sb <- getCtl c_sidebar;;
     full <- cl_contains sb "layout-full";;
     if negb full then
       id <- setTimeout CbHoverExpand expandDelay;;
       modify_ctl (set_hoverTimeout (Some id))
     else ret tt
   else ret tt).

(** Lines 132-146. *)
Definition onMouseLeave (e : Event) : M unit :=
  modify_ctl (set_isHoveringSidebar false);;
  t <- getCtl c_hoverTimeout;;
  clearTimeout t;;
  sb <- getCtl c_sidebar;;
  n <- deref sb "contains";;
  inside <- gets (λ w, contains (w_dom w) n (ev_relatedTarget e));;
  if negb inside && (ev_relatedTarget e !== Some n) then
    id <- setTimeout CbHoverCollapse collapseDelay;;
    modify_ctl (set_hoverTimeout (Some id))
  else ret tt.

(** Line 126: the expand callback. *)
Definition hoverExpand : M unit :=
  sb <- getCtl c_sidebar;;
  cl_add sb "layout-full-temp".

(** Lines 139-143: the collapse callback. *)
Definition hoverCollapse : M unit :=
  sb <- getCtl c_sidebar;;
  temp <- cl_contains sb "layout-full-temp";;
  if temp then cl_remove sb ["layout-full-temp"];; closeAllSubmenus else ret tt.

(** Lines 115-147: nothing on a narrow viewport at set-up time. *)
Definition setupAutoHover : M unit :=
  width <- gets w_innerWidth;;
  if Z.leb width 768 then ret tt
  else
    sb <- getCtl c_sidebar;;
    n <- deref sb "addEventListener";;
    listen (TNode n) "mouseenter" HMouseEnter;;
    listen (TNode n) "mouseleave" HMouseLeave.

(** ** The hover timer slot *)

Definition is_hover_cb (cb : Callback) : bool :=
  match cb with CbHoverExpand | CbHoverCollapse => true | _ => false end.

(** Every pending hover timer is the one [this.hoverTimeout] names. *)
Definition hover_single (w : World) : Prop :=
  ∀ t, t ∈ w_timers w → is_hover_cb (tm_cb t) = true →
       c_hoverTimeout (w_ctl w) = Some (tm_id t).

(** After [clearTimeout(this.hoverTimeout)] no hover timer is pending. *)
Lemma clear_hover_none w :
  hover_single w →
  ∀ t, t ∈ w_timers (final (clearTimeout (c_hoverTimeout (w_ctl w)) w)) →
       is_hover_cb (tm_cb t) = false.
Proof.
  intros Hs t. destruct (c_hoverTimeout (w_ctl w)) as [i|] eqn:Ht; simpl.
  - rewrite list_elem_of_filter. intros [Hne Ht'].
    destruct (is_hover_cb (tm_cb t)) eqn:Hc; [|done].
    specialize (Hs t Ht' Hc). congruence.
  - intros Ht'. destruct (is_hover_cb (tm_cb t)) eqn:Hc; [|done].
    specialize (Hs t Ht' Hc). congruence.
Qed.

(** The world after [clearTimeout(this.hoverTimeout)]. *)
Definition clear_hover (w : World) : World := final (clearTimeout (c_hoverTimeout (w_ctl w)) w).

(** The world after [this.hoverTimeout = setTimeout(cb, delay)]. *)
Definition schedule_hover (cb : Callback) (delay : Z) (w : World) : World :=
  set_ctl (set_hoverTimeout (Some (w_nextTimer w)) (w_ctl w))
    (set_timers (w_timers w ++ [mkTimer (w_nextTimer w) (w_now w + delay) cb])
                (S (w_nextTimer w)) w).

Lemma clearTimeout_hover_run w :
  clearTimeout (c_hoverTimeout (w_ctl w)) w = Ok tt (clear_hover w).
Proof. unfold clear_hover. by destruct (c_hoverTimeout (w_ctl w)). Qed.

Lemma schedule_hover_run cb delay w :
  (id <- setTimeout cb delay;; modify_ctl (set_hoverTimeout (Some id))) w =
    Ok tt (schedule_hover cb delay w).
Proof. done. Qed.

Lemma onMouseEnter_run e w sb :
  c_sidebar (w_ctl w) = Some sb →
  let w1 := clear_hover (set_ctl (set_isHoveringSidebar true (w_ctl w)) w) in
  onMouseEnter e w =
    Ok tt (if (c_currentLayout (w_ctl w) === Some "icons") &&
             negb (classList_contains "layout-full" sb (w_dom w))
          then schedule_hover CbHoverExpand expandDelay w1 else w1).
Proof.
  intros Hsb w1. subst w1. unfold onMouseEnter, clear_hover, schedule_hover.
  run. destruct (c_hoverTimeout (w_ctl w)); run;
    (destruct (c_currentLayout (w_ctl w) === Some "icons"); run; [|done]);
    rewrite Hsb; run; by destruct (classList_contains "layout-full" sb (w_dom w)).
Qed.

Lemma onMouseLeave_run e w sb :
  c_sidebar (w_ctl w) = Some sb →
  let w1 := clear_hover (set_ctl (set_isHoveringSidebar false (w_ctl w)) w) in
  onMouseLeave e w =
    Ok tt (if negb (contains (w_dom w) sb (ev_relatedTarget e)) && (ev_relatedTarget e !== Some sb)
          then schedule_hover CbHoverCollapse collapseDelay w1 else w1).
Proof.
  intros Hsb w1. subst w1. unfold onMouseLeave, clear_hover, schedule_hover.
  run. destruct (c_hoverTimeout (w_ctl w)); run; rewrite Hsb; run;
    by destruct (negb _ && _).
Qed.

(** Whatever the page: the world after a listener has cleared the slot,
    and possibly scheduled its callback in it. *)
Lemma onMouseEnter_final e w :
  let w1 := clear_hover (set_ctl (set_isHoveringSidebar true (w_ctl w)) w) in
  final (onMouseEnter e w) = w1 ∨ final (onMouseEnter e w) = schedule_hover CbHoverExpand expandDelay w1.
Proof.
  intros w1. destruct (c_sidebar (w_ctl w)) as [sb|] eqn:Hsb.
  - rewrite (onMouseEnter_run e w sb Hsb). destruct (_ && _); [right|left]; done.
  - left. subst w1. unfold onMouseEnter, clear_hover.
    run. destruct (c_hoverTimeout (w_ctl w)); run;
      (destruct (c_currentLayout (w_ctl w) === Some "icons"); run; [|done]); by rewrite Hsb.
Qed.

Lemma onMouseLeave_final e w :
  let w1 := clear_hover (set_ctl (set_isHoveringSidebar false (w_ctl w)) w) in
  final (onMouseLeave e w) = w1 ∨ final (onMouseLeave e w) = schedule_hover CbHoverCollapse collapseDelay w1.
Proof.
  intros w1. destruct (c_sidebar (w_ctl w)) as [sb|] eqn:Hsb.
  - rewrite (onMouseLeave_run e w sb Hsb). destruct (_ && _); [right|left]; done.
  - left. subst w1. unfold onMouseLeave, clear_hover.
    run. destruct (c_hoverTimeout (w_ctl w)); run; by rewrite Hsb.
Qed.

Definition no_hover_timer (w : World) : Prop :=
  ∀ t, t ∈ w_timers w → is_hover_cb (tm_cb t) = false.

Lemma no_hover_single w : no_hover_timer w → hover_single w.
Proof. intros H t Ht Hc. by rewrite H in Hc. Qed.

Lemma clear_hover_no_timer w : hover_single w → no_hover_timer (clear_hover w).
Proof. intros Hs t. apply clear_hover_none, Hs. Qed.

Lemma schedule_hover_single cb d w :
  no_hover_timer w → hover_single (schedule_hover cb d w).
Proof.
  intros H t. simpl. rewrite elem_of_app, list_elem_of_singleton.
  intros [Ht| ->] Hc; [by rewrite H in Hc|done].
Qed.

Lemma clear_hover_wf w : timers_wf w → timers_wf (clear_hover w).
Proof.
  unfold clear_hover. intros [Hnd Hlt]. destruct (c_hoverTimeout (w_ctl w)); [|done].
  split; simpl; [by apply NoDup_fmap_filter|].
  intros t Ht. apply list_elem_of_filter in Ht as [_ Ht]. by apply Hlt.
Qed.

Lemma schedule_hover_wf cb d w : timers_wf w → timers_wf (schedule_hover cb d w).
Proof.
  intros [Hnd Hlt]. split; simpl.
  - rewrite fmap_app. apply NoDup_app. split_and!; [done| |by apply NoDup_singleton].
    intros x Hx. apply list_elem_of_fmap in Hx as (t&->&Ht). specialize (Hlt t Ht).
    simpl. rewrite list_elem_of_singleton. lia.
  - intros t. rewrite elem_of_app, list_elem_of_singleton. intros [Ht| ->]; simpl; [|lia].
    specialize (Hlt t Ht). lia.
Qed.

Lemma hover_single_ctl w f :
  c_hoverTimeout (f (w_ctl w)) = c_hoverTimeout (w_ctl w) →
  hover_single w → hover_single (set_ctl (f (w_ctl w)) w).
Proof. intros Hf Hs t Ht Hc. simpl. rewrite Hf. by apply Hs. Qed.

#[export] Hint Resolve no_hover_single clear_hover_no_timer schedule_hover_single
  clear_hover_wf schedule_hover_wf : polos.

Lemma timers_wf_ctl c w : timers_wf w → timers_wf (set_ctl c w).
Proof. done. Qed.

#[export] Hint Resolve timers_wf_ctl : polos.

Lemma hover_single_hovering b w : hover_single w → hover_single (set_ctl (set_isHoveringSidebar b (w_ctl w)) w).
Proof. by apply hover_single_ctl. Qed.

#[export] Hint Resolve hover_single_hovering : polos.

(** C11. Both sidebar listeners keep the timer discipline: every pending
    hover timer is the one [this.hoverTimeout] names, and timer ids stay
    distinct and below the next id. *)
Theorem hover_listeners_preserve (w : World) (e : Event) (sb : nat) :
  c_sidebar (w_ctl w) = Some sb → hover_single w → timers_wf w →
  (∃ w', onMouseEnter e w = Ok tt w' ∧ hover_single w' ∧ timers_wf w') ∧
  (∃ w', onMouseLeave e w = Ok tt w' ∧ hover_single w' ∧ timers_wf w').
Proof.
  intros Hsb Hs Hwf. split; eexists;
    (split; [first [by apply onMouseEnter_run | by apply onMouseLeave_run]|]);
    (destruct (_ && _); split; auto 10 with polos).
Qed.

(** C12. Leaving the sidebar cancels a pending expansion: after
    [mouseleave] no [layout-full-temp] timer (line 125) is pending,
    whatever the pointer left to. *)
Theorem mouseleave_cancels_expand (w : World) (e : Event) (sb : nat) :
  c_sidebar (w_ctl w) = Some sb → hover_single w →
  ∃ w', onMouseLeave e w = Ok tt w' ∧ ∀ t, t ∈ w_timers w' → tm_cb t ≠ CbHoverExpand.
Proof.
  intros Hsb Hs. eexists. split; [by apply onMouseLeave_run|].
  assert (no_hover_timer (clear_hover (set_ctl (set_isHoveringSidebar false (w_ctl w)) w))) as Hn
    by auto with polos.
  intros t. destruct (_ && _); simpl; [rewrite elem_of_app, list_elem_of_singleton|];
    [intros [Ht| ->]; [|done]|intros Ht]; intros Hc; specialize (Hn t Ht); by rewrite Hc in Hn.
Qed.

(** The expand and collapse callbacks share one timer slot: with the
    slot discipline, at most one hover timer is pending. *)
Lemma hover_single_at_most_one (w : World) :
  hover_single w → timers_wf w →
  length (filter (λ t, is_hover_cb (tm_cb t) = true) (w_timers w)) ≤ 1.
Proof.
  intros Hs [Hnd _].
  destruct (c_hoverTimeout (w_ctl w)) as [i|] eqn:Hi.
  - apply (NoDup_fmap_const_length tm_id _ i); [by apply NoDup_fmap_filter|].
    intros t Ht. apply list_elem_of_filter in Ht as [Hc Ht]. specialize (Hs t Ht Hc). congruence.
  - destruct (filter _ _) as [|t l] eqn:E; [simpl; lia|].
    assert (t ∈ filter (λ t, is_hover_cb (tm_cb t) = true) (w_timers w)) as Ht
      by (rewrite E; left).
    apply list_elem_of_filter in Ht as [Hc Ht]. specialize (Hs t Ht Hc). congruence.
Qed.

(** ** Witnesses on the sample page *)

(** The sample page with the expand timer of a [mouseenter] pending. *)
Definition hovered_world : World :=
  schedule_hover CbHoverExpand expandDelay (sample_world 1024 ∅).

Definition leave_to (n : option nat) : Event := mkEvent "mouseleave" (TNode 1) (TNode 1) n.

Lemma hovered_world_single : hover_single hovered_world.
Proof. apply schedule_hover_single. intros t Ht. inversion Ht. Qed.

Lemma hovered_world_wf : timers_wf hovered_world.
Proof. split; [decide_prop|]. intros t Ht. apply list_elem_of_singleton in Ht. subst t. simpl. lia. Qed.

Lemma hover_listeners_preserve_witness :
  ∃ w', onMouseLeave (leave_to (Some 18)) hovered_world = Ok tt w' ∧ hover_single w'.
Proof.
  destruct (hover_listeners_preserve hovered_world (leave_to (Some 18)) 1 eq_refl
              hovered_world_single hovered_world_wf) as [_ (w' & H1 & H2 & _)].
  exists w'. split; assumption.
Defined.

Lemma mouseleave_cancels_expand_witness :
  (∃ t, t ∈ w_timers hovered_world ∧ tm_cb t = CbHoverExpand) ∧
  ∃ w', onMouseLeave (leave_to (Some 18)) hovered_world = Ok tt w' ∧
        ∀ t, t ∈ w_timers w' → tm_cb t ≠ CbHoverExpand.
Proof.
  split; [eexists; split; [left|reflexivity]|].
  exact (mouseleave_cancels_expand hovered_world (leave_to (Some 18)) 1 eq_refl hovered_world_single).
Defined.
