(* ===== verification/Polos.v ===== *)
(** * Integration with the Polos framework: [setupPolosIntegration],
    [enhanceInteractiveElements], [setupPolosEvents] and [refresh]
    (admin-polos.js, lines 205-280)

    [Polos] is an optional global ([w_polos]); the code tests
    [typeof Polos !== 'undefined'] before each use.  Its [setLoading] calls
    are recorded as output.  [enhanceInteractiveElements] registers fresh
    closures each time it runs. *)

From S2P Require Import Prelude Dom Runtime Page Submenu.

Definition sel_interactive : selector := SClass "js-interactive".
Definition sel_stats : selector := SAttr "data-stats".
Definition sel_period : selector := SAttr "data-period".

(** Lines 220-266. *)
Definition enhanceInteractiveElements : M unit :=
  els <- gets (λ w, querySelectorAll (w_dom w) sel_interactive);;
  forEach els (λ el, listen (TNode el) "click" HInteractiveClick);;
  cards <- gets (λ w, querySelectorAll (w_dom w) sel_stats);;
  forEach cards (λ card, listen (TNode card) "click" HStatsClick);;
  exportBtn <- gets (λ w, getElementById (w_dom w) "exportBtn");;
  (match exportBtn with
   | Some n => listen (TNode n) "click" HExportClick
   | None => ret tt
   end);;
  btns <- gets (λ w, querySelectorAll (w_dom w) sel_period);;
  forEach btns (λ btn, listen (TNode btn) "click" HPeriodClick).

(** Lines 223-228: [e.currentTarget] is read again when the timer fires. *)
Definition interactiveClick (e : Event) : M unit :=
  p <- polos_present;;
  if p then
    setLoading (LNode (node_of (ev_currentTarget e))) true None;;
    _ <- setTimeout CbInteractiveDone 1000;; ret tt
  else ret tt.

(** Line 226, when the timer fires: the event's dispatch is over, so its
    [currentTarget] is [null]. *)
Definition interactiveDone : M unit := setLoading (LNode None) false None.

(** Lines 233-236. *)
Definition statsClick (e : Event) : M unit :=
  cur <- deref (node_of (ev_currentTarget e)) "getAttribute";;
  statsType <- gets (λ w, getAttribute (w_dom w) cur "data-stats");;
  console_log ("Viewing detailed " +:+ default "null" statsType +:+ " statistics").

(** Lines 242-250. *)
Definition exportClick (e : Event) : M unit :=
  p <- polos_present;;
  if p then
    setLoading (LSelector "#chartContainer") true (Some "Generating report...");;
    _ <- setTimeout CbExportDone 2000;; ret tt
  else ret tt.

Definition exportDone : M unit :=
  setLoading (LSelector "#chartContainer") false None;;
  emit (OAlert "Report exported successfully!").

(** Lines 255-264. *)
Definition periodClick (e : Event) : M unit :=
  cur <- deref (node_of (ev_currentTarget e)) "getAttribute";;
  period <- gets (λ w, default "null" (getAttribute (w_dom w) cur "data-period"));;
  p <- polos_present;;
  if p then
    setLoading (LSelector "#chartContainer") true (Some ("Loading " +:+ period +:+ " data..."));;
    _ <- setTimeout (CbPeriodDone period) 1000;; ret tt
  else ret tt.

Definition periodDone (period : string) : M unit :=
  setLoading (LSelector "#chartContainer") false None;;
  console_log ("Switched to " +:+ period +:+ " view").

(** Lines 268-274. *)
Definition setupPolosEvents : M unit :=
  p <- polos_present;;
  if p then polos_on "screenChange" PScreenChange else ret tt.

(** Line 271: the [screenChange] callback. *)
Definition onScreenChange (from to : string) : M unit :=
  console_log ("Screen changed from " +:+ from +:+ " to " +:+ to).

(** Lines 208-211: the [initialized] callback. *)
Definition onPolosInitialized : M unit :=
  enhanceInteractiveElements;; setupPolosEvents.

(** A [Polos.on] callback, called by the framework with the payload of
    its event. *)
Definition run_polos (cb : PolosCb) (from to : string) : M unit :=
  match cb with
  | PInitialized => onPolosInitialized
  | PScreenChange => onScreenChange from to
  end.

(** Lines 205-218. *)
Definition setupPolosIntegration : M unit :=
  p <- polos_present;;
  if p then polos_on "initialized" PInitialized
  else _ <- setTimeout CbFallbackEnhance 100;; ret tt.

(** Lines 277-280. *)
Definition refresh : M unit :=
  setupSubmenuToggle;; enhanceInteractiveElements.
