(* ===== verification/Controller.v ===== *)
(** * The controller: construction, event dispatch and the event loop
    (admin-polos.js, lines 8-53 and 289-297)

    [new AdminPolos()] reads the elements by id, then [init] registers the
    listeners, applies the layout, sets up auto-hover and the Polos
    integration.  Afterwards the page evolves by inputs: clicks (dispatched
    along the bubbling path, honouring [stopPropagation]), pointer
    entering or leaving the sidebar, window resizes, timers firing, Polos
    notifications and calls of the public methods. *)

From S2P Require Import Prelude Dom Runtime Page Submenu Layout Dropdown Hover Polos.

(** Lines 33-53. *)
Definition setupEventListeners : M unit :=
  st <- getCtl c_sidebarToggle;; n1 <- deref st "addEventListener";;
  listen (TNode n1) "click" HSidebarToggle;;
  ov <- getCtl c_overlay;; n2 <- deref ov "addEventListener";;
  listen (TNode n2) "click" HOverlayClick;;
  um <- getCtl c_userMenu;; n3 <- deref um "addEventListener";;
  listen (TNode n3) "click" HUserMenuClick;;
  listen TDocument "click" HDocumentClick;;
  listen TWindow "resize" HWindowResize;;
  btns <- getCtl c_layoutButtons;;
  forEach btns (λ btn, listen (TNode btn) "click" HLayoutButton).

(** Lines 24-31. *)
Definition init : M unit :=
  setupEventListeners;;
  setupLayoutSystem;;
  setupAutoHover;;
  setupPolosIntegration;;
  console_log "🚀 Admin Polos v1.0 Initialized".

(** Lines 9-22; the class field [handleSubmenuClick] (line 156) is a
    function object created before the constructor body runs. *)
Definition construct : M unit :=
  fn <- new_closure;;
  d <- gets w_dom;;
  modify_ctl (λ _, mkCtl (getElementById d "sidebar") (getElementById d "sidebarToggle")
                         (getElementById d "overlay") (getElementById d "userMenu")
                         (getElementById d "userDropdown")
                         (querySelectorAll d (SClass "layout-btn"))
                         None false (Some "full") fn);;
  init.

(** Lines 292-294: the body of the [DOMContentLoaded] listener.  The
    instance is published as [window.adminPolos] once the constructor
    has returned; when it throws, nothing is published. *)
Definition onDOMContentLoaded : M unit :=
  construct;; modify (λ w, set_globals ({["adminPolos"]} ∪ w_globals w) w).

(** Lines 291-297, the script itself: it registers the listener above
    (line 292) and publishes the class as [window.AdminPolos] (line 297).
    The browser calls the listener once, when the document is parsed;
    [page_load] below is that call. *)
Definition script : M unit :=
  modify (λ w, set_globals ({["AdminPolos"]} ∪ w_globals w) w).

(** The script, then [DOMContentLoaded]: an exception of the listener is
    reported. *)
Definition page_load : M unit := script;; catch_report onDOMContentLoaded.

(** ** Running listeners and callbacks *)

Definition run_handler (h : Handler) (e : Event) : M unit :=
  match h with
  | HSidebarToggle => toggleSidebar
  | HOverlayClick => closeMobileSidebar
  | HUserMenuClick => toggleUserDropdown e
  | HDocumentClick => handleOutsideClick e
  | HWindowResize => handleResize
  | HLayoutButton => changeLayout e
  | HMouseEnter => onMouseEnter e
  | HMouseLeave => onMouseLeave e
  | HSubmenuClick => handleSubmenuClick e
  | HInteractiveClick => interactiveClick e
  | HStatsClick => statsClick e
  | HExportClick => exportClick e
  | HPeriodClick => periodClick e
  end.

Definition run_callback (cb : Callback) : M unit :=
  match cb with
  | CbHoverExpand => hoverExpand
  | CbHoverCollapse => hoverCollapse
  | CbFallbackEnhance => enhanceInteractiveElements
  | CbInteractiveDone => interactiveDone
  | CbExportDone => exportDone
  | CbPeriodDone p => periodDone p
  end.

(** ** Event dispatch *)

Definition listeners_at (w : World) (t : EvTarget) (ty : string) : list Listener :=
  filter (λ l, l_target l = t ∧ l_type l = ty) (w_listeners w).

Definition with_currentTarget (t : EvTarget) (e : Event) : Event :=
  mkEvent (ev_type e) (ev_target e) t (ev_relatedTarget e).

(** The targets an event visits: a [click] bubbles from its target
    through its ancestors to the document and the window; [mouseenter],
    [mouseleave] and [resize] stay on their target. *)
Definition event_path (d : Dom) (e : Event) : list EvTarget :=
  if ev_type e === "click" then
    match ev_target e with
    | TNode n => (TNode <$> ancestors (length d) d n) ++ [TDocument; TWindow]
    | TDocument => [TDocument; TWindow]
    | TWindow => [TWindow]
    end
  else [ev_target e].

(** The listeners of one target, registered when the event reaches it,
    run in registration order; [stopPropagation] takes effect after the
    current target. *)
Fixpoint propagate (path : list EvTarget) (e : Event) : M unit :=
  match path with
  | [] => ret tt
  | t :: path' =>
      ls <- gets (λ w, listeners_at w t (ev_type e));;
      forEach ls (λ l, catch_report (run_handler (l_handler l) (with_currentTarget t e)));;
      stopped <- gets w_stopped;;
      if stopped then ret tt else propagate path' e
  end.

Definition dispatch (e : Event) : M unit :=
  modify (set_evflags false false);;
  path <- gets (λ w, event_path (w_dom w) e);;
  propagate path e.

(** [Polos] emitting [name] with the [screenChange] payload. *)
Definition polos_emit (name from to : string) : M unit :=
  subs <- gets (λ w, default [] (w_polos w));;
  forEach subs (λ s, if s.1 === name then catch_report (run_polos s.2 from to) else ret tt).

(** ** Timers *)

(** The pending timer that fires next: the earliest due, and among
    those the first scheduled. *)
Fixpoint earliest (ts : list Timer) : option Timer :=
  match ts with
  | [] => None
  | t :: ts' =>
      match earliest ts' with
      | Some u => if Z.leb (tm_due t) (tm_due u) then Some t else Some u
      | None => Some t
      end
  end.

Definition fire_timer : M unit :=
  ts <- gets w_timers;;
  match earliest ts with
  | None => ret tt
  | Some t =>
      modify (λ w, set_now (Z.max (w_now w) (tm_due t))
                     (set_timers (filter (λ u, tm_id u ≠ tm_id t) (w_timers w))
                                 (w_nextTimer w) w));;
      catch_report (run_callback (tm_cb t))
  end.

(** ** Which listeners the page has *)

Definition no_listener (h : Handler) (w : World) : Prop :=
  ∀ l, l ∈ w_listeners w → l_handler l ≠ h.

Lemma no_listener_addEventListener h t ty fn h' :
  h' ≠ h → preserves (no_listener h) (addEventListener t ty fn h').
Proof.
  intros Hh w Hw. simpl. case_decide; [done|]. intros l. simpl.
  rewrite elem_of_app, list_elem_of_singleton. intros [Hl| ->]; [by apply Hw|done].
Qed.

Lemma no_listener_listen h t ty h' : h' ≠ h → preserves (no_listener h) (listen t ty h').
Proof.
  intros Hh. unfold listen. apply preserves_bind; [by intros w|].
  intros fn. by apply no_listener_addEventListener.
Qed.

(** Unfold the primitives that only touch the document, the controller
    fields, storage, output, timers or Polos subscriptions, and close
    [preserves] for a property of the listeners. *)
Ltac listeners_frame :=
  unfold cl_add, cl_remove, cl_toggle, cl_contains, modify_dom, modify_ctl, getCtl,
    getItem, setItem, emit, console_log, setLoading, polos_on, polos_present,
    stopPropagation, preventDefault, clearTimeout;
  preserves_split;
  try (apply preserves_modify; intros ?w ?Hw; simpl; try (destruct (w_polos _)); done);
  try (intros ?w ?Hw; done).

Lemma closeAllSubmenus_no_listener h : preserves (no_listener h) closeAllSubmenus.
Proof. unfold closeAllSubmenus. listeners_frame. Qed.

Lemma setLayout_no_listener h v : preserves (no_listener h) (setLayout v).
Proof.
  unfold setLayout. listeners_frame. all: apply closeAllSubmenus_no_listener.
Qed.

Lemma setupLayoutSystem_no_listener h : preserves (no_listener h) setupLayoutSystem.
Proof. unfold setupLayoutSystem. listeners_frame. all: apply setLayout_no_listener. Qed.

#[export] Hint Resolve closeAllSubmenus_no_listener setLayout_no_listener
  setupLayoutSystem_no_listener no_listener_listen : polos.

(** [init] registers no [handleSubmenuClick] listener: [setupSubmenuToggle]
    is called only from [refresh]. *)
Lemma init_no_submenu_listener : preserves (no_listener HSubmenuClick) init.
Proof.
  unfold init, setupEventListeners, setupAutoHover, setupPolosIntegration.
  listeners_frame; auto with polos; apply no_listener_listen; discriminate.
Qed.

(** ** Inputs: what the user, the browser and the page's scripts do *)

Inductive Input :=
| IClick (n : nat)                  (** a click on element [n] *)
| IEnterSidebar (from : option nat)  (** the pointer enters the sidebar *)
| ILeaveSidebar (to : option nat)    (** the pointer leaves the sidebar *)
| IResize (width : Z)
| ITimer                             (** the next timer fires *)
| IPolos (name from to : string)     (** Polos emits an event *)
| IRefresh                           (** [adminPolos.refresh()] *)
| ISetLayout (v : jsstring).         (** [adminPolos.setLayoutManually(v)] *)

Definition click_event (n : nat) : Event := mkEvent "click" (TNode n) (TNode n) None.

(** A page script calling a method of [window.adminPolos]: a [TypeError]
    when the constructor threw and the instance was never published; an
    exception of the method is reported. *)
Definition page_call (m : M unit) : M unit :=
  inst <- gets (λ w, bool_decide ("adminPolos" ∈ w_globals w));;
  if inst then catch_report m else emit (OError (TypeError "adminPolos")).

Definition handle_input (i : Input) : M unit :=
  match i with
  | IClick n => dispatch (click_event n)
  | IEnterSidebar r =>
      sb <- getCtl c_sidebar;;
      match sb with Some s => dispatch (mkEvent "mouseenter" (TNode s) (TNode s) r) | None => ret tt end
  | ILeaveSidebar r =>
      sb <- getCtl c_sidebar;;
      match sb with Some s => dispatch (mkEvent "mouseleave" (TNode s) (TNode s) r) | None => ret tt end
  | IResize x => modify (set_innerWidth x);; dispatch (mkEvent "resize" TWindow TWindow None)
  | ITimer => fire_timer
  | IPolos name f t => polos_emit name f t
  | IRefresh => page_call refresh
  | ISetLayout v => page_call (setLayoutManually v)
  end.

(** The worlds a page reaches from [w0]. *)
Inductive reachable (w0 : World) : World → Prop :=
| reach_load : reachable w0 (final (page_load w0))
| reach_step w i : reachable w0 w → reachable w0 (final (handle_input i w)).

(** ** Properties of the whole page *)

Lemma no_listener_set_out h o w : no_listener h w → no_listener h (set_out o w).
Proof. done. Qed.

(** The script and its [DOMContentLoaded] listener add no submenu
    listener, whether the constructor returns or throws. *)
Lemma page_load_no_submenu_listener : preserves (no_listener HSubmenuClick) page_load.
Proof.
  unfold page_load, script, onDOMContentLoaded, construct, new_closure, modify_ctl.
  preserves_split; try (apply preserves_modify; intros w' Hw'; done).
  apply preserves_catch_report; [|intros ??; apply no_listener_set_out].
  preserves_split; try (apply preserves_modify; intros w' Hw'; done).
  apply init_no_submenu_listener.
Qed.

(** C14. Page load never binds the submenu handler: from a page with no
    listeners, the script and its [DOMContentLoaded] listener leave no
    [handleSubmenuClick] listener, whether the constructor succeeds or
    throws.  Submenus are only click-driven after a call of [refresh()]. *)
Theorem load_binds_no_submenu_handler (w : World) :
  w_listeners w = [] →
  ∀ l, l ∈ w_listeners (final (page_load w)) → l_handler l ≠ HSubmenuClick.
Proof.
  intros Hw. apply page_load_no_submenu_listener. unfold no_listener. rewrite Hw. intros l Hl. inversion Hl.
Qed.

Definition sample_page : World := sample_world 1024 ∅.

Lemma load_binds_no_submenu_handler_witness :
  Forall (λ l, l_handler l ≠ HSubmenuClick) (w_listeners (final (page_load sample_page))).
Proof. apply Forall_forall, load_binds_no_submenu_handler. reflexivity. Defined.

(** The world after page load and the inputs, step by step. *)
Definition run_from (w0 : World) (inputs : list Input) : World :=
  foldl (λ w i, final (handle_input i w)) (final (page_load w0)) inputs.

Lemma run_from_reachable w0 inputs : reachable w0 (run_from w0 inputs).
Proof.
  unfold run_from. rewrite <-(reverse_involutive inputs).
  induction (reverse inputs) as [|i l IH]; [constructor|].
  rewrite reverse_cons, foldl_app. simpl. by constructor.
Qed.
(** C32. A page without [#overlay] is left half-initialised:
    [setupEventListeners] has registered the sidebar toggle's listener
    (line 35) when [this.overlay.addEventListener] (line 38) throws a
    [TypeError]; the exception escapes the constructor and is reported,
    [window.adminPolos] is never assigned, so every later page call of
    [adminPolos.refresh()] or [setLayoutManually] throws a [TypeError]
    too, while the toggle listener stays live. *)
Theorem load_without_overlay (w0 : World) (n : nat) :
  getElementById (w_dom w0) "sidebarToggle" = Some n →
  getElementById (w_dom w0) "overlay" = None →
  w_listeners w0 = [] → "adminPolos" ∉ w_globals w0 →
  let w := final (page_load w0) in
  w_out w = w_out w0 ++ [OError (TypeError "addEventListener")] ∧
  w_listeners w = [mkListener (TNode n) "click" (S (w_nextFn w0)) HSidebarToggle] ∧
  c_overlay (w_ctl w) = None ∧
  ∀ m, page_call m w = Ok tt (set_out (w_out w ++ [OError (TypeError "adminPolos")]) w).
Proof.
  intros Hst Hov Hl Hg. unfold page_load, script, catch_report, onDOMContentLoaded, construct, init,
    setupEventListeners. run. rewrite Hst. run. rewrite Hl. rewrite decide_False by inversion 1.
  run. rewrite Hov. run. split_and!; try done.
  intros m. unfold page_call. run. rewrite bool_decide_eq_false_2 by set_solver. done.
Qed.

(** The sample page whose overlay lost its id. *)
Definition no_overlay_page : World :=
  set_dom (<[11 := el None "div" (Some 0) ["overlay"] []]> sample_dom) (sample_world 500 ∅).

(** On that page, after the failed load, a click on the toggle on a
    phone still opens the sidebar (1) and reports a second [TypeError]
    from [this.overlay.classList]; the overlay is never shown. *)
Lemma load_without_overlay_witness :
  (let w := final (page_load no_overlay_page) in
   w_out w = [OError (TypeError "addEventListener")] ∧
   w_listeners w = [mkListener (TNode 10) "click" 2 HSidebarToggle] ∧ c_overlay (w_ctl w) = None ∧
   ∀ m, page_call m w = Ok tt (set_out (w_out w ++ [OError (TypeError "adminPolos")]) w)) ∧
  classList_contains "open" 1 (w_dom (run_from no_overlay_page [IClick 10])) = true ∧
  classList_contains "active" 11 (w_dom (run_from no_overlay_page [IClick 10])) = false ∧
  w_out (run_from no_overlay_page [IClick 10]) =
    [OError (TypeError "addEventListener"); OError (TypeError "classList")].
Proof.
  split; [|vm_compute; split_and!; reflexivity].
  apply (load_without_overlay no_overlay_page 10); [reflexivity|reflexivity|reflexivity|set_solver].
Defined.

