(* ===== verification/Invariants.v ===== *)
(** * Invariants of every reachable page

    A frame theorem: a property of the world that survives each primitive
    update the code performs (a class-list change, a field of the
    controller, a [localStorage] write, scheduling or cancelling a timer,
    registering or removing a listener, a Polos subscription, an output the
    program can produce, the event flags) holds in every world the page
    reaches.  Instances: the outputs are those the program emits, so a
    loading indicator set on an element is never cleared on it; a page
    loaded narrow never gets hover listeners; the hover timer slot holds
    the only pending hover timer; and the submenu handler, one function
    object, is registered at most once per element. *)

From S2P Require Import Prelude Dom Runtime Page Submenu Layout Dropdown Hover Polos Controller.

(** The outputs the code can produce. *)
Inductive program_output : Output → Prop :=
| po_error ex : program_output (OError ex)
| po_console s : program_output (OConsole s)
| po_alert : program_output (OAlert "Report exported successfully!")
| po_loading_on t : program_output (OSetLoading (LNode t) true None)
| po_loading_off : program_output (OSetLoading (LNode None) false None)
| po_chart b txt : program_output (OSetLoading (LSelector "#chartContainer") b txt).

Create HintDb frame discriminated.

(** What a property of the world must survive: each primitive update the
    code performs.  Two are restricted: a write of the controller fields
    that keeps [hoverTimeout], and scheduling a timer whose callback is
    not a hover callback; the hover listeners, which do both, are
    hypotheses of the frame theorem.  [allowed] restricts the listeners
    that may be registered, and the listeners registered after load must
    be allowed. *)
Class FrameConds (P : World → Prop) (allowed : string → Handler → Prop) : Prop := {
  F_dom : ∀ w f n, P w → P (set_dom (classList_update f n (w_dom w)) w);
  F_ctl : ∀ w c, c_hoverTimeout c = c_hoverTimeout (w_ctl w) → c_submenuFn c = c_submenuFn (w_ctl w) →
    P w → P (set_ctl c w);
  F_storage : ∀ w k v, P w → P (set_storage (<[k:=v]> (w_storage w)) w);
  F_timer_add : ∀ w due cb, is_hover_cb cb = false → P w →
    P (set_timers (w_timers w ++ [mkTimer (w_nextTimer w) due cb]) (S (w_nextTimer w)) w);
  F_timer_del : ∀ w i, P w →
    P (set_timers (filter (λ t, tm_id t ≠ i) (w_timers w)) (w_nextTimer w) w);
  F_closure : ∀ w, P w → P (set_listeners (w_listeners w) (S (w_nextFn w)) w);
  F_listen : ∀ w l, allowed (l_type l) (l_handler l) →
    (l_handler l = HSubmenuClick → l_fn l = c_submenuFn (w_ctl w) ∧ l_type l = "click") →
    ¬ Exists (same_listener (l_target l) (l_type l) (l_fn l)) (w_listeners w) → P w →
    P (set_listeners (w_listeners w ++ [l]) (w_nextFn w) w);
  F_unlisten : ∀ w t ty fn, P w →
    P (set_listeners (filter (λ l, ¬ same_listener t ty fn l) (w_listeners w)) (w_nextFn w) w);
  F_polos : ∀ w subs, P w → P (set_polos (Some subs) w);
  F_out : ∀ w o, program_output o → P w → P (set_out (w_out w ++ [o]) w);
  F_flags : ∀ w a b, P w → P (set_evflags a b w);
  F_globals : ∀ w g, P w → P (set_globals g w);
  A_submenu : allowed "click" HSubmenuClick;
  A_interactive : allowed "click" HInteractiveClick;
  A_stats : allowed "click" HStatsClick;
  A_export : allowed "click" HExportClick;
  A_period : allowed "click" HPeriodClick
}.

(** What the browser changes between inputs: the width and the clock. *)
Definition env_closed (P : World → Prop) : Prop :=
  (∀ w x, P w → P (set_innerWidth x w)) ∧ (∀ w t, P w → P (set_now t w)).

(** The unrestricted versions of the two restricted conditions. *)
Definition ctl_closed (P : World → Prop) : Prop := ∀ w c, P w → P (set_ctl c w).
Definition timers_closed (P : World → Prop) : Prop := ∀ w due cb, P w →
  P (set_timers (w_timers w ++ [mkTimer (w_nextTimer w) due cb]) (S (w_nextTimer w)) w).

Section frame.
Context (P : World → Prop) (allowed : string → Handler → Prop) `{!FrameConds P allowed}.

(** The primitives. *)
Lemma pres_modify_dom f n : preserves P (modify_dom (classList_update f n)).
Proof. apply preserves_modify. intros w. apply F_dom. Qed.
Lemma pres_modify_dom_gen (h : Dom → Dom) :
  (∀ d, ∃ f n, h d = classList_update f n d) → preserves P (modify_dom h).
Proof. intros Hh. apply preserves_modify. intros w Hw. destruct (Hh (w_dom w)) as (f&n&->). by apply F_dom. Qed.
Lemma pres_cl_add r c : preserves P (cl_add r c).
Proof. unfold cl_add. preserves_split. apply pres_modify_dom. Qed.
Lemma pres_cl_remove r l : preserves P (cl_remove r l).
Proof. unfold cl_remove. preserves_split. apply pres_modify_dom. Qed.
Lemma pres_cl_toggle r c : preserves P (cl_toggle r c).
Proof. unfold cl_toggle. preserves_split. apply pres_modify_dom. Qed.
Lemma pres_cl_contains r c : preserves P (cl_contains r c).
Proof. unfold cl_contains. preserves_split. Qed.
Lemma pres_modify_ctl f :
  (∀ c, c_hoverTimeout (f c) = c_hoverTimeout c) → (∀ c, c_submenuFn (f c) = c_submenuFn c) →
  preserves P (modify_ctl f).
Proof. intros Hf Hg. apply preserves_modify. intros w. apply F_ctl; [apply Hf|apply Hg]. Qed.
Lemma pres_getCtl {A} (f : Ctl → A) : preserves P (getCtl f).
Proof. apply preserves_gets. Qed.
Lemma pres_getItem k : preserves P (getItem k).
Proof. apply preserves_gets. Qed.
Lemma pres_setItem k v : preserves P (setItem k v).
Proof. apply preserves_modify. intros w. apply F_storage. Qed.
Lemma pres_emit o : program_output o → preserves P (emit o).
Proof. intros Ho. apply preserves_modify. intros w. by apply F_out. Qed.
Lemma pres_console_log s : preserves P (console_log s).
Proof. apply pres_emit. constructor. Qed.
Lemma pres_setTimeout cb d : is_hover_cb cb = false → preserves P (setTimeout cb d).
Proof. intros Hcb w Hw. by apply F_timer_add. Qed.
Lemma pres_clearTimeout i : preserves P (clearTimeout i).
Proof. destruct i; [intros w Hw; by apply F_timer_del|apply preserves_ret]. Qed.
Lemma pres_listen t ty h : allowed ty h → h ≠ HSubmenuClick → preserves P (listen t ty h).
Proof.
  intros Ha Hh. unfold listen. apply preserves_bind; [intros w Hw; by apply F_closure|].
  intros fn w Hw. simpl. case_decide; [done|by apply F_listen].
Qed.
Lemma pres_removeEventListener t ty fn : preserves P (removeEventListener t ty fn).
Proof. apply preserves_modify. intros w. apply F_unlisten. Qed.
Lemma pres_addEventListener t ty fn h :
  allowed ty h → h ≠ HSubmenuClick → preserves P (addEventListener t ty fn h).
Proof. intros Ha Hh. apply preserves_modify. intros w Hw. case_decide; [done|by apply F_listen]. Qed.
Lemma pres_polos_on name h : preserves P (polos_on name h).
Proof. apply preserves_modify. intros w Hw. destruct (w_polos w); [by apply F_polos|done]. Qed.
Lemma pres_polos_present : preserves P polos_present.
Proof. apply preserves_gets. Qed.
Lemma pres_stop : preserves P stopPropagation.
Proof. apply preserves_modify. intros w. apply F_flags. Qed.
Lemma pres_prevent : preserves P preventDefault.
Proof. apply preserves_modify. intros w. apply F_flags. Qed.
Lemma pres_catch m : preserves P m → preserves P (catch_report m).
Proof. intros Hm. apply preserves_catch_report; [done|]. intros w ex. apply F_out. constructor. Qed.

Hint Resolve pres_modify_dom pres_cl_add pres_cl_remove pres_cl_toggle pres_cl_contains
  pres_modify_ctl pres_getCtl pres_getItem pres_setItem pres_console_log pres_setTimeout
  pres_clearTimeout pres_listen pres_removeEventListener pres_addEventListener pres_polos_on
  pres_polos_present pres_stop pres_prevent pres_catch : frame.

Let A_sub : allowed "click" HSubmenuClick := A_submenu.
Let A_int : allowed "click" HInteractiveClick := A_interactive.
Let A_sta : allowed "click" HStatsClick := A_stats.
Let A_exp : allowed "click" HExportClick := A_export.
Let A_per : allowed "click" HPeriodClick := A_period.
Hint Resolve A_sub A_int A_sta A_exp A_per : frame.
Hint Extern 1 (_ ≠ _) => discriminate : frame.

Ltac frame := repeat (progress (preserves_split; try apply pres_catch));
  try (solve [eauto with frame]);
  try (apply pres_modify_ctl; intros ?; reflexivity);
  try (apply pres_setTimeout; reflexivity);
  try (apply pres_modify_dom_gen; intros ?; do 2 eexists; reflexivity).

(** The components. *)
Lemma pres_closeAllSubmenus : preserves P closeAllSubmenus.
Proof. unfold closeAllSubmenus. frame. Qed.
Lemma pres_closeOtherSubmenus k : preserves P (closeOtherSubmenus k).
Proof. unfold closeOtherSubmenus. frame. Qed.
Hint Resolve pres_closeAllSubmenus pres_closeOtherSubmenus : frame.
Lemma pres_setLayout v : preserves P (setLayout v).
Proof. unfold setLayout. frame. Qed.
Hint Resolve pres_setLayout : frame.
Lemma pres_setupLayoutSystem : preserves P setupLayoutSystem.
Proof. unfold setupLayoutSystem. frame. Qed.
Lemma pres_closeMobileSidebar : preserves P closeMobileSidebar.
Proof. unfold closeMobileSidebar. frame. Qed.
Hint Resolve pres_setupLayoutSystem pres_closeMobileSidebar : frame.
Lemma pres_submenu_guard : preserves P submenu_guard.
Proof. unfold submenu_guard. frame. Qed.
(** The submenu handler is registered with the function object the
    controller holds, which no link's registration changes. *)
Lemma pres_setupSubmenuToggle : preserves P setupSubmenuToggle.
Proof.
  intros w Hw. unfold setupSubmenuToggle, bind at 1 2, gets, getCtl.
  set (fn := c_submenuFn (w_ctl w)).
  enough (preserves (λ w', P w' ∧ c_submenuFn (w_ctl w') = fn)
            (forEach (querySelectorAll (w_dom w) sel_has_sub_link) (λ link,
               removeEventListener (TNode link) "click" fn;; addEventListener (TNode link) "click" fn HSubmenuClick)))
    as Hf by (by apply Hf).
  apply preserves_forEach. intros link. apply preserves_bind.
  - intros w1 [H1 E1]. split; [by apply F_unlisten|done].
  - intros [] w1 [H1 E1]. unfold addEventListener, modify. simpl.
    case_decide; (split; [|done]); [done|].
    apply F_listen; [exact A_submenu|simpl; by rewrite E1|done|done].
Qed.
Lemma pres_enhance : preserves P enhanceInteractiveElements.
Proof. unfold enhanceInteractiveElements. frame. Qed.
Lemma pres_setupPolosEvents : preserves P setupPolosEvents.
Proof. unfold setupPolosEvents. frame. Qed.
Hint Resolve pres_submenu_guard pres_setupSubmenuToggle pres_enhance pres_setupPolosEvents : frame.

(** The hover listeners, for a property closed under every write of the
    controller fields and every timer. *)
Lemma pres_onMouseEnter_gen e : ctl_closed P → timers_closed P → preserves P (onMouseEnter e).
Proof.
  intros Hc Ht. unfold onMouseEnter. frame.
  all: first [apply preserves_modify; intros ?w ?Hw; by apply Hc | intros ?w ?Hw; by apply Ht].
Qed.
Lemma pres_onMouseLeave_gen e : ctl_closed P → timers_closed P → preserves P (onMouseLeave e).
Proof.
  intros Hc Ht. unfold onMouseLeave. frame.
  all: first [apply preserves_modify; intros ?w ?Hw; by apply Hc | intros ?w ?Hw; by apply Ht].
Qed.

Lemma pres_run_polos cb from to : preserves P (run_polos cb from to).
Proof. destruct cb; simpl; unfold onPolosInitialized, onScreenChange; frame. Qed.
Hint Resolve pres_run_polos : frame.

Lemma pres_run_callback cb : preserves P (run_callback cb).
Proof.
  destruct cb; simpl;
    unfold hoverExpand, hoverCollapse, interactiveDone, exportDone, periodDone, setLoading;
    frame; apply pres_emit; constructor.
Qed.
Hint Resolve pres_run_callback : frame.

(** Page load, given that the listeners of [setupEventListeners] are
    allowed, that [setupAutoHover] keeps [P], and that [P] survives the
    constructor's initialisation of the controller fields. *)
Lemma pres_page_load_gen :
  allowed "click" HSidebarToggle → allowed "click" HOverlayClick →
  allowed "click" HUserMenuClick → allowed "click" HDocumentClick →
  allowed "resize" HWindowResize → allowed "click" HLayoutButton →
  preserves P setupAutoHover → ctl_closed P → preserves P page_load.
Proof.
  intros ?????? Hh Hc. unfold page_load, script, onDOMContentLoaded, construct, init,
    setupEventListeners, setupPolosIntegration, new_closure.
  frame. all: first [intros w Hw; apply F_closure, Hw | apply preserves_modify; intros w Hw; by apply Hc
                    | apply preserves_modify; intros w Hw; by apply F_globals].
Qed.

Lemma pres_setupAutoHover :
  allowed "mouseenter" HMouseEnter → allowed "mouseleave" HMouseLeave → preserves P setupAutoHover.
Proof. intros ??. unfold setupAutoHover. frame. Qed.

Section after_load.
Hypothesis H_env : env_closed P.
Hypothesis H_enter : ∀ e, preserves P (onMouseEnter e).
Hypothesis H_leave : ∀ e, preserves P (onMouseLeave e).
Hint Resolve H_enter H_leave : frame.

Lemma pres_run_handler h e : preserves P (run_handler h e).
Proof.
  destruct h; simpl;
    unfold toggleSidebar, changeLayout, toggleUserDropdown, handleOutsideClick, handleResize,
      handleSubmenuClick, interactiveClick, statsClick,
      exportClick, periodClick, onPolosInitialized, setLoading;
    frame; apply pres_emit; constructor.
Qed.
Hint Resolve pres_run_handler : frame.

Lemma pres_propagate path e : preserves P (propagate path e).
Proof. induction path as [|t path IH]; simpl; frame. Qed.
Hint Resolve pres_propagate : frame.

Lemma pres_dispatch e : preserves P (dispatch e).
Proof. unfold dispatch. frame. apply preserves_modify. intros w. apply F_flags. Qed.
Hint Resolve pres_dispatch : frame.

Lemma pres_handle_input i : preserves P (handle_input i).
Proof.
  destruct i; simpl; unfold fire_timer, polos_emit, page_call, refresh, setLayoutManually; frame.
  all: first [ apply preserves_modify; intros w Hw; first [apply H_env, Hw | apply H_env, F_timer_del, Hw]
             | apply pres_emit; constructor ].
Qed.

(** Every world reached from one whose load yields [P] satisfies [P]. *)
Lemma reachable_after_load w0 w :
  P (final (page_load w0)) → reachable w0 w → P w.
Proof.
  intros H0 Hr. induction Hr as [|w i _ IH]; [done|by apply pres_handle_input].
Qed.
End after_load.
End frame.

(** The frame theorem: a property that survives every primitive update,
    with every listener allowed, holds in every world the page reaches
    from a world satisfying it. *)
Lemma reachable_frame (P : World → Prop) `{!FrameConds P (λ _ _, True)} w0 w :
  ctl_closed P → timers_closed P → env_closed P → P w0 → reachable w0 w → P w.
Proof.
  intros Hc Ht He H0. apply (reachable_after_load P (λ _ _, True)); [done
    |intros; by apply (pres_onMouseEnter_gen P (λ _ _, True))
    |intros; by apply (pres_onMouseLeave_gen P (λ _ _, True))|].
  apply (pres_page_load_gen P (λ _ _, True)); auto.
  by apply (pres_setupAutoHover P (λ _ _, True)).
Qed.

(** Discharge the frame conditions that hold because the update does not
    touch what the property reads. *)
Ltac frame_trivial := unfold ctl_closed, timers_closed; intros; simpl; done.

Lemma timers_wf_add w due cb :
  timers_wf w →
  timers_wf (set_timers (w_timers w ++ [mkTimer (w_nextTimer w) due cb]) (S (w_nextTimer w)) w).
Proof.
  intros [Hnd Hlt]. split; simpl.
  - rewrite fmap_app. apply NoDup_app. split_and!; [done| |by apply NoDup_singleton].
    intros x Hx. apply list_elem_of_fmap in Hx as (t&->&Ht). specialize (Hlt t Ht).
    simpl. rewrite list_elem_of_singleton. lia.
  - intros t. rewrite elem_of_app, list_elem_of_singleton. intros [Ht| ->]; simpl; [|lia].
    specialize (Hlt t Ht). lia.
Qed.

Lemma timers_wf_del w i :
  timers_wf w →
  timers_wf (set_timers (filter (λ t, tm_id t ≠ i) (w_timers w)) (w_nextTimer w) w).
Proof.
  intros [Hnd Hlt]. split; simpl; [by apply NoDup_fmap_filter|].
  intros t Ht. apply list_elem_of_filter in Ht as [_ Ht]. by apply Hlt.
Qed.

Definition outputs_ok (w : World) : Prop := Forall program_output (w_out w).

#[local] Instance outputs_frame : FrameConds outputs_ok (λ _ _, True).
Proof.
  split; try frame_trivial.
  intros w' o Ho H. unfold outputs_ok. simpl. apply Forall_app. split; [done|by constructor].
Qed.

(** Every output of a reachable page is one the program emits. *)
Lemma reachable_outputs (w0 w : World) : outputs_ok w0 → reachable w0 w → outputs_ok w.
Proof. apply (@reachable_frame _ outputs_frame); try split; frame_trivial. Qed.

(** C17. A loading indicator set on an element is never cleared on that
    element: the callback of line 226 reads [e.currentTarget] after the
    dispatch is over, when it is [null], so no reachable page ever calls
    [Polos.setLoading(el, false)] for an element [el]. *)
Theorem loading_never_cleared (w0 w : World) (n : nat) (txt : option string) :
  w_out w0 = [] → reachable w0 w → OSetLoading (LNode (Some n)) false txt ∉ w_out w.
Proof.
  intros H0 Hr Hin. assert (outputs_ok w) as Hok.
  { apply (reachable_outputs w0); [unfold outputs_ok; rewrite H0; constructor|done]. }
  unfold outputs_ok in Hok. rewrite Forall_forall in Hok. specialize (Hok _ Hin). inversion Hok.
Qed.

(** ** A page loaded on a narrow viewport *)

Definition hover_type (ty : string) : Prop := ty = "mouseenter" ∨ ty = "mouseleave".

Definition no_hover_listener (w : World) : Prop :=
  ∀ l, l ∈ w_listeners w → ¬ hover_type (l_type l).

Lemma no_hover_listener_add w l :
  ¬ hover_type (l_type l) → no_hover_listener w →
  no_hover_listener (set_listeners (w_listeners w ++ [l]) (w_nextFn w) w).
Proof.
  intros Hl Hw l'. simpl. rewrite elem_of_app, list_elem_of_singleton.
  intros [?| ->]; [by apply Hw|done].
Qed.

Lemma no_hover_listener_del w t ty fn :
  no_hover_listener w →
  no_hover_listener (set_listeners (filter (λ l, ¬ same_listener t ty fn l) (w_listeners w)) (w_nextFn w) w).
Proof. intros Hw l. simpl. rewrite list_elem_of_filter. intros [_ ?]. by apply Hw. Qed.

Definition narrow_unhovered (w : World) : Prop := no_hover_listener w ∧ (w_innerWidth w ≤ 768)%Z.

Definition not_hover (ty : string) (_ : Handler) : Prop := ¬ hover_type ty.

Ltac not_hover_click := unfold not_hover, hover_type; intros [?|?]; discriminate.

#[local] Instance unhovered_frame : FrameConds no_hover_listener not_hover.
Proof.
  split; try not_hover_click; try frame_trivial;
    [intros ?? Hl _ _; by apply no_hover_listener_add|apply no_hover_listener_del].
Qed.

#[local] Instance narrow_frame : FrameConds narrow_unhovered not_hover.
Proof.
  split; try not_hover_click; try (intros; unfold narrow_unhovered in *; destruct_and!; split; simpl; done).
  - intros w l Hty _ _ [? ?]. split; [by apply no_hover_listener_add|done].
  - intros w t ty fn [? ?]. split; [by apply no_hover_listener_del|done].
Qed.

(** [DOMContentLoaded] on a narrow viewport registers no hover listener:
    [setupAutoHover] returns at its guard (line 116). *)
Lemma load_narrow_unhovered w0 :
  w_listeners w0 = [] → (w_innerWidth w0 ≤ 768)%Z →
  no_hover_listener (final (page_load w0)).
Proof.
  intros Hl Hw.
  enough (preserves narrow_unhovered page_load) as Hp.
  { apply Hp. split; [unfold no_hover_listener; rewrite Hl; intros ? Hin; inversion Hin|done]. }
  apply (pres_page_load_gen narrow_unhovered not_hover); try not_hover_click.
  - intros w [? Hw']. unfold setupAutoHover. run.
    rewrite (proj2 (Z.leb_le _ _) Hw'). by split.
  - intros w c [? ?]. by split.
Qed.

(** C22. Auto-hover is decided once, at load: a page loaded on a narrow
    viewport (at most 768px) has no [mouseenter] or [mouseleave] listener
    in any world it reaches, also after the window is widened to desktop
    width, so its sidebar never auto-expands.  Listeners registered after
    load come only from [refresh()] and the enhancement of interactive
    elements, and they are all click listeners. *)
Theorem narrow_load_never_hovers (w0 w : World) :
  w_listeners w0 = [] → (w_innerWidth w0 ≤ 768)%Z → reachable w0 w →
  ∀ l, l ∈ w_listeners w → l_type l ≠ "mouseenter" ∧ l_type l ≠ "mouseleave".
Proof.
  intros Hl Hw Hr l Hin.
  assert (no_hover_listener w) as Hn.
  { eapply (reachable_after_load no_hover_listener not_hover); [..|exact Hr].
    - split; frame_trivial.
    - intros e. apply (pres_onMouseEnter_gen _ not_hover); frame_trivial.
    - intros e. apply (pres_onMouseLeave_gen _ not_hover); frame_trivial.
    - by apply load_narrow_unhovered. }
  specialize (Hn l Hin). unfold hover_type in Hn. split; intros ?; apply Hn; auto.
Qed.

(** ** The hover timer slot on every reachable page *)

Definition hover_ok (w : World) : Prop := hover_single w ∧ timers_wf w.
Definition hover_load_ok (w : World) : Prop := no_hover_timer w ∧ timers_wf w.

Lemma hover_ok_add w due cb :
  is_hover_cb cb = false → hover_ok w →
  hover_ok (set_timers (w_timers w ++ [mkTimer (w_nextTimer w) due cb]) (S (w_nextTimer w)) w).
Proof.
  intros Hcb [Hs Hwf]. split; [|by apply timers_wf_add].
  intros t. simpl. rewrite elem_of_app, list_elem_of_singleton.
  intros [Ht| ->] Hc; [by apply Hs|simpl in Hc; congruence].
Qed.

Lemma hover_ok_del w i :
  hover_ok w → hover_ok (set_timers (filter (λ t, tm_id t ≠ i) (w_timers w)) (w_nextTimer w) w).
Proof.
  intros [Hs Hwf]. split; [|by apply timers_wf_del].
  intros t Ht. apply list_elem_of_filter in Ht as [_ Ht]. by apply Hs.
Qed.

#[local] Instance hover_frame : FrameConds hover_ok (λ _ _, True).
Proof.
  split; try frame_trivial; [|apply hover_ok_add|apply hover_ok_del].
  intros w c Hc _ [Hs Hwf]. split; [|done]. intros t Ht Hcb. simpl. rewrite Hc. by apply Hs.
Qed.

#[local] Instance hover_load_frame : FrameConds hover_load_ok (λ _ _, True).
Proof.
  split; try frame_trivial.
  - intros w due cb Hcb [Hn Hwf]. split; [|by apply timers_wf_add].
    intros t. simpl. rewrite elem_of_app, list_elem_of_singleton. intros [Ht| ->]; [by apply Hn|done].
  - intros w i [Hn Hwf]. split; [|by apply timers_wf_del].
    intros t Ht. apply list_elem_of_filter in Ht as [_ Ht]. by apply Hn.
Qed.

(** Both hover listeners clear the slot and refill it at most once. *)
Lemma pres_hover_ok_enter e : preserves hover_ok (onMouseEnter e).
Proof.
  intros w [Hs Hwf]. destruct (onMouseEnter_final e w) as [-> | ->]; split; auto 10 with polos.
Qed.

Lemma pres_hover_ok_leave e : preserves hover_ok (onMouseLeave e).
Proof.
  intros w [Hs Hwf]. destruct (onMouseLeave_final e w) as [-> | ->]; split; auto 10 with polos.
Qed.

(** Page load schedules no hover timer. *)
Lemma load_hover_ok w0 : w_timers w0 = [] → hover_ok (final (page_load w0)).
Proof.
  intros H0.
  enough (preserves hover_load_ok page_load) as Hp.
  { destruct (Hp w0) as [Hn Hwf]; [|split; [by apply no_hover_single|done]].
    split; [intros t; rewrite H0; intros Ht; inversion Ht|split; rewrite H0; [constructor|intros t Ht; inversion Ht]]. }
  apply (pres_page_load_gen hover_load_ok (λ _ _, True)); try done.
  - by apply (pres_setupAutoHover hover_load_ok (λ _ _, True)).
  - intros w c [Hn Hwf]. by split.
Qed.

(** C13. On every page the controller reaches from one without pending
    timers, each pending hover timer (expand or collapse) is the one
    [this.hoverTimeout] names, so at most one is pending: the two debounce
    channels share a single slot, and a new [mouseenter] or [mouseleave]
    cancels the other channel's callback.  (The spec says an expand and a
    collapse may both be pending.) *)
Theorem reachable_hover_single (w0 w : World) :
  w_timers w0 = [] → reachable w0 w →
  (∀ t, t ∈ w_timers w → is_hover_cb (tm_cb t) = true → c_hoverTimeout (w_ctl w) = Some (tm_id t)) ∧
  length (filter (λ t, is_hover_cb (tm_cb t) = true) (w_timers w)) ≤ 1.
Proof.
  intros H0 Hr.
  assert (hover_ok w) as [Hs Hwf].
  { eapply (reachable_after_load hover_ok (λ _ _, True)); [split; frame_trivial
      |apply pres_hover_ok_enter|apply pres_hover_ok_leave|by apply load_hover_ok|exact Hr]. }
  split; [done|by apply hover_single_at_most_one].
Qed.

(** ** The listener table *)

Definition listener_key (l : Listener) : EvTarget * string * nat := (l_target l, l_type l, l_fn l).

Definition listeners_nodup (w : World) : Prop := NoDup (listener_key <$> w_listeners w).

#[local] Instance nodup_frame : FrameConds listeners_nodup (λ _ _, True).
Proof.
  split; try frame_trivial.
  - intros w l _ _ Hnot Hnd. unfold listeners_nodup. simpl. rewrite fmap_app.
    apply NoDup_app. split_and!; [done| |apply NoDup_singleton].
    intros k (l'&->&Hl')%list_elem_of_fmap. simpl. rewrite list_elem_of_singleton. intros Heq.
    apply Hnot, Exists_exists. exists l'. split; [done|]. unfold listener_key in Heq.
    injection Heq. unfold same_listener. naive_solver.
  - intros w t ty fn Hnd. by apply NoDup_fmap_filter.
Qed.

(** ** The submenu handler is one function object *)

(** Every submenu listener is a click listener with the function object
    [handleSubmenuClick] the controller holds (line 156). *)
Definition submenu_fn_ok (w : World) : Prop :=
  ∀ l, l ∈ w_listeners w → l_handler l = HSubmenuClick →
       l_fn l = c_submenuFn (w_ctl w) ∧ l_type l = "click".

Definition submenu_listeners_ok (w : World) : Prop := listeners_nodup w ∧ submenu_fn_ok w.

#[local] Instance submenu_frame : FrameConds submenu_listeners_ok (λ _ _, True).
Proof.
  split; try frame_trivial.
  - intros w c _ Hfn [Hnd Hs]. split; [done|]. intros l Hl Hh. simpl. rewrite Hfn. by apply Hs.
  - intros w l Ha Hl Hnot [Hnd Hs]. split; [by apply (@F_listen _ _ nodup_frame w l)|].
    intros l'. simpl. rewrite elem_of_app, list_elem_of_singleton. intros [Hl'| ->]; [by apply Hs|done].
  - intros w t ty fn [Hnd Hs]. split; [by apply NoDup_fmap_filter|].
    intros l (_&Hl)%list_elem_of_filter. by apply Hs.
Qed.

Lemma submenu_ok_ext w w' :
  w_listeners w' = w_listeners w → c_submenuFn (w_ctl w') = c_submenuFn (w_ctl w) →
  submenu_listeners_ok w → submenu_listeners_ok w'.
Proof. intros Hl Hf. unfold submenu_listeners_ok, listeners_nodup, submenu_fn_ok. by rewrite Hl, Hf. Qed.

Lemma clear_hover_frame w : w_listeners (clear_hover w) = w_listeners w ∧ w_ctl (clear_hover w) = w_ctl w.
Proof. unfold clear_hover, clearTimeout. by destruct (c_hoverTimeout (w_ctl w)). Qed.

(** The hover listeners touch only [hoverTimeout], [isHoveringSidebar]
    and the timers. *)
Lemma pres_submenu_enter e : preserves submenu_listeners_ok (onMouseEnter e).
Proof.
  intros w Hw. destruct (onMouseEnter_final e w) as [-> | ->]; apply (submenu_ok_ext w); try done;
    unfold schedule_hover; simpl; rewrite ?(proj1 (clear_hover_frame _)), ?(proj2 (clear_hover_frame _)); done.
Qed.

Lemma pres_submenu_leave e : preserves submenu_listeners_ok (onMouseLeave e).
Proof.
  intros w Hw. destruct (onMouseLeave_final e w) as [-> | ->]; apply (submenu_ok_ext w); try done;
    unfold schedule_hover; simpl; rewrite ?(proj1 (clear_hover_frame _)), ?(proj2 (clear_hover_frame _)); done.
Qed.

(** Load registers no submenu listener at all. *)
Lemma load_submenu_ok w0 : w_listeners w0 = [] → submenu_listeners_ok (final (page_load w0)).
Proof.
  intros H0. split.
  - enough (preserves listeners_nodup page_load) as Hp
      by (apply Hp; unfold listeners_nodup; rewrite H0; constructor).
    apply (pres_page_load_gen listeners_nodup (λ _ _, True)); try done;
      [by apply (pres_setupAutoHover listeners_nodup (λ _ _, True))|frame_trivial].
  - intros l Hl Hh. exfalso. refine (page_load_no_submenu_listener w0 _ l Hl Hh).
    unfold no_listener. rewrite H0. intros ? Hin. inversion Hin.
Qed.

(** C30. [refresh()] never stacks the submenu handler: on every page
    reached from one without listeners, each element has at most one
    [handleSubmenuClick] listener, however often [refresh()] ran.  The
    handler is a class field, one function object per instance (line
    156), and [setupSubmenuToggle] removes it before adding it again
    (lines 151-152); [addEventListener] ignores a second registration of
    the same object. *)
Theorem reachable_submenu_single (w0 w : World) :
  w_listeners w0 = [] → reachable w0 w →
  ∀ t, length (filter (λ l, l_target l = t ∧ l_handler l = HSubmenuClick) (w_listeners w)) ≤ 1.
Proof.
  intros H0 Hr t.
  assert (submenu_listeners_ok w) as [Hnd Hs].
  { eapply (reachable_after_load submenu_listeners_ok (λ _ _, True));
      [split; frame_trivial|apply pres_submenu_enter|apply pres_submenu_leave|by apply load_submenu_ok|exact Hr]. }
  apply (NoDup_fmap_const_length listener_key _ (t, "click", c_submenuFn (w_ctl w)));
    [by apply NoDup_fmap_filter|].
  intros l ((<-&Hh)&Hl)%list_elem_of_filter. destruct (Hs l Hl Hh) as [Hf Ht].
  unfold listener_key. by rewrite Ht, Hf.
Qed.

(** ** Witnesses on the sample page *)

(** The sample page with the Polos framework present. *)
Definition polos_page : World := set_polos (Some []) sample_page.

(** [refresh()], a click on the [.js-interactive] element (18), then the
    one-second timer. *)
Definition interactive_run : list Input := [IRefresh; IClick 18; ITimer].

Lemma loading_never_cleared_witness :
  OSetLoading (LNode (Some 18)) true None ∈ w_out (run_from polos_page interactive_run) ∧
  OSetLoading (LNode (Some 18)) false None ∉ w_out (run_from polos_page interactive_run).
Proof.
  split; [decide_prop|].
  apply (loading_never_cleared polos_page); [reflexivity|apply run_from_reachable].
Defined.

(** A phone-sized load, then the window widened, the pointer entering the
    sidebar and a timer firing. *)
Definition widened_run : list Input := [IResize 1024; IEnterSidebar None; ITimer].

Lemma narrow_load_never_hovers_witness :
  Forall (λ l, l_type l ≠ "mouseenter" ∧ l_type l ≠ "mouseleave")
    (w_listeners (run_from (sample_world 500 ∅) widened_run)).
Proof.
  apply Forall_forall.
  apply (narrow_load_never_hovers (sample_world 500 ∅)); [reflexivity|simpl; lia|apply run_from_reachable].
Defined.

(** Enter the sidebar in the icons layout, leave it, enter it again. *)
Definition hover_run : list Input :=
  [ISetLayout (Some "icons"); IEnterSidebar None; ILeaveSidebar (Some 18); IEnterSidebar (Some 18)].

Lemma reachable_hover_single_witness :
  length (filter (λ t, is_hover_cb (tm_cb t) = true) (w_timers (run_from sample_page hover_run))) = 1 ∧
  length (filter (λ t, is_hover_cb (tm_cb t) = true) (w_timers (run_from sample_page hover_run))) ≤ 1.
Proof.
  split; [reflexivity|].
  apply (reachable_hover_single sample_page); [reflexivity|apply run_from_reachable].
Defined.


(** After three calls of [refresh()] the submenu link (4) has one
    submenu listener. *)
Lemma reachable_submenu_single_witness :
  length (filter (λ l, l_target l = TNode 4 ∧ l_handler l = HSubmenuClick)
     (w_listeners (run_from sample_page [IRefresh; IRefresh; IRefresh]))) = 1 ∧
  length (filter (λ l, l_target l = TNode 4 ∧ l_handler l = HSubmenuClick)
     (w_listeners (run_from sample_page [IRefresh; IRefresh; IRefresh]))) ≤ 1.
Proof.
  split; [vm_compute; reflexivity|].
  apply (reachable_submenu_single sample_page); [reflexivity|apply run_from_reachable].
Defined.
