(* ===== verification/Refresh.v ===== *)
(** * [refresh()] on any page (admin-polos.js, lines 149-154, 220-266 and
    277-280)

    [refresh()] runs [setupSubmenuToggle] and [enhanceInteractiveElements]
    again.  This file states what one call does to the listener table of
    any page: every submenu link gets the submenu handler, and every
    [.js-interactive] element gets one more anonymous click listener.
    Runs are described by Hoare triples over the monad [M]: [hoare P m Q]
    says that from a world satisfying [P], [m] returns (it does not
    throw) in a world satisfying [Q]. *)

From S2P Require Import Prelude Dom Runtime Page Submenu Polos Controller.

Definition hoare {A} (P : World → Prop) (m : M A) (Q : A → World → Prop) : Prop :=
  ∀ w, P w → ∃ a w', m w = Ok a w' ∧ Q a w'.

(** ** Rules *)

Lemma hoare_consequence {A} (P P' : World → Prop) (m : M A) (Q Q' : A → World → Prop) :
  (∀ w, P' w → P w) → (∀ a w, Q a w → Q' a w) → hoare P m Q → hoare P' m Q'.
Proof. intros HP HQ Hm w Hw. destruct (Hm w (HP w Hw)) as (a&w'&E&Hq). eauto. Qed.

Lemma hoare_ret {A} (P : World → Prop) (a : A) : hoare P (ret a) (λ _, P).
Proof. intros w Hw. by exists a, w. Qed.

Lemma hoare_bind {A B} P Q R (m : M A) (k : A → M B) :
  hoare P m Q → (∀ a, hoare (Q a) (k a) R) → hoare P (bind m k) R.
Proof.
  intros Hm Hk w Hw. destruct (Hm w Hw) as (a&w1&E1&H1). destruct (Hk a w1 H1) as (b&w2&E2&H2).
  exists b, w2. unfold bind. by rewrite E1.
Qed.

(** A read of the world: the continuation knows the value read. *)
Lemma hoare_gets_bind {A B} P (f : World → A) (k : A → M B) R :
  (∀ a, hoare (λ w, P w ∧ f w = a) (k a) R) → hoare P (bind (gets f) k) R.
Proof. intros Hk w Hw. apply (Hk (f w) w). by split. Qed.

Lemma hoare_forEach {A} (I : World → Prop) (l : list A) (f : A → M unit) :
  (∀ x, x ∈ l → hoare I (f x) (λ _, I)) → hoare I (forEach l f) (λ _, I).
Proof.
  induction l as [|x l IH]; intros Hf; simpl; [apply hoare_ret|].
  apply hoare_bind with (λ _, I); [apply Hf; set_solver|]. intros _. apply IH. set_solver.
Qed.

(** ** The listener primitives *)

(** The submenu listener of a link. *)
Definition submenu_listener (fn a : nat) : Listener := mkListener (TNode a) "click" fn HSubmenuClick.

(** One link of [setupSubmenuToggle]: after the removal no listener with
    the same target, type and function is left, so the handler is added. *)
Lemma rebind_run fn b w :
  (removeEventListener (TNode b) "click" fn;; addEventListener (TNode b) "click" fn HSubmenuClick) w =
    Ok tt (set_listeners (filter (λ l, ¬ same_listener (TNode b) "click" fn l) (w_listeners w) ++
                          [submenu_listener fn b]) (w_nextFn w) w).
Proof.
  unfold removeEventListener, addEventListener, bind, modify. simpl.
  rewrite decide_False; [done|]. intros (l&(Hn&_)%list_elem_of_filter&Hs)%Exists_exists. done.
Qed.

(** Adding listeners keeps the ones already there. *)
Definition has_listeners (K : Listener → Prop) (w : World) : Prop := ∀ l, K l → l ∈ w_listeners w.

Lemma listen_has K t ty h : hoare (has_listeners K) (listen t ty h) (λ _, has_listeners K).
Proof.
  intros w Hw. unfold listen, new_closure, addEventListener, bind, modify. eexists _, _. split; [done|].
  simpl. case_decide; [done|]. intros l Hl. simpl. rewrite elem_of_app. left. by apply Hw.
Qed.

(** Split a run into its steps, keeping the invariant [I] between them. *)
Ltac hoare_inv I :=
  repeat match goal with
  | |- hoare _ (bind (gets _) _) _ =>
      apply hoare_gets_bind; intros ?; apply (hoare_consequence I _ _ (λ _, I) _); [by intros ? []|done|]
  | |- hoare _ (bind _ _) _ => apply (hoare_bind I (λ _, I)); [|intros _]
  | |- hoare _ (forEach _ _) _ => apply hoare_forEach; intros ? _
  end.

Lemma enhance_has K :
  hoare (has_listeners K) enhanceInteractiveElements (λ _, has_listeners K).
Proof.
  unfold enhanceInteractiveElements. hoare_inv (has_listeners K).
  all: try apply listen_has.
  match goal with |- hoare _ (match ?o with _ => _ end) _ => destruct o end;
    [apply listen_has|apply hoare_ret].
Qed.

(** The submenu listeners of the links in [S] are registered. *)
Definition has_submenu (fn : nat) (S : nat → Prop) (w : World) : Prop :=
  ∀ a, S a → submenu_listener fn a ∈ w_listeners w.

Lemma rebind_links_has fn (links : list nat) (S : nat → Prop) :
  hoare (has_submenu fn S)
    (forEach links (λ link, removeEventListener (TNode link) "click" fn;;
                            addEventListener (TNode link) "click" fn HSubmenuClick))
    (λ _, has_submenu fn (λ a, S a ∨ a ∈ links)).
Proof.
  revert S. induction links as [|b links IH]; intros S; simpl.
  - eapply hoare_consequence; [..|apply hoare_ret]; [intros w' Hw'; exact Hw'|].
    intros [] w' Hw' a [Ha|Ha]; [by apply Hw'|inversion Ha].
  - apply hoare_bind with (λ _, has_submenu fn (λ a, S a ∨ a = b)).
    + intros w Hw. eexists _, _. split; [apply rebind_run|]. intros a Ha. simpl.
      rewrite elem_of_app, list_elem_of_filter, list_elem_of_singleton.
      destruct (decide (a = b)) as [->|Hne]; [by right|]. left. split; [|apply Hw; naive_solver].
      intros (Ht&_). simpl in Ht. congruence.
    + intros _. eapply hoare_consequence; [..|apply IH]; [intros w' Hw'; exact Hw'|].
      intros [] w' Hw' a Ha. apply Hw'. rewrite elem_of_cons in Ha. naive_solver.
Qed.
(** C15. [refresh()] always returns, and afterwards every submenu link
    ([.has-sub > a]) has the submenu handler, the controller's
    [handleSubmenuClick] object, as a click listener: after load (C14)
    submenus only react to clicks once [refresh()] has run. *)
Theorem refresh_binds_submenu_links (w : World) :
  ∃ w', refresh w = Ok tt w' ∧
    ∀ a, a ∈ querySelectorAll (w_dom w) sel_has_sub_link →
      mkListener (TNode a) "click" (c_submenuFn (w_ctl w)) HSubmenuClick ∈ w_listeners w'.
Proof.
  set (links := querySelectorAll (w_dom w) sel_has_sub_link). set (fn := c_submenuFn (w_ctl w)).
  destruct (rebind_links_has fn links (λ _, False) w) as ([]&w1&E1&H1); [by intros ??|].
  destruct (enhance_has (λ l, ∃ a, a ∈ links ∧ l = submenu_listener fn a) w1) as ([]&w2&E2&H2).
  { intros l (a&Ha&->). apply H1. by right. }
  exists w2. split.
  - assert (setupSubmenuToggle w = Ok tt w1) as Es by exact E1.
    unfold refresh. by rewrite (bind_Ok _ _ _ _ _ Es).
  - intros a Ha. apply H2. by exists a.
Qed.

(** ** One more interactive listener per call *)

(** Function objects are fresh: the controller's handler and every
    registered listener have ids below the next one. *)
Definition fresh_fns (w : World) : Prop :=
  c_submenuFn (w_ctl w) < w_nextFn w ∧ ∀ l, l ∈ w_listeners w → l_fn l < w_nextFn w.

(** The [.js-interactive] listeners of element [n] (line 223). *)
Definition icount (n : nat) (w : World) : nat :=
  length (filter (λ l, l_target l = TNode n ∧ l_handler l = HInteractiveClick) (w_listeners w)).

(** The state of a [refresh()] run: fresh ids, [k] interactive listeners
    on [n], the document and the controller as at the start. *)
Definition run_inv (d : Dom) (c : Ctl) (n k : nat) (w : World) : Prop :=
  fresh_fns w ∧ icount n w = k ∧ w_dom w = d ∧ w_ctl w = c.

Lemma run_inv_eq d c n k1 k2 w : k1 = k2 → run_inv d c n k1 w → run_inv d c n k2 w.
Proof. by intros ->. Qed.

Definition bump (n : nat) (t : EvTarget) (h : Handler) : nat :=
  if bool_decide (t = TNode n ∧ h = HInteractiveClick) then 1 else 0.

(** With fresh ids the new closure is never a duplicate: [listen] appends. *)
Lemma listen_inv d c n k t ty h :
  hoare (run_inv d c n k) (listen t ty h) (λ _, run_inv d c n (k + bump n t h)).
Proof.
  intros w ((Hs&Hl)&Hk&Hd&Hc). unfold listen, new_closure, addEventListener, bind, modify.
  eexists _, _. split; [done|]. simpl. rewrite decide_False.
  2:{ intros (l&Hin&(_&_&Hf))%Exists_exists. specialize (Hl l Hin). lia. }
  unfold run_inv, fresh_fns. split_and!; simpl; [lia| | |done|done].
  - intros l. rewrite elem_of_app, list_elem_of_singleton. intros [Hin| ->]; [specialize (Hl l Hin)|]; simpl; lia.
  - unfold icount, bump in *. simpl. rewrite filter_app, length_app, Hk. f_equal. rewrite filter_cons, filter_nil.
    by repeat case_decide; repeat case_bool_decide; naive_solver.
Qed.

Lemma forEach_listen_inv d c n k (els : list nat) h :
  NoDup els →
  hoare (run_inv d c n k) (forEach els (λ x, listen (TNode x) "click" h))
    (λ _, run_inv d c n (k + if bool_decide (n ∈ els ∧ h = HInteractiveClick) then 1 else 0)).
Proof.
  revert k. induction els as [|x els IH]; intros k Hnd; cbn [forEach].
  - eapply hoare_consequence; [..|apply hoare_ret]; [intros w' Hw'; exact Hw'|].
    intros [] w'. apply run_inv_eq. rewrite bool_decide_eq_false_2; [lia|set_solver].
  - apply NoDup_cons in Hnd as [Hx Hnd]. eapply hoare_bind; [apply listen_inv|intros []].
    eapply hoare_consequence; [..|apply IH, Hnd]; [intros w' Hw'; exact Hw'|].
    intros [] w'. apply run_inv_eq. unfold bump. repeat case_bool_decide; try lia; set_solver.
Qed.

Lemma listen_inv_other d c n k t ty h :
  h ≠ HInteractiveClick → hoare (run_inv d c n k) (listen t ty h) (λ _, run_inv d c n k).
Proof.
  intros Hh. eapply hoare_consequence; [..|apply listen_inv]; [intros w' Hw'; exact Hw'|].
  intros [] w'. apply run_inv_eq. unfold bump. rewrite bool_decide_eq_false_2; [lia|naive_solver].
Qed.

(** A submenu link other than [n]: its re-registration leaves the
    listeners of [n] alone, and the handler's id is not fresh but old. *)
Lemma rebind_inv d c n k b :
  b ≠ n →
  hoare (run_inv d c n k)
    (removeEventListener (TNode b) "click" (c_submenuFn c);;
     addEventListener (TNode b) "click" (c_submenuFn c) HSubmenuClick) (λ _, run_inv d c n k).
Proof.
  intros Hb w ((Hs&Hl)&Hk&Hd&Hc). eexists _, _. split; [apply rebind_run|].
  unfold run_inv, fresh_fns. cbn [set_listeners w_dom w_ctl w_listeners w_nextFn].
  split_and!; [done| | |done|done].
  - intros l. rewrite elem_of_app, list_elem_of_filter, list_elem_of_singleton.
    intros [[_ Hin]| ->]; [by apply Hl|simpl; by subst c].
  - unfold icount in *. cbn [set_listeners w_listeners].
    rewrite filter_app, length_app, list_filter_filter, filter_cons, filter_nil.
    rewrite decide_False by (simpl; naive_solver). simpl. rewrite <-Hk.
    rewrite Nat.add_0_r. f_equal. apply list_filter_iff. intros l. split; [naive_solver|].
    intros [Ht Hh]. split; [done|]. intros (Ht'&_). rewrite Ht in Ht'. congruence.
Qed.

Lemma NoDup_querySelectorAll d s : NoDup (querySelectorAll d s).
Proof. apply NoDup_filter, NoDup_seq. Qed.

Lemma refresh_inv d c n k :
  n ∈ querySelectorAll d sel_interactive → n ∉ querySelectorAll d sel_has_sub_link →
  hoare (run_inv d c n k) refresh (λ _, run_inv d c n (S k)).
Proof.
  intros Hn Hnl. unfold refresh, setupSubmenuToggle, getCtl.
  apply hoare_bind with (λ _, run_inv d c n k).
  - apply hoare_gets_bind. intros links. apply hoare_gets_bind. intros fn.
    intros w ((Hinv&Hlinks)&Hfn). pose proof Hinv as (_&_&Hd&Hc). subst links fn.
    refine (hoare_forEach (run_inv d c n k) _ _ _ w Hinv). intros b Hb. rewrite Hc.
    apply rebind_inv. intros ->. by rewrite Hd in Hb.
  - intros _. unfold enhanceInteractiveElements. apply hoare_gets_bind. intros els.
    apply hoare_bind with (λ _, run_inv d c n (S k)).
    + intros w (Hinv&Hels). pose proof Hinv as (_&_&Hd&_). subst els. rewrite Hd.
      refine (hoare_consequence _ _ _ _ _ _ _
                (forEach_listen_inv d c n k _ HInteractiveClick (NoDup_querySelectorAll d sel_interactive))
                w Hinv); [done|]. intros [] w'. apply run_inv_eq. rewrite bool_decide_eq_true_2 by done. lia.
    + intros _. hoare_inv (run_inv d c n (S k)); try (apply listen_inv_other; done).
      match goal with |- hoare _ (match ?o with _ => _ end) _ => destruct o end;
        [by apply listen_inv_other|apply hoare_ret].
Qed.

(** C16. Every call of [refresh()] adds one more click listener to each
    [.js-interactive] element (lines 221-224: a fresh arrow function per
    call, so [addEventListener] does not recognise it), while the
    listeners already there stay: on a page with fresh function ids, an
    interactive element that is not a submenu link has [k + 1] such
    listeners after a call that started with [k], and one click then
    runs the loading indicator [k + 1] times. *)
Theorem refresh_stacks_interactive (w : World) (n : nat) :
  fresh_fns w →
  n ∈ querySelectorAll (w_dom w) sel_interactive → n ∉ querySelectorAll (w_dom w) sel_has_sub_link →
  ∃ w', refresh w = Ok tt w' ∧ fresh_fns w' ∧ icount n w' = S (icount n w).
Proof.
  intros Hf Hn Hnl.
  destruct (refresh_inv (w_dom w) (w_ctl w) n (icount n w) Hn Hnl w) as ([]&w'&E&(Hf'&Hk&_));
    [by split_and!|].
  by exists w'.
Qed.

(** The sample page after load. *)
Definition loaded_sample : World := final (page_load sample_page).

(** On the loaded sample page the [.js-interactive] element (18) has no
    listener; one call of [refresh()] gives it one. *)
Lemma refresh_stacks_interactive_witness :
  icount 18 loaded_sample = 0 ∧
  ∃ w', refresh loaded_sample = Ok tt w' ∧ fresh_fns w' ∧ icount 18 w' = 1.
Proof.
  split; [vm_compute; reflexivity|].
  apply (refresh_stacks_interactive loaded_sample 18); [|vm_compute; set_solver|vm_compute; set_solver].
  split; [vm_compute; lia|]. apply Forall_forall, (bool_decide_unpack _). vm_compute. reflexivity.
Defined.
