(* ===== verification/Spec.v ===== *)
(** * The abstract shell of the spec and the refinement of the handlers

    spec.md §3-4 describes the controller as an abstract state: a layout
    mode among four, the mobile sidebar's visibility, the user dropdown's
    visibility and the set of open submenus, with operations [setLayout],
    [toggleSidebar], [closeMobileSidebar], resize, and the dropdown's
    toggle and outside click.  [abs] reads that state off a concrete
    world; each refinement theorem shows that a handler of the source,
    run on a well-formed page, moves [abs] exactly as the abstract
    operation does.  The last section runs the operations that write the
    mobile sidebar and the overlay in any order and shows that the
    overlay keeps mirroring the sidebar. *)

From S2P Require Import Prelude Dom Runtime Page Submenu Layout Dropdown.

#[local] Set Warnings "-clear-no-such-hyp".

Inductive LayoutMode := Full | Compact | Icons | Hidden.

#[export] Instance LayoutMode_eq_dec : EqDecision LayoutMode.
Proof. solve_decision. Defined.

Definition mode_name (m : LayoutMode) : string :=
  match m with Full => "full" | Compact => "compact" | Icons => "icons" | Hidden => "hidden" end.

Definition mode_of_string (s : string) : option LayoutMode :=
  if s === "full" then Some Full
  else if s === "compact" then Some Compact
  else if s === "icons" then Some Icons
  else if s === "hidden" then Some Hidden
  else None.

Lemma mode_of_name m : mode_of_string (mode_name m) = Some m.
Proof. by destruct m. Qed.

(** The abstract state; [sh_mode] is [None] when [currentLayout] is not
    one of the four modes (the source allows it, the spec does not). *)
Record Shell := mkShell {
  sh_mode : option LayoutMode;
  sh_sidebar_open : bool;
  sh_dropdown_open : bool;
  sh_open_subs : gset nat
}.

(** ** The abstract operations (spec §4.1) *)

Definition spec_setLayout (m : LayoutMode) (s : Shell) : Shell :=
  mkShell (Some m) (sh_sidebar_open s) (sh_dropdown_open s)
          (if decide (m = Full) then sh_open_subs s else ∅).

Definition spec_toggleSidebar (wide : bool) (s : Shell) : Shell :=
  if wide then spec_setLayout (if decide (sh_mode s = Some Full) then Icons else Full) s
  else mkShell (sh_mode s) (negb (sh_sidebar_open s)) (sh_dropdown_open s) (sh_open_subs s).

Definition spec_closeMobile (s : Shell) : Shell :=
  mkShell (sh_mode s) false (sh_dropdown_open s) (sh_open_subs s).

Definition spec_resize (wide : bool) (s : Shell) : Shell :=
  if wide then spec_closeMobile s else s.

Definition spec_toggleDropdown (s : Shell) : Shell :=
  mkShell (sh_mode s) (sh_sidebar_open s) (negb (sh_dropdown_open s)) (sh_open_subs s).

Definition spec_outsideClick (inside : bool) (s : Shell) : Shell :=
  if inside then s else mkShell (sh_mode s) (sh_sidebar_open s) false (sh_open_subs s).

(** Spec §4.1, submenu click handling, when enabled: a top-level
    submenu [p] first closes the other top-level submenus ([tops]) that
    are neither [p] nor inside it ([inside]); then [p] flips. *)
Definition gset_toggle (p : nat) (X : gset nat) : gset nat :=
  if decide (p ∈ X) then X ∖ {[p]} else X ∪ {[p]}.

Definition spec_submenuClick (tops inside : gset nat) (p : nat) (s : Shell) : Shell :=
  mkShell (sh_mode s) (sh_sidebar_open s) (sh_dropdown_open s)
    (gset_toggle p (if decide (p ∈ tops) then sh_open_subs s ∖ (tops ∖ ({[p]} ∪ inside))
                    else sh_open_subs s)).

(** ** Abstraction *)

(** The open submenus: the [has-sub] elements with class [open]. *)
Definition open_submenus (d : Dom) : gset nat :=
  list_to_set (filter (λ n, matches d sel_has_sub n && classList_contains "open" n d = true)
                      (seq 0 (length d))).

Definition abs (sb dd : nat) (w : World) : Shell :=
  mkShell (c_currentLayout (w_ctl w) ≫= mode_of_string)
          (classList_contains "open" sb (w_dom w))
          (classList_contains "show" dd (w_dom w))
          (open_submenus (w_dom w)).

(** The top-level submenus ([.menu > .has-sub]) and the elements inside
    [p] ([p.contains]) of a document. *)
Definition top_submenus (d : Dom) : gset nat :=
  list_to_set (filter (λ n, matches d sel_menu_has_sub n = true) (seq 0 (length d))).

Definition subtree (d : Dom) (p : nat) : gset nat :=
  list_to_set (filter (λ n, contains d p (Some n) = true) (seq 0 (length d))).

Lemma elem_of_open_submenus d n :
  n ∈ open_submenus d ↔ classList_contains "has-sub" n d = true ∧ classList_contains "open" n d = true.
Proof.
  unfold open_submenus. rewrite elem_of_list_to_set, list_elem_of_filter, elem_of_seq.
  unfold sel_has_sub. simpl. rewrite andb_true_iff. split; [naive_solver|].
  intros [Hh Ho]. split_and!; try done; [lia|].
  unfold classList_contains in Hh. destruct (d !! n) eqn:E; [|done].
  apply lookup_lt_Some in E. lia.
Qed.

(** Two documents with the same [has-sub] and [open] classes have the same
    open submenus. *)
Lemma open_submenus_ext d1 d2 :
  (∀ n, classList_contains "has-sub" n d1 = classList_contains "has-sub" n d2) →
  (∀ n, classList_contains "open" n d1 = classList_contains "open" n d2) →
  open_submenus d1 = open_submenus d2.
Proof.
  intros Hh Ho. apply set_eq. intros n. rewrite !elem_of_open_submenus, Hh, Ho. done.
Qed.

(** ** [setLayout] leaves the other classes alone *)

Lemma setLayout_pre_other sb btns v d c n :
  c ∈ ["has-sub"; "open"; "show"] →
  classList_contains c n (setLayout_pre_dom sb btns v d) = classList_contains c n d.
Proof.
  intros Hc. rewrite setLayout_pre_contains by set_solver.
  rewrite (bool_decide_eq_false_2 (c ∈ layout_classes ∧ _)) by (unfold layout_classes; set_solver).
  rewrite (bool_decide_eq_false_2 (c = _ ∧ _)).
  - by rewrite andb_true_r, orb_false_r.
  - intros [E _]. revert E. apply not_layout_class. set_solver.
Qed.

(** An element that is not a submenu keeps [open] and [show]. *)
Lemma setLayout_dom_other sb btns v d c n :
  c ∈ ["open"; "show"] → classList_contains "has-sub" n d = false →
  classList_contains c n (setLayout_dom sb btns v d) = classList_contains c n d.
Proof.
  intros Hc Hn. unfold setLayout_dom. destruct (v !== Some "full").
  - rewrite closeAll_dom_contains, setLayout_pre_other by set_solver.
    unfold sel_has_sub. cbn [matches]. rewrite setLayout_pre_other, Hn by set_solver.
    by rewrite !andb_false_r, andb_true_r.
  - apply setLayout_pre_other. set_solver.
Qed.

(** [active] changes only on the layout buttons. *)
Lemma setLayout_dom_active_other sb btns v d m :
  m ∉ btns → classList_contains "active" m (setLayout_dom sb btns v d) = classList_contains "active" m d.
Proof.
  intros Hm. assert (classList_contains "active" m (setLayout_pre_dom sb btns v d) =
                     classList_contains "active" m d) as Hpre.
  { unfold setLayout_pre_dom. rewrite fold_update_contains, decide_False by auto with polos.
    rewrite classList_contains_add, classList_contains_remove.
    rewrite (bool_decide_eq_false_2 ("active" ∈ layout_classes ∧ _)) by (unfold layout_classes; set_solver).
    rewrite (bool_decide_eq_false_2 ("active" = _ ∧ _))
      by (intros [E _]; revert E; apply not_layout_class; set_solver).
    by rewrite andb_true_r, orb_false_r. }
  unfold setLayout_dom. destruct (v !== Some "full"); [|done].
  by rewrite closeAll_dom_contains, Hpre, (bool_decide_eq_false_2 ("active" = "open")), andb_true_r.
Qed.

Lemma setLayout_open_submenus sb btns v d :
  open_submenus (setLayout_dom sb btns v d) =
    if v !== Some "full" then ∅ else open_submenus d.
Proof.
  unfold setLayout_dom. destruct (v !== Some "full").
  - apply set_eq. intros n. rewrite elem_of_open_submenus. split; [|set_solver].
    rewrite !closeAll_dom_contains. unfold sel_has_sub. cbn [matches].
    rewrite (bool_decide_eq_false_2 ("has-sub" = "open")), (bool_decide_eq_true_2 ("open" = "open"))
      by done.
    destruct (classList_contains "has-sub" n _); simpl; rewrite ?andb_false_r; intros [? ?]; done.
  - apply open_submenus_ext; intros n; apply setLayout_pre_other; set_solver.
Qed.

Lemma mode_of_string_full s : mode_of_string s = Some Full ↔ s = "full".
Proof.
  unfold mode_of_string. split; [|by intros ->].
  repeat case_bool_decide; congruence.
Qed.

Lemma is_full_abs (v : jsstring) :
  (v === Some "full") = bool_decide ((v ≫= mode_of_string) = Some Full).
Proof.
  apply bool_decide_ext. destruct v as [s|]; simpl; [|done].
  rewrite mode_of_string_full. naive_solver.
Qed.

(** Class changes on elements that are not submenus keep the open
    submenus. *)
Lemma open_submenus_toggle_other c n d :
  (c ≠ "open" ∨ classList_contains "has-sub" n d = false) → c ≠ "has-sub" →
  open_submenus (classList_toggle c n d) = open_submenus d.
Proof.
  intros Hc Hh. apply set_eq. intros m. rewrite !elem_of_open_submenus.
  rewrite classList_contains_toggle_other by done.
  destruct (decide (c = "open")) as [->|Hne]; [|by rewrite classList_contains_toggle_other].
  destruct Hc as [|Hn]; [done|]. rewrite classList_contains_toggle.
  destruct (decide (n = m)) as [->|]; [rewrite Hn; naive_solver|].
  rewrite bool_decide_eq_false_2 by naive_solver. by rewrite xorb_false_r.
Qed.

Lemma open_submenus_remove_other l n d :
  "has-sub" ∉ l → ("open" ∉ l ∨ classList_contains "has-sub" n d = false) →
  open_submenus (classList_remove l n d) = open_submenus d.
Proof.
  intros Hh Hc. apply set_eq. intros m. rewrite !elem_of_open_submenus.
  rewrite classList_contains_remove_other by done.
  destruct (decide ("open" ∈ l)) as [Ho|Ho]; [|by rewrite classList_contains_remove_other].
  destruct Hc as [|Hn]; [done|]. rewrite classList_contains_remove.
  destruct (decide (n = m)) as [->|]; [rewrite Hn; naive_solver|].
  rewrite (bool_decide_eq_false_2 (_ ∧ n = m)) by naive_solver. by rewrite andb_true_r.
Qed.

(** ** Submenu clicks on the abstract state *)

Lemma elem_of_top_submenus d n : n ∈ top_submenus d ↔ matches d sel_menu_has_sub n = true.
Proof.
  unfold top_submenus. rewrite elem_of_list_to_set, list_elem_of_filter, elem_of_seq.
  split; [naive_solver|]. intros Hm. split; [done|].
  destruct (decide (n < length d)); [lia|]. rewrite matches_out_of_range in Hm; [done|lia].
Qed.

Lemma elem_of_subtree d p n : n < length d → n ∈ subtree d p ↔ contains d p (Some n) = true.
Proof.
  intros Hn. unfold subtree. rewrite elem_of_list_to_set, list_elem_of_filter, elem_of_seq. naive_solver lia.
Qed.

Lemma menu_has_sub_has_sub d n :
  matches d sel_menu_has_sub n = true → classList_contains "has-sub" n d = true.
Proof. cbn [matches sel_menu_has_sub]. by intros [? _]%andb_prop. Qed.

Lemma has_sub_lt d n : classList_contains "has-sub" n d = true → n < length d.
Proof.
  unfold classList_contains. destruct (d !! n) eqn:E; [|done]. intros _. by eapply lookup_lt_Some.
Qed.

(** Flipping [open] on a submenu flips its membership of the open set. *)
Lemma open_submenus_toggle p d :
  classList_contains "has-sub" p d = true →
  open_submenus (classList_toggle "open" p d) = gset_toggle p (open_submenus d).
Proof.
  intros Hp. pose proof (has_sub_lt d p Hp). apply set_eq. intros n.
  unfold gset_toggle. rewrite !elem_of_open_submenus, classList_contains_toggle_other by done.
  rewrite classList_contains_toggle.
  destruct (decide (p = n)) as [<-|Hne].
  - rewrite bool_decide_eq_true_2 by done. case_decide;
      rewrite ?elem_of_difference, ?elem_of_union, elem_of_singleton, elem_of_open_submenus in *;
      destruct (classList_contains "open" p d); naive_solver.
  - rewrite (bool_decide_eq_false_2 (_ ∧ p = n ∧ _)), xorb_false_r by naive_solver.
    case_decide; rewrite ?elem_of_difference, ?elem_of_union, elem_of_singleton, elem_of_open_submenus;
      naive_solver.
Qed.

(** [closeOtherSubmenus p] on the open set: the top-level submenus other
    than [p] and outside it are removed. *)
Lemma open_submenus_closeOther p d :
  open_submenus (closeOther_dom p d) = open_submenus d ∖ (top_submenus d ∖ ({[p]} ∪ subtree d p)).
Proof.
  apply set_eq. intros n.
  rewrite elem_of_difference, elem_of_difference, elem_of_union, elem_of_singleton,
    !elem_of_open_submenus, !closeOther_dom_contains, elem_of_top_submenus.
  rewrite (bool_decide_eq_false_2 ("has-sub" = "open")), (bool_decide_eq_true_2 ("open" = "open"))
    by done.
  cbn [andb negb]. rewrite andb_true_r. split.
  - intros [Hh [Ho Hx]%andb_prop]. split; [done|]. intros [Hm Hn]. rewrite Hm in Hx.
    destruct (decide (n = p)) as [->|Hne]; [apply Hn; by left|].
    rewrite bool_decide_eq_false_2 in Hx by done.
    destruct (contains d p (Some n)) eqn:Ec; [|done].
    apply Hn. right. by apply elem_of_subtree; [apply has_sub_lt|].
  - intros [[Hh Ho] Hn]. rewrite Ho. split; [done|]. cbn [andb].
    destruct (matches d sel_menu_has_sub n) eqn:Em; cbn [andb negb]; [|done].
    destruct (decide (n = p)) as [->|Hne]; [by rewrite bool_decide_eq_true_2 by done|].
    rewrite bool_decide_eq_false_2 by done. cbn [andb negb].
    destruct (contains d p (Some n)) eqn:Ec; [done|]. exfalso. apply Hn. split; [done|].
    intros [?|Hs]; [done|]. apply elem_of_subtree in Hs; [congruence|by apply has_sub_lt].
Qed.

Lemma top_submenu_parent d p g :
  parentElement d p = Some g → classList_contains "has-sub" p d = true →
  matches d sel_menu_has_sub p = classList_contains "menu" g d.
Proof. intros Hg Hp. cbn [matches sel_menu_has_sub]. by rewrite Hp, Hg. Qed.

(** [closeOtherSubmenus] changes only [open], and only on submenus. *)
Lemma closeOther_dom_other p d c n :
  (c ≠ "open" ∨ classList_contains "has-sub" n d = false) →
  classList_contains c n (closeOther_dom p d) = classList_contains c n d.
Proof.
  intros Hc. rewrite closeOther_dom_contains.
  destruct Hc as [Hc|Hn]; [by rewrite bool_decide_eq_false_2, andb_true_r by done|].
  destruct (matches d sel_menu_has_sub n) eqn:Em;
    [by rewrite (menu_has_sub_has_sub d n Em) in Hn|].
  by rewrite andb_false_r, andb_true_r.
Qed.

(** ** Refinement of the handlers *)

Section refinement.
Context (w : World) (sb dd : nat).

Lemma setLayout_world_abs (m : LayoutMode) :
  classList_contains "has-sub" sb (w_dom w) = false →
  classList_contains "has-sub" dd (w_dom w) = false →
  abs sb dd (setLayout_world sb (Some (mode_name m)) w) = spec_setLayout m (abs sb dd w).
Proof.
  intros Hsb_sub Hdd_sub. unfold abs, spec_setLayout. rewrite setLayout_world_ctl, setLayout_world_dom. simpl.
  rewrite mode_of_name, !setLayout_dom_other, setLayout_open_submenus by (done || set_solver).
  f_equal. by destruct m.
Qed.

(** C18. [setLayout] with a mode implements the spec's [setLayout]: the
    mode becomes current, the sidebar and dropdown visibility are kept,
    and the open submenus are kept for [full] and all closed otherwise. *)
Theorem setLayout_refines (m : LayoutMode) :
  c_sidebar (w_ctl w) = Some sb →
  classList_contains "has-sub" sb (w_dom w) = false →
  classList_contains "has-sub" dd (w_dom w) = false →
  ∃ w', setLayout (Some (mode_name m)) w = Ok tt w' ∧
        abs sb dd w' = spec_setLayout m (abs sb dd w).
Proof. intros Hsb ??. eexists. split; [apply setLayout_run; [done|by destruct m]|]. by apply setLayout_world_abs. Qed.

(** C19. [toggleSidebar] implements the spec's toggle: on a wide viewport
    it is [setLayout icons] from [full] and [setLayout full] otherwise; on
    a narrow one it flips the mobile sidebar and changes nothing else of
    the abstract state. *)
Theorem toggleSidebar_refines (ov : nat) :
  c_sidebar (w_ctl w) = Some sb → c_overlay (w_ctl w) = Some ov →
  classList_contains "has-sub" sb (w_dom w) = false →
  classList_contains "has-sub" dd (w_dom w) = false →
  sb < length (w_dom w) →
  ∃ w', toggleSidebar w = Ok tt w' ∧
        abs sb dd w' = spec_toggleSidebar (bool_decide (768 < w_innerWidth w)%Z) (abs sb dd w).
Proof.
  intros Hsb Hov Hsb_sub Hdd_sub Hin. destruct (decide (768 < w_innerWidth w)%Z) as [Hw|Hw].
  - eexists. split; [by apply toggleSidebar_desktop_run|].
    rewrite (bool_decide_eq_true_2 (768 < w_innerWidth w)%Z) by done. unfold spec_toggleSidebar.
    rewrite is_full_abs. simpl. case_bool_decide; case_decide; try done;
      [by apply (setLayout_world_abs Icons)|by apply (setLayout_world_abs Full)].
  - eexists. split; [apply toggleSidebar_mobile_run; [lia|done|done]|].
    rewrite (bool_decide_eq_false_2 (768 < w_innerWidth w)%Z) by done.
    unfold abs, spec_toggleSidebar. simpl. f_equal.
    + rewrite classList_contains_toggle_other, classList_contains_toggle by done.
      rewrite bool_decide_eq_true_2 by done. apply xorb_true_r.
    + by rewrite !classList_contains_toggle_other.
    + rewrite !open_submenus_toggle_other by first [done | left; done | right; done]. done.
Qed.

(** C20. [handleResize] implements the spec's resize: above the
    breakpoint it closes the mobile sidebar, below it changes nothing. *)
Theorem handleResize_refines (ov : nat) :
  c_sidebar (w_ctl w) = Some sb → c_overlay (w_ctl w) = Some ov →
  classList_contains "has-sub" sb (w_dom w) = false →
  ∃ w', handleResize w = Ok tt w' ∧
        abs sb dd w' = spec_resize (bool_decide (768 < w_innerWidth w)%Z) (abs sb dd w).
Proof.
  intros Hsb Hov Hsb_sub. destruct (decide (768 < w_innerWidth w)%Z) as [Hw|Hw].
  - eexists. split.
    + unfold handleResize, bind at 1, gets. rewrite (proj2 (Z.gtb_lt _ _) Hw).
      by apply closeMobileSidebar_run.
    + rewrite (bool_decide_eq_true_2 (768 < w_innerWidth w)%Z) by done.
      unfold abs, spec_resize, spec_closeMobile. simpl. f_equal.
      * rewrite classList_contains_remove_other, classList_contains_remove by set_solver.
        rewrite bool_decide_eq_true_2 by set_solver. apply andb_false_r.
      * by rewrite !classList_contains_remove_other by set_solver.
      * rewrite !open_submenus_remove_other by first [set_solver | left; set_solver | right; done].
        done.
  - eexists. split.
    + unfold handleResize, bind at 1, gets. rewrite Z.gtb_ltb, (proj2 (Z.ltb_ge _ _)) by lia.
      reflexivity.
    + by rewrite (bool_decide_eq_false_2 (768 < w_innerWidth w)%Z).
Qed.

(** C21. The dropdown listeners implement the spec's dropdown: the user
    menu's listener flips it, the document's listener hides it exactly
    when the click target is outside the user menu; neither changes
    anything else of the abstract state. *)
Theorem dropdown_refines (e : Event) (um : nat) :
  c_userMenu (w_ctl w) = Some um → c_userDropdown (w_ctl w) = Some dd →
  dd < length (w_dom w) →
  (∃ w', toggleUserDropdown e w = Ok tt w' ∧ abs sb dd w' = spec_toggleDropdown (abs sb dd w)) ∧
  (∃ w', handleOutsideClick e w = Ok tt w' ∧
         abs sb dd w' = spec_outsideClick (contains (w_dom w) um (node_of (ev_target e))) (abs sb dd w)).
Proof.
  intros Hum Hdd Hin. split; eexists; split;
    [by apply toggleUserDropdown_run| |by apply (handleOutsideClick_run e w um dd)|].
  - unfold abs, spec_toggleDropdown. simpl. f_equal.
    + by rewrite classList_contains_toggle_other.
    + rewrite classList_contains_toggle, bool_decide_eq_true_2 by done. apply xorb_true_r.
    + by apply open_submenus_toggle_other; [left|].
  - unfold spec_outsideClick. destruct (contains _ _ _); [done|].
    unfold abs. simpl. f_equal.
    + by rewrite classList_contains_remove_other by set_solver.
    + rewrite classList_contains_remove, bool_decide_eq_true_2 by set_solver. apply andb_false_r.
    + apply open_submenus_remove_other; [set_solver|left; set_solver].
Qed.
(** C23. A click on the link of a submenu [p], when submenus are
    enabled, implements the spec's submenu click: a top-level [p] first
    closes every other top-level submenu not inside it, then [p] flips;
    the layout, the mobile sidebar and the dropdown are unchanged. *)
Theorem submenu_click_refines (e : Event) (a p g : nat) :
  ev_currentTarget e = TNode a →
  parentElement (w_dom w) a = Some p → parentElement (w_dom w) p = Some g →
  classList_contains "has-sub" p (w_dom w) = true →
  classList_contains "has-sub" sb (w_dom w) = false →
  submenu_enabled w →
  ∃ w', handleSubmenuClick e w = Ok tt w' ∧
        abs sb dd w' = spec_submenuClick (top_submenus (w_dom w)) (subtree (w_dom w) p) p (abs sb dd w).
Proof.
  intros Hcur Hpar Hg Hp Hsb Hen. eexists.
  split; [by apply (handleSubmenuClick_run w e a p g)|].
  unfold abs, spec_submenuClick. cbn [w_dom w_ctl set_dom set_evflags sh_mode sh_sidebar_open
    sh_dropdown_open sh_open_subs]. f_equal.
  - rewrite classList_contains_toggle, (bool_decide_eq_false_2 (_ ∧ p = sb ∧ _)), xorb_false_r
      by (intros (_&->&_); congruence).
    destruct (classList_contains "menu" g _); [|done]. apply closeOther_dom_other. by right.
  - rewrite classList_contains_toggle_other by done.
    destruct (classList_contains "menu" g _); [|done]. apply closeOther_dom_other. by left.
  - rewrite open_submenus_toggle
      by (destruct (classList_contains "menu" g _); [rewrite closeOther_dom_other by by left|]; done).
    f_equal. pose proof (elem_of_top_submenus (w_dom w) p) as Ht.
    rewrite (top_submenu_parent _ p g) in Ht by done.
    destruct (classList_contains "menu" g _).
    + rewrite decide_True by naive_solver. apply open_submenus_closeOther.
    + rewrite decide_False by naive_solver. done.
Qed.
End refinement.

(** ** The mobile sidebar and its overlay

    Spec §4.1 and property 4: on a narrow viewport the toggle flips the
    sidebar's [open] and mirrors it onto the overlay's [active]; the
    overlay's listener and a resize above the breakpoint close both.
    The operations that touch these classes are the toggle, the overlay
    click, a resize and a layout change. *)

Inductive MobileOp :=
| MToggle
| MOverlayClick
| MResize (width : Z)
| MSetLayout (v : jsstring).

Definition run_mobile (o : MobileOp) : M unit :=
  match o with
  | MToggle => toggleSidebar
  | MOverlayClick => closeMobileSidebar
  | MResize x => modify (set_innerWidth x);; handleResize
  | MSetLayout v => setLayoutManually v
  end.

Fixpoint run_mobile_ops (os : list MobileOp) : M unit :=
  match os with
  | [] => ret tt
  | o :: os' => run_mobile o;; run_mobile_ops os'
  end.

(** A layout value [classList.add] accepts. *)
Definition op_ok (o : MobileOp) : bool :=
  match o with MSetLayout v => negb (has_ws (js_to_string v)) | _ => true end.

(** The overlay is shown exactly when the mobile sidebar is open. *)
Definition overlay_agrees (sb ov : nat) (w : World) : Prop :=
  classList_contains "active" ov (w_dom w) = classList_contains "open" sb (w_dom w).

(** The page the agreement needs: both elements exist, the sidebar is
    not a submenu, the overlay is not a layout button. *)
Definition mobile_page (sb ov : nat) (w : World) : Prop :=
  c_sidebar (w_ctl w) = Some sb ∧ c_overlay (w_ctl w) = Some ov ∧
  classList_contains "has-sub" sb (w_dom w) = false ∧ ov ∉ (c_layoutButtons (w_ctl w) : list nat) ∧
  sb < length (w_dom w) ∧ ov < length (w_dom w).

Section mobile.
Context (sb ov : nat).

Lemma setLayout_world_mobile w v :
  mobile_page sb ov w →
  mobile_page sb ov (setLayout_world sb v w) ∧
  (overlay_agrees sb ov w → overlay_agrees sb ov (setLayout_world sb v w)).
Proof.
  intros (Hsb&Hov&Hh&Hb&Hls&Hlo). unfold mobile_page, overlay_agrees.
  rewrite setLayout_world_ctl, setLayout_world_dom, !setLayout_dom_length. cbn.
  rewrite (setLayout_dom_active_other _ _ _ _ ov), (setLayout_dom_other _ _ _ _ "open" sb)
    by first [exact Hb | exact Hh | set_solver].
  rewrite setLayout_dom_contains, Hh by done. cbn [andb orb].
  rewrite bool_decide_eq_false_2 by (intros [E _]; revert E; apply not_layout_class; set_solver).
  done.
Qed.

Lemma close_mobile_agrees w :
  mobile_page sb ov w →
  let w' := set_dom (classList_remove ["active"] ov (classList_remove ["open"] sb (w_dom w))) w in
  mobile_page sb ov w' ∧ (overlay_agrees sb ov w → overlay_agrees sb ov w').
Proof.
  intros (Hsb&Hov&Hh&Hb&Hls&Hlo). unfold mobile_page, overlay_agrees. cbn [w_dom w_ctl set_dom].
  rewrite !classList_remove_length. split.
  - by rewrite !(classList_contains_remove_other "has-sub") by set_solver.
  - rewrite (classList_contains_remove "active" ["active"]), (classList_contains_remove_other "active" ["open"]),
      (classList_contains_remove_other "open" ["active"]), (classList_contains_remove "open" ["open"])
      by set_solver.
    rewrite !bool_decide_eq_true_2 by set_solver. by rewrite !andb_false_r.
Qed.

Lemma run_mobile_step o w :
  mobile_page sb ov w → op_ok o = true →
  ∃ w', run_mobile o w = Ok tt w' ∧ mobile_page sb ov w' ∧
        (overlay_agrees sb ov w → overlay_agrees sb ov w').
Proof.
  intros Hp Ho. pose proof Hp as (Hsb&Hov&Hh&Hb&Hls&Hlo).
  destruct o as [| |x|v]; simpl in *.
  - destruct (decide (w_innerWidth w ≤ 768)%Z) as [Hw|Hw].
    + eexists. split; [by apply toggleSidebar_mobile_run|].
      unfold mobile_page, overlay_agrees. cbn [w_dom w_ctl set_dom]. rewrite !classList_toggle_length.
      split; [by rewrite !(classList_contains_toggle_other "has-sub")|].
      rewrite (classList_contains_toggle "active" "active"), (classList_contains_toggle_other "active" "open"),
        (classList_contains_toggle_other "open" "active"), (classList_contains_toggle "open" "open") by done.
      rewrite classList_toggle_length, !bool_decide_eq_true_2 by done. by intros ->.
    + eexists. split; [apply toggleSidebar_desktop_run; [lia|done]|]. apply setLayout_world_mobile, Hp.
  - eexists. split; [by apply closeMobileSidebar_run|]. by apply close_mobile_agrees.
  - unfold handleResize. cbn [bind modify gets w_innerWidth set_innerWidth].
    destruct (Z.gtb x 768).
    + assert (mobile_page sb ov (set_innerWidth x w)) as Hp' by exact Hp.
      eexists. split; [by apply (closeMobileSidebar_run _ sb ov)|]. exact (close_mobile_agrees _ Hp').
    + eexists. split; [reflexivity|]. split; [exact Hp|intros H; exact H].
  - eexists. split; [apply setLayout_run; [done|by destruct (has_ws _)]|]. apply setLayout_world_mobile, Hp.
Qed.
(** C31. The overlay mirrors the mobile sidebar under every sequence of
    the operations that touch them: after any run of toggles, overlay
    clicks, resizes (to any width) and layout changes (with values
    [classList.add] accepts), on a page whose sidebar is not a submenu and
    whose overlay is not a layout button, every operation returns and the
    overlay is [active] exactly when the sidebar is [open]. *)
Theorem mobile_overlay_agreement (os : list MobileOp) (w : World) :
  mobile_page sb ov w → Forall (λ o, op_ok o = true) os → overlay_agrees sb ov w →
  ∃ w', run_mobile_ops os w = Ok tt w' ∧ mobile_page sb ov w' ∧ overlay_agrees sb ov w'.
Proof.
  intros Hp Hos. revert w Hp. induction Hos as [|o os Ho _ IH]; intros w Hp Ha; [by exists w|].
  destruct (run_mobile_step o w Hp Ho) as (w1&E1&Hp1&Ha1). simpl.
  rewrite (bind_Ok _ _ _ _ _ E1). auto.
Qed.
End mobile.

(** ** Witnesses on the sample page: sidebar 1, overlay 11, user menu 12,
    dropdown 13. *)

Lemma setLayout_refines_witness :
  ∃ w', setLayout (Some "compact") (sample_world 1024 ∅) = Ok tt w' ∧
        sh_open_subs (abs 1 13 w') = ∅ ∧ sh_mode (abs 1 13 w') = Some Compact.
Proof.
  destruct (setLayout_refines (sample_world 1024 ∅) 1 13 Compact eq_refl eq_refl eq_refl)
    as (w' & H1 & H2).
  exists w'. rewrite H2. split; [exact H1|split; reflexivity].
Defined.

Lemma toggleSidebar_refines_witness :
  ∃ w', toggleSidebar (sample_world 500 ∅) = Ok tt w' ∧
        sh_sidebar_open (abs 1 13 w') = true.
Proof.
  destruct (toggleSidebar_refines (sample_world 500 ∅) 1 13 11 eq_refl eq_refl eq_refl eq_refl
              ltac:(vm_compute; lia)) as (w' & H1 & H2).
  exists w'. rewrite H2. split; [exact H1|reflexivity].
Defined.

Lemma handleResize_refines_witness :
  ∃ w', handleResize (sample_world 1024 ∅) = Ok tt w' ∧
        sh_sidebar_open (abs 1 13 w') = false.
Proof.
  destruct (handleResize_refines (sample_world 1024 ∅) 1 13 11 eq_refl eq_refl eq_refl)
    as (w' & H1 & H2).
  exists w'. rewrite H2. split; [exact H1|reflexivity].
Defined.

Lemma dropdown_refines_witness :
  ∃ w', toggleUserDropdown (sample_click 12) (sample_world 1024 ∅) = Ok tt w' ∧
        sh_dropdown_open (abs 1 13 w') = true.
Proof.
  destruct (dropdown_refines (sample_world 1024 ∅) 1 13 (sample_click 12) 12 eq_refl eq_refl
              ltac:(vm_compute; lia)) as [(w' & H1 & H2) _].
  exists w'. rewrite H2. split; [exact H1|reflexivity].
Defined.

Lemma submenu_click_refines_witness :
  ∃ w', handleSubmenuClick (sample_click 4) (sample_world 1024 ∅) = Ok tt w' ∧
        sh_open_subs (abs 1 13 w') = {[3]}.
Proof.
  destruct (submenu_click_refines (sample_world 1024 ∅) 1 13 (sample_click 4) 4 3 2
              eq_refl eq_refl eq_refl eq_refl eq_refl (or_introl eq_refl)) as (w' & H1 & H2).
  exists w'. rewrite H2. split; [exact H1|]. vm_compute. reflexivity.
Defined.

(** Toggle open on a phone, switch to [icons], close by the overlay, open
    again, widen the window: the overlay follows the sidebar throughout. *)
Lemma mobile_overlay_agreement_witness :
  ∃ w', run_mobile_ops [MToggle; MSetLayout (Some "icons"); MOverlayClick; MToggle; MResize 1024]
          (sample_world 500 ∅) = Ok tt w' ∧ mobile_page 1 11 w' ∧ overlay_agrees 1 11 w'.
Proof.
  apply mobile_overlay_agreement; [|repeat constructor|reflexivity].
  split_and!; try reflexivity; try (vm_compute; lia). vm_compute. set_solver.
Defined.
