(* ===== verification/Interleavings.v ===== *)
(** * Interleavings: handlers and timers as explicit sequences of steps

    The hover callbacks are scheduled by one listener and run later by
    the event loop, after whatever other handlers ran in between; events
    are dispatched along a path whose listeners run in order until one
    stops propagation.  Here those sequences are written out in the monad
    [M] ([m1;; m2;; ...]) and their outcome is proved. *)

From S2P Require Import Prelude Dom Runtime Page Submenu Layout Dropdown Hover Polos Controller.

#[local] Set Warnings "-clear-no-such-hyp".

(** ** The event loop on a single pending timer *)

Lemma fire_timer_single w t :
  w_timers w = [t] →
  fire_timer w =
    catch_report (run_callback (tm_cb t))
      (set_now (Z.max (w_now w) (tm_due t)) (set_timers [] (w_nextTimer w) w)).
Proof.
  intros Ht. unfold fire_timer, bind, gets, modify. rewrite Ht. simpl. rewrite Ht.
  rewrite filter_cons_False by (intros H; by apply H). done.
Qed.

Lemma fire_timer_none w : w_timers w = [] → fire_timer w = Ok tt w.
Proof. intros Ht. unfold fire_timer, bind, gets. by rewrite Ht. Qed.

Lemma clear_hover_no_timers c w : w_timers w = [] → w_timers (clear_hover (set_ctl c w)) = [].
Proof. intros Ht. unfold clear_hover. simpl. destruct (c_hoverTimeout c); simpl; by rewrite Ht. Qed.

Lemma hoverExpand_run w sb :
  c_sidebar (w_ctl w) = Some sb →
  hoverExpand w = Ok tt (set_dom (classList_add "layout-full-temp" sb (w_dom w)) w).
Proof. intros Hsb. unfold hoverExpand. run. by rewrite Hsb. Qed.

Lemma hoverCollapse_absent w sb :
  c_sidebar (w_ctl w) = Some sb → classList_contains "layout-full-temp" sb (w_dom w) = false →
  hoverCollapse w = Ok tt w.
Proof. intros Hsb Ht. unfold hoverCollapse. run. rewrite Hsb. run. by rewrite Ht. Qed.

(** The listeners' closed forms keep the controller's sidebar. *)
Lemma schedule_hover_sidebar cb d w : c_sidebar (w_ctl (schedule_hover cb d w)) = c_sidebar (w_ctl w).
Proof. done. Qed.
Lemma schedule_hover_dom cb d w : w_dom (schedule_hover cb d w) = w_dom w.
Proof. done. Qed.
Lemma clear_hover_ctl w : w_ctl (clear_hover w) = w_ctl w.
Proof. unfold clear_hover. by destruct (c_hoverTimeout (w_ctl w)). Qed.
Lemma clear_hover_dom w : w_dom (clear_hover w) = w_dom w.
Proof. unfold clear_hover. by destruct (c_hoverTimeout (w_ctl w)). Qed.

#[local] Hint Rewrite schedule_hover_sidebar schedule_hover_dom clear_hover_ctl clear_hover_dom : polos_rw.

(** ** The timer queue drains *)

(** [n] turns of the event loop with no other input. *)
Fixpoint fire_n (n : nat) : M unit :=
  match n with 0 => ret tt | S n' => fire_timer;; fire_n n' end.

Lemma earliest_elem ts : ts ≠ [] → ∃ t, earliest ts = Some t ∧ t ∈ ts.
Proof.
  induction ts as [|t ts IH]; [done|]. intros _. simpl.
  destruct ts as [|u ts']; [exists t; split; [done|by left]|].
  destruct IH as (u' & -> & Hu); [done|].
  destruct (Z.leb _ _); eexists; (split; [done|]); [left|right; done].
Qed.

(** No timer callback schedules a timer. *)
Lemma run_callback_timers cb k : preserves (λ w, length (w_timers w) ≤ k) (run_callback cb).
Proof.
  destruct cb; simpl;
    unfold hoverExpand, hoverCollapse, closeAllSubmenus, enhanceInteractiveElements,
      interactiveDone, exportDone, periodDone, setLoading, listen, new_closure, addEventListener;
    listeners_frame;
    try (intros ?w ?Hw; done);
    try (apply preserves_modify; intros ?w ?Hw; case_decide; simpl; done).
Qed.

Lemma fire_timer_ok w : ∃ w', fire_timer w = Ok tt w'.
Proof.
  unfold fire_timer, bind, gets. destruct (earliest (w_timers w)); [|by eexists].
  unfold modify, catch_report. simpl. destruct (run_callback _ _); by eexists.
Qed.

Lemma fire_timer_shrinks w :
  w_timers w ≠ [] → length (w_timers (final (fire_timer w))) < length (w_timers w).
Proof.
  intros Hne. destruct (earliest_elem _ Hne) as (t & Ht & Hin).
  set (w1 := set_now (Z.max (w_now w) (tm_due t))
               (set_timers (filter (λ u, tm_id u ≠ tm_id t) (w_timers w)) (w_nextTimer w) w)).
  assert (fire_timer w = catch_report (run_callback (tm_cb t)) w1) as ->
    by (unfold fire_timer, bind, gets; rewrite Ht; done).
  assert (length (w_timers w1) < length (w_timers w)) as Hlt
    by (apply length_filter_lt with t; [done|intros H; by apply H]).
  assert (length (w_timers (final (catch_report (run_callback (tm_cb t)) w1))) ≤ length (w_timers w1));
    [|lia].
  apply (preserves_catch_report (λ w', length (w_timers w') ≤ length (w_timers w1)));
    [apply run_callback_timers|intros ???; done|done].
Qed.

(** C29. The timer queue drains: from any world, as many turns of the
    event loop as there are pending timers run every pending callback and
    leave no timer pending, because no callback of the program (the hover
    expand and collapse, the fallback enhancement, the loading and export
    callbacks) schedules another timer. *)
Theorem timers_drain (w : World) :
  ∃ w', fire_n (length (w_timers w)) w = Ok tt w' ∧ w_timers w' = [].
Proof.
  assert (∀ n w, length (w_timers w) ≤ n → ∃ w', fire_n n w = Ok tt w' ∧ w_timers w' = []) as H;
    [|by apply H].
  induction n as [|n IH]; intros w0 Hn.
  - exists w0. split; [done|]. by apply nil_length_inv; lia.
  - simpl. destruct (fire_timer_ok w0) as [w1 Hf]. rewrite (bind_Ok _ _ _ _ _ Hf).
    apply IH. destruct (w_timers w0) as [|t ts] eqn:E.
    + rewrite fire_timer_none in Hf by done. injection Hf as <-. rewrite E. simpl. lia.
    + pose proof (fire_timer_shrinks w0 ltac:(by rewrite E)) as Hs.
      rewrite Hf, E in Hs. simpl in *. lia.
Qed.

(** ** Hover expansion against layout changes *)

Section hover_sequences.
Context (w : World) (sb : nat).
Hypothesis Hsb : c_sidebar (w_ctl w) = Some sb.
Hypothesis Hin : sb < length (w_dom w).
Hypothesis Hicons : c_currentLayout (w_ctl w) = Some "icons".
Hypothesis Hfull : classList_contains "layout-full" sb (w_dom w) = false.
Hypothesis Hidle : w_timers w = [].

(** The world after [mouseenter] in the icons layout: the expand timer
    is the only pending timer. *)
Definition entered : World :=
  schedule_hover CbHoverExpand expandDelay (clear_hover (set_ctl (set_isHoveringSidebar true (w_ctl w)) w)).

Lemma onMouseEnter_icons e : onMouseEnter e w = Ok tt entered.
Proof.
  rewrite (onMouseEnter_run e w sb Hsb), Hicons, Hfull. done.
Qed.

Lemma entered_timers :
  w_timers entered = [mkTimer (w_nextTimer (clear_hover (set_ctl (set_isHoveringSidebar true (w_ctl w)) w)))
                              (w_now w + expandDelay) CbHoverExpand].
Proof.
  unfold entered, schedule_hover. simpl. rewrite clear_hover_no_timers by done.
  unfold clear_hover. by destruct (c_hoverTimeout _).
Qed.

Lemma entered_sidebar : c_sidebar (w_ctl entered) = Some sb.
Proof. unfold entered. autorewrite with polos_rw. done. Qed.

(** Leaving after entering: the slot named the expand timer, so the
    cancellation leaves no timer. *)
Definition left_world : World :=
  clear_hover (set_ctl (set_isHoveringSidebar false (w_ctl entered)) entered).

Lemma left_world_timers : w_timers left_world = [].
Proof.
  unfold left_world, clear_hover. simpl. rewrite clear_hover_no_timers by done. simpl.
  rewrite filter_cons_False by (intros H; by apply H). done.
Qed.

Lemma left_world_dom : w_dom left_world = w_dom w.
Proof. unfold left_world, entered. rewrite clear_hover_dom. simpl. by rewrite clear_hover_dom. Qed.

Lemma left_world_sidebar : c_sidebar (w_ctl left_world) = Some sb.
Proof. unfold left_world. rewrite clear_hover_ctl. simpl. apply entered_sidebar. Qed.

(** C24. The expand callback does not re-check the layout: if the
    pointer enters the sidebar in the icons layout and, before the 150 ms
    have passed, the layout changes to any [v] the class list accepts (the
    toggle button or [setLayoutManually]), the callback still adds [layout-full-temp]: the
    sidebar ends with class [layout-v] and the temporary expansion, also
    for [v = full].  (The spec applies the class only if the mode is
    still [icons].) *)
Theorem expand_ignores_layout_change (e : Event) (v : jsstring) :
  has_ws (js_to_string v) = false →
  ∃ w', (onMouseEnter e;; setLayout v;; fire_timer) w = Ok tt w' ∧
    c_currentLayout (w_ctl w') = v ∧
    classList_contains ("layout-" +:+ js_to_string v) sb (w_dom w') = true ∧
    classList_contains "layout-full-temp" sb (w_dom w') = true.
Proof.
  intros Hws. eexists. split.
  - rewrite (bind_Ok _ _ w tt entered (onMouseEnter_icons e)).
    rewrite (bind_Ok _ _ _ tt _ (setLayout_run v entered sb entered_sidebar Hws)).
    rewrite (fire_timer_single (setLayout_world sb v entered) _ entered_timers). simpl.
    unfold catch_report. rewrite (hoverExpand_run _ sb) by (simpl; apply entered_sidebar). reflexivity.
  - assert (sb < length (w_dom entered)) by (unfold entered; simpl; by rewrite clear_hover_dom).
    cbn [w_ctl w_dom set_dom set_now set_timers]. rewrite setLayout_world_ctl, setLayout_world_dom.
    split_and!; [done| |].
    + rewrite classList_contains_add, setLayout_dom_contains
        by (apply not_eq_sym, not_layout_class; set_solver).
      rewrite (bool_decide_eq_true_2 (_ = _ ∧ sb = sb ∧ _)) by done. by rewrite !orb_true_r.
    + rewrite classList_contains_add, (bool_decide_eq_true_2 (_ = _ ∧ sb = sb ∧ _)) by
        (split_and!; [done|done|by rewrite setLayout_dom_length]).
      apply orb_true_r.
Qed.

(** C25. Debounce cancellation (spec §8, property 6): entering the
    sidebar in the icons layout and leaving it again before the expand
    timer fires never applies [layout-full-temp], whatever the pointer
    left to; once the pending timers have fired none is left. *)
Theorem quick_leave_never_expands (e1 e2 : Event) :
  classList_contains "layout-full-temp" sb (w_dom w) = false →
  ∃ w', (onMouseEnter e1;; onMouseLeave e2;; fire_timer;; fire_timer) w = Ok tt w' ∧
    classList_contains "layout-full-temp" sb (w_dom w') = false ∧ w_timers w' = [].
Proof.
  intros Htemp.
  rewrite (bind_Ok _ _ w tt entered (onMouseEnter_icons e1)).
  rewrite (bind_Ok _ _ _ tt _ (onMouseLeave_run e2 entered sb entered_sidebar)).
  fold left_world. destruct (_ && _).
  - set (w2 := schedule_hover CbHoverCollapse collapseDelay left_world).
    assert (w_timers w2 = [mkTimer (w_nextTimer left_world) (w_now left_world + collapseDelay) CbHoverCollapse])
      as Ht by (unfold w2, schedule_hover; cbn [w_timers set_ctl set_timers]; by rewrite left_world_timers).
    erewrite (bind_Ok _ _ _ tt).
    2: { rewrite (fire_timer_single _ _ Ht). unfold catch_report. cbn [tm_cb run_callback].
         rewrite (hoverCollapse_absent _ sb); [reflexivity|..]; cbn [w_ctl w_dom set_now set_timers];
           unfold w2; rewrite ?schedule_hover_sidebar, ?schedule_hover_dom;
           [apply left_world_sidebar|by rewrite left_world_dom]. }
    rewrite fire_timer_none by done. eexists. split; [done|].
    cbn [w_dom w_timers set_now set_timers]. unfold w2. rewrite schedule_hover_dom, left_world_dom. done.
  - rewrite (bind_Ok _ _ _ tt _ (fire_timer_none _ left_world_timers)), fire_timer_none
      by apply left_world_timers.
    eexists. split; [done|]. by rewrite left_world_dom, left_world_timers.
Qed.
End hover_sequences.

(** ** Dispatch *)

(** A target without listeners for the event passes it on, unless
    propagation was stopped. *)
Lemma propagate_skip t path e w :
  listeners_at w t (ev_type e) = [] →
  propagate (t :: path) e w = if w_stopped w then Ok tt w else propagate path e w.
Proof. intros Hl. simpl. unfold bind, gets. rewrite Hl. simpl. by destruct (w_stopped w). Qed.

Lemma propagate_skip_prefix pre path e w :
  (∀ t, t ∈ pre → listeners_at w t (ev_type e) = []) → w_stopped w = false →
  propagate (pre ++ path) e w = propagate path e w.
Proof.
  intros Hl Hs. induction pre as [|t pre IH]; [done|]. simpl app.
  rewrite propagate_skip, Hs by (apply Hl; left). apply IH. intros t' Ht'. apply Hl. by right.
Qed.

Lemma listeners_at_dom d w t ty : listeners_at (set_dom d w) t ty = listeners_at w t ty.
Proof. done. Qed.

Lemma listeners_at_evflags a b w t ty : listeners_at (set_evflags a b w) t ty = listeners_at w t ty.
Proof. done. Qed.

Lemma dispatch_click_path n w :
  dispatch (click_event n) w =
    propagate ((TNode <$> ancestors (length (w_dom w)) (w_dom w) n) ++ [TDocument; TWindow])
              (click_event n) (set_evflags false false w).
Proof. done. Qed.

(** ** A click and the user menu (spec §8, property 7) *)

Section dropdown_dispatch.
Context (w : World) (n um dd fu fd : nat).
Hypothesis Hum : c_userMenu (w_ctl w) = Some um.
Hypothesis Hdd : c_userDropdown (w_ctl w) = Some dd.
(** The click listeners of the page: [toggleUserDropdown] on the user
    menu, [handleOutsideClick] on the document, none on the window and
    none on the other elements the click passes. *)
Hypothesis Hl_um : listeners_at w (TNode um) "click" = [mkListener (TNode um) "click" fu HUserMenuClick].
Hypothesis Hl_doc : listeners_at w TDocument "click" = [mkListener TDocument "click" fd HDocumentClick].
Hypothesis Hl_win : listeners_at w TWindow "click" = [].
Hypothesis Hl_path : ∀ x, x ∈ ancestors (length (w_dom w)) (w_dom w) n → x ≠ um →
  listeners_at w (TNode x) "click" = [].

Lemma skip_to_um pre :
  (∀ x, x ∈ pre → x ∈ ancestors (length (w_dom w)) (w_dom w) n ∧ x ≠ um) →
  ∀ rest, propagate ((TNode <$> pre) ++ rest) (click_event n) (set_evflags false false w) =
          propagate rest (click_event n) (set_evflags false false w).
Proof.
  intros Hpre rest. apply propagate_skip_prefix; [|done].
  intros t (x&->&Hx)%list_elem_of_fmap. destruct (Hpre x Hx). rewrite listeners_at_evflags. by apply Hl_path.
Qed.

(** C26. A click on an element inside the user menu toggles the dropdown
    and stops there: the listener of the user menu stops propagation, so
    the document's outside-click listener does not run on the same click
    and nothing but the dropdown's [show] class and the event flags
    changes. *)
Theorem click_inside_user_menu :
  um ∈ ancestors (length (w_dom w)) (w_dom w) n →
  dispatch (click_event n) w =
    Ok tt (set_dom (classList_toggle "show" dd (w_dom w)) (set_evflags true false w)).
Proof.
  intros Hin. apply list_elem_of_split_l in Hin as (pre&post&Hanc&Hnot).
  rewrite dispatch_click_path, Hanc, fmap_app, <-app_assoc, skip_to_um.
  - cbn [propagate app fmap list_fmap]. unfold bind at 1, gets. cbn [ev_type click_event].
    rewrite listeners_at_evflags, Hl_um.
    cbn [forEach ev_type click_event l_handler run_handler]. rewrite bind_assoc.
    rewrite (bind_Ok _ _ _ tt (set_dom (classList_toggle "show" dd (w_dom w)) (set_evflags true false w)));
      [reflexivity|].
    unfold catch_report. rewrite (toggleUserDropdown_run _ _ dd) by done. reflexivity.
  - intros x Hx. split; [rewrite Hanc; set_solver|]. by intros ->.
Qed.

(** C27. A click on an element outside the user menu, on a path without
    other click listeners, reaches the document, whose listener hides the
    dropdown. *)
Theorem click_outside_user_menu :
  um ∉ ancestors (length (w_dom w)) (w_dom w) n →
  dispatch (click_event n) w =
    Ok tt (set_dom (classList_remove ["show"] dd (w_dom w)) (set_evflags false false w)).
Proof.
  intros Hout. rewrite dispatch_click_path, skip_to_um.
  - cbn [propagate app]. unfold bind at 1, gets. cbn [ev_type click_event].
    rewrite listeners_at_evflags, Hl_doc. cbn [forEach l_handler run_handler]. rewrite bind_assoc.
    rewrite (bind_Ok _ _ _ tt (set_dom (classList_remove ["show"] dd (w_dom w)) (set_evflags false false w))).
    + cbn [bind ret w_stopped set_dom set_evflags]. rewrite listeners_at_dom, listeners_at_evflags, Hl_win.
      reflexivity.
    + unfold catch_report. rewrite (handleOutsideClick_run _ _ um dd) by done.
      cbn [w_dom set_evflags node_of ev_target click_event with_currentTarget contains].
      by rewrite bool_decide_eq_false_2 by done.
  - intros x Hx. split; [done|]. intros ->. contradiction.
Qed.
End dropdown_dispatch.

(** ** Witnesses on the sample page *)

(** The sample page after [setLayout('icons')]. *)
Definition icons_world : World := final (setLayout (Some "icons") (sample_world 1024 ∅)).

Definition enter_event : Event := mkEvent "mouseenter" (TNode 1) (TNode 1) None.

Lemma expand_ignores_layout_change_witness :
  ∃ w', (onMouseEnter enter_event;; setLayout (Some "full");; fire_timer) icons_world = Ok tt w' ∧
    c_currentLayout (w_ctl w') = Some "full" ∧
    classList_contains "layout-full" 1 (w_dom w') = true ∧
    classList_contains "layout-full-temp" 1 (w_dom w') = true.
Proof.
  refine (expand_ignores_layout_change icons_world 1 _ _ _ _ _ enter_event (Some "full") _);
    vm_compute; first [reflexivity | lia].
Defined.

Lemma quick_leave_never_expands_witness :
  ∃ w', (onMouseEnter enter_event;; onMouseLeave (leave_to (Some 18));; fire_timer;; fire_timer)
          icons_world = Ok tt w' ∧
    classList_contains "layout-full-temp" 1 (w_dom w') = false ∧ w_timers w' = [].
Proof.
  refine (quick_leave_never_expands icons_world 1 _ _ _ _ enter_event (leave_to (Some 18)) _);
    vm_compute; first [reflexivity | lia].
Defined.

(** The sample page after [DOMContentLoaded]: the user menu's listener
    has function id 4, the document's click listener id 5. *)
Definition loaded_page : World := final (onDOMContentLoaded sample_page).

(** Close the listener hypotheses of a concrete path by evaluation. *)
Ltac path_listeners :=
  intros ?x Hx ?Hne; apply list_elem_of_In in Hx; vm_compute in Hx;
  repeat (destruct Hx as [<-|Hx]; [first [congruence | vm_compute; reflexivity]|]); contradiction.

Lemma click_inside_user_menu_witness :
  classList_contains "show" 13 (w_dom loaded_page) = false ∧
  dispatch (click_event 13) loaded_page =
    Ok tt (set_dom (classList_toggle "show" 13 (w_dom loaded_page)) (set_evflags true false loaded_page)).
Proof.
  split; [vm_compute; reflexivity|].
  apply (click_inside_user_menu loaded_page 13 12 13 4 5);
    first [vm_compute; reflexivity | path_listeners | decide_prop].
Defined.

Lemma click_outside_user_menu_witness :
  dispatch (click_event 18) loaded_page =
    Ok tt (set_dom (classList_remove ["show"] 13 (w_dom loaded_page)) (set_evflags false false loaded_page)).
Proof.
  apply (click_outside_user_menu loaded_page 18 12 13 5);
    first [vm_compute; reflexivity | path_listeners | decide_prop].
Defined.
